(** * PuntaFina_DW_Oro: the incremental extraction engine

    A shallow embedding of the extraction scripts under [src/scripts]
    ([build_facts.py], [build_quotes.py], [build_inventory_snapshot.py])
    and the proofs of their documented properties.

    Layout: Part I holds the embedding (Python values, timestamps, JSON
    text, data frames, the watermark store, the query builders, the
    relational reading of the generated joins, the orchestrators); Part II
    holds the lemmas and the theorems about it. *)

From Stdlib Require Import ZArith NArith Ascii String List Bool Lia.
From Stdlib Require Import DecimalNat DecimalString DecimalFacts DecimalN DecimalZ.
From stdpp Require Import base option list strings gmap.

Set Warnings "-register-all".

Local Open Scope string_scope.
Local Open Scope list_scope.

(* ===================================================================== *)
(** * Part I.  The embedding                                              *)
(* ===================================================================== *)

(** ** Python exceptions and results

    A Python call either returns a value or raises.  [PyExc] keeps the
    exception class and its message; every class used by the scripts
    derives from [Exception], so a handler [except Exception] catches
    each of them. *)

Inductive PyExc : Type :=
| Exc (cls : string) (msg : string).

Inductive Result (A : Type) : Type :=
| Ok (a : A)
| Raise (e : PyExc).

Arguments Ok {A} a.
Arguments Raise {A} e.

Definition exc_message (e : PyExc) : string :=
  match e with Exc _ msg => msg end.

Definition exc_class (e : PyExc) : string :=
  match e with Exc cls _ => cls end.

Definition is_ok {A : Type} (r : Result A) : bool :=
  match r with Ok _ => true | Raise _ => false end.

(** ** Text helpers *)

(** [sep.join(parts)] *)
Fixpoint join (sep : string) (parts : list string) : string :=
  match parts with
  | [] => ""
  | [p] => p
  | p :: rest => p +:+ sep +:+ join sep rest
  end.

(** [s.startswith(p)] *)
Fixpoint starts_with (p s : string) : bool :=
  match p with
  | EmptyString => true
  | String a p' =>
      match s with
      | String b s' => Ascii.eqb a b && starts_with p' s'
      | EmptyString => false
      end
  end.

(** [str(n)] of a non-negative count: its decimal digits. *)
Definition str_nat (n : nat) : string :=
  NilZero.string_of_uint (Nat.to_uint n).

(** [str(z)] of an integer. *)
Definition str_int (z : Z) : string :=
  NilZero.string_of_int (Z.to_int z).

(** The double-quote character (code 34). *)
Definition dquote : ascii := "034"%char.

(** ** Timestamps

    A [pandas.Timestamp] (a [datetime]) by its calendar fields; [ts_nanos]
    is the part below one second.  A naive timestamp is ordered by its
    fields, most significant first. *)

Record Timestamp : Type := mkTs {
  ts_year : Z; ts_month : Z; ts_day : Z;
  ts_hour : Z; ts_minute : Z; ts_second : Z;
  ts_nanos : Z
}.

Definition ts_key (t : Timestamp) : list Z :=
  [ts_year t; ts_month t; ts_day t; ts_hour t; ts_minute t; ts_second t; ts_nanos t].

Fixpoint lex_compare (a b : list Z) : comparison :=
  match a, b with
  | [], [] => Eq
  | [], _ :: _ => Lt
  | _ :: _, [] => Gt
  | x :: a', y :: b' =>
      match Z.compare x y with
      | Eq => lex_compare a' b'
      | c => c
      end
  end.

Definition ts_compare (t1 t2 : Timestamp) : comparison :=
  lex_compare (ts_key t1) (ts_key t2).

Definition ts_ltb (t1 t2 : Timestamp) : bool :=
  match ts_compare t1 t2 with Lt => true | _ => false end.

Definition ts_leb (t1 t2 : Timestamp) : bool :=
  match ts_compare t1 t2 with Gt => false | _ => true end.

(** The fields of a timestamp that pandas can hold and [strftime] renders
    with a four-digit year. *)
Definition valid_ts (t : Timestamp) : Prop :=
  (1000 <= ts_year t <= 9999 /\ 1 <= ts_month t <= 12 /\ 1 <= ts_day t <= 31 /\
   0 <= ts_hour t <= 23 /\ 0 <= ts_minute t <= 59 /\ 0 <= ts_second t <= 59 /\
   0 <= ts_nanos t <= 999999999)%Z.

(** Dropping the sub-second part: what the format [%Y-%m-%d %H:%M:%S]
    keeps of a timestamp. *)
Definition trunc_seconds (t : Timestamp) : Timestamp :=
  mkTs (ts_year t) (ts_month t) (ts_day t) (ts_hour t) (ts_minute t) (ts_second t) 0.

Definition digit_char (d : Z) : ascii := ascii_of_N (Z.to_N (48 + d)).

Definition is_digit (c : ascii) : bool :=
  ((48 <=? N_of_ascii c) && (N_of_ascii c <=? 57))%N.

Definition digit_value (c : ascii) : Z := Z.of_N (N_of_ascii c) - 48.

(** Zero-padded two-digit and four-digit fields ([%m], [%Y], ...). *)
Definition pad2 (z : Z) : string :=
  String (digit_char (z / 10)) (String (digit_char (z mod 10)) "").

Definition pad4 (z : Z) : string := pad2 (z / 100) +:+ pad2 (z mod 100).

(** [mx.strftime("%Y-%m-%d %H:%M:%S")] *)
Definition strftime (t : Timestamp) : string :=
  pad4 (ts_year t) +:+ "-" +:+ pad2 (ts_month t) +:+ "-" +:+ pad2 (ts_day t) +:+ " " +:+
  pad2 (ts_hour t) +:+ ":" +:+ pad2 (ts_minute t) +:+ ":" +:+ pad2 (ts_second t).

(** Reading a watermark text back as a timestamp, as the database does with
    the bound parameter [%(wm)s] when it compares it with a timestamp
    column: the fixed layout [YYYY-MM-DD HH:MM:SS]. *)
Definition read_digits2 (s : string) : option (Z * string) :=
  match s with
  | String a (String b rest) =>
      if is_digit a && is_digit b
      then Some (10 * digit_value a + digit_value b, rest)%Z
      else None
  | _ => None
  end.

Definition expect_char (c : ascii) (s : string) : option string :=
  match s with
  | String a rest => if Ascii.eqb a c then Some rest else None
  | EmptyString => None
  end.

Definition parse_watermark (s : string) : option Timestamp :=
  '(yh, s) ← read_digits2 s;
  '(yl, s) ← read_digits2 s;
  s ← expect_char "-" s;
  '(mo, s) ← read_digits2 s;
  s ← expect_char "-" s;
  '(dd, s) ← read_digits2 s;
  s ← expect_char " " s;
  '(hh, s) ← read_digits2 s;
  s ← expect_char ":" s;
  '(mi, s) ← read_digits2 s;
  s ← expect_char ":" s;
  '(ss, s) ← read_digits2 s;
  match s with
  | EmptyString => Some (mkTs (100 * yh + yl) mo dd hh mi ss 0)
  | _ => None
  end.

(** ** Python values

    The values a result-frame cell or a decoded JSON document can hold.
    [PNone] stands for every missing value ([None], [NaT]); a float is kept
    by its literal text, its arithmetic is not modelled. *)

Inductive PyVal : Type :=
| PNone
| PBool (b : bool)
| PInt (z : Z)
| PFloat (literal : string)
| PStr (s : string)
| PTimestamp (t : Timestamp)
| PList (items : list PyVal)
| PTuple (items : list PyVal)
| PDict (pairs : list (PyVal * PyVal)).

(** [isinstance(x, (dict, list, tuple))] *)
Definition is_composite (x : PyVal) : bool :=
  match x with
  | PDict _ | PList _ | PTuple _ => true
  | _ => false
  end.

(** Whether a float literal denotes a non-zero number (or NaN, an
    infinity): some digit of its mantissa is not [0]. *)
Fixpoint mantissa_nonzero (s : string) : bool :=
  match s with
  | EmptyString => false
  | String c rest =>
      if Ascii.eqb c "e" || Ascii.eqb c "E" then false
      else (is_digit c && negb (Ascii.eqb c "0")) || mantissa_nonzero rest
  end.

Definition float_nonzero (lit : string) : bool :=
  String.eqb lit "NaN" || String.eqb lit "Infinity" || String.eqb lit "-Infinity"
  || mantissa_nonzero lit.

(** Python truth value: what [if x] and [x and y] test. *)
Definition truthy (x : PyVal) : bool :=
  match x with
  | PNone => false
  | PBool b => b
  | PInt z => negb (z =? 0)%Z
  | PFloat lit => float_nonzero lit
  | PStr s => negb (String.eqb s "")
  | PTimestamp _ => true
  | PList l | PTuple l => negb (Nat.eqb (length l) 0)
  | PDict kvs => negb (Nat.eqb (length kvs) 0)
  end.

(** [pd.isna(x)] on a scalar cell. *)
Definition isna (x : PyVal) : bool :=
  match x with
  | PNone => true
  | PFloat lit => String.eqb lit "NaN"
  | _ => false
  end.

(** ** JSON text

    The part of Python's [json] module the scripts call:
    [json.dumps(x, ensure_ascii=False)] (with and without [indent]) and
    [json.loads].  JSON text is handled as a list of characters. *)

Module Json.

Definition Text : Type := list ascii.

Definition chars (s : string) : Text := list_ascii_of_string s.
Definition text (t : Text) : string := string_of_list_ascii t.

Definition LF : ascii := "010"%char.
Definition CR : ascii := "013"%char.
Definition TAB : ascii := "009"%char.
Definition BS : ascii := "008"%char.
Definition FF : ascii := "012"%char.
Definition backslash : ascii := "092"%char.

Section MapOption.
Context {A B : Type} (f : A -> option B).

(** Apply [f] to every element; the first failure fails the whole. *)
Fixpoint map_option (l : list A) : option (list B) :=
  match l with
  | [] => Some []
  | x :: rest =>
      match f x with
      | Some y =>
          match map_option rest with
          | Some ys => Some (y :: ys)
          | None => None
          end
      | None => None
      end
  end.
End MapOption.

Fixpoint join_text (sep : Text) (parts : list Text) : Text :=
  match parts with
  | [] => []
  | [p] => p
  | p :: rest => p ++ sep ++ join_text sep rest
  end.

(** *** Encoding: [json.dumps] *)

Definition hex_digit (n : N) : ascii :=
  if (n <? 10)%N then ascii_of_N (48 + n) else ascii_of_N (87 + n).

(** [ESCAPE_DCT] of [json.encoder] for [ensure_ascii=False]: the quote, the
    backslash and the control characters below 32 are escaped, every other
    character is written as it is. *)
Definition escape_char (c : ascii) : Text :=
  if Ascii.eqb c dquote then [backslash; dquote]
  else if Ascii.eqb c backslash then [backslash; backslash]
  else if Ascii.eqb c LF then [backslash; "n"%char]
  else if Ascii.eqb c CR then [backslash; "r"%char]
  else if Ascii.eqb c TAB then [backslash; "t"%char]
  else if Ascii.eqb c BS then [backslash; "b"%char]
  else if Ascii.eqb c FF then [backslash; "f"%char]
  else if (N_of_ascii c <? 32)%N
       then [backslash; "u"%char; "0"%char; "0"%char;
             hex_digit (N_of_ascii c / 16); hex_digit (N_of_ascii c mod 16)]
  else [c].

Definition encode_body (s : Text) : Text := flat_map escape_char s.

(** [py_encode_basestring(s)] *)
Definition encode_basestring (s : string) : Text :=
  dquote :: encode_body (chars s) ++ [dquote].

(** The text a dictionary key is written as; [None] is the encoder's
    [TypeError] (keys must be str, int, float, bool or None). *)
Definition key_text (k : PyVal) : option string :=
  match k with
  | PStr s => Some s
  | PFloat lit => Some lit
  | PBool true => Some "true"
  | PBool false => Some "false"
  | PNone => Some "null"
  | PInt z => Some (str_int z)
  | _ => None
  end.

(** A line break followed by the indentation of [level], when an indent is
    given; nothing otherwise. *)
Definition newline_indent (indent : option nat) (level : nat) : Text :=
  match indent with
  | None => []
  | Some n => LF :: repeat " "%char (n * level)
  end.

Definition item_separator (indent : option nat) (level : nat) : Text :=
  match indent with
  | None => chars ", "
  | Some _ => ","%char :: newline_indent indent level
  end.

(** [json.dumps(v, ensure_ascii=False, indent=indent)] at nesting [level];
    [None] is the [TypeError] for a value that is not JSON serializable. *)
Fixpoint dumps_at (indent : option nat) (level : nat) (v : PyVal) : option Text :=
  match v with
  | PNone => Some (chars "null")
  | PBool true => Some (chars "true")
  | PBool false => Some (chars "false")
  | PInt z => Some (chars (str_int z))
  | PFloat lit => Some (chars lit)
  | PStr s => Some (encode_basestring s)
  | PTimestamp _ => None
  | PList [] | PTuple [] => Some (chars "[]")
  | PList l | PTuple l =>
      match map_option (dumps_at indent (S level)) l with
      | Some parts =>
          Some ("["%char :: newline_indent indent (S level)
                  ++ join_text (item_separator indent (S level)) parts
                  ++ newline_indent indent level ++ ["]"%char])
      | None => None
      end
  | PDict [] => Some (chars "{}")
  | PDict kvs =>
      match map_option
              (fun kv : PyVal * PyVal =>
                 match key_text (fst kv), dumps_at indent (S level) (snd kv) with
                 | Some k, Some t => Some (encode_basestring k ++ chars ": " ++ t)
                 | _, _ => None
                 end) kvs with
      | Some parts =>
          Some ("{"%char :: newline_indent indent (S level)
                  ++ join_text (item_separator indent (S level)) parts
                  ++ newline_indent indent level ++ ["}"%char])
      | None => None
      end
  end.

(** [json.dumps(v, ensure_ascii=False)] *)
Definition dumps (v : PyVal) : Result string :=
  match dumps_at None 0 v with
  | Some t => Ok (text t)
  | None => Raise (Exc "TypeError" "Object is not JSON serializable")
  end.

(** [json.dumps(v, ensure_ascii=False, indent=n)] *)
Definition dumps_indent (n : nat) (v : PyVal) : Result string :=
  match dumps_at (Some n) 0 v with
  | Some t => Ok (text t)
  | None => Raise (Exc "TypeError" "Object is not JSON serializable")
  end.

(** *** Decoding: [json.loads] *)

Definition is_ws (c : ascii) : bool :=
  Ascii.eqb c " " || Ascii.eqb c TAB || Ascii.eqb c LF || Ascii.eqb c CR.

(** The scanner's [WHITESPACE.match]: skip blanks, tabs and line ends. *)
Fixpoint skip_ws (s : Text) : Text :=
  match s with
  | c :: r => if is_ws c then skip_ws r else s
  | [] => []
  end.

Fixpoint strip_prefix (p s : Text) : option Text :=
  match p, s with
  | [], _ => Some s
  | a :: p', b :: s' => if Ascii.eqb a b then strip_prefix p' s' else None
  | _ :: _, [] => None
  end.

Definition hex_value (c : ascii) : option N :=
  let n := N_of_ascii c in
  if ((48 <=? n) && (n <=? 57))%N then Some (n - 48)%N
  else if ((97 <=? n) && (n <=? 102))%N then Some (n - 87)%N
  else if ((65 <=? n) && (n <=? 70))%N then Some (n - 55)%N
  else None.

Definition hex4 (a b c d : ascii) : option N :=
  match hex_value a, hex_value b, hex_value c, hex_value d with
  | Some x, Some y, Some z, Some w => Some (((x * 16 + y) * 16 + z) * 16 + w)%N
  | _, _, _, _ => None
  end.

(** The bytes of a code point in a [str] held as UTF-8. *)
Definition utf8 (cp : N) : Text :=
  if (cp <? 128)%N then [ascii_of_N cp]
  else if (cp <? 2048)%N then
    [ascii_of_N (192 + cp / 64); ascii_of_N (128 + cp mod 64)]
  else if (cp <? 65536)%N then
    [ascii_of_N (224 + cp / 4096); ascii_of_N (128 + (cp / 64) mod 64);
     ascii_of_N (128 + cp mod 64)]
  else
    [ascii_of_N (240 + cp / 262144); ascii_of_N (128 + (cp / 4096) mod 64);
     ascii_of_N (128 + (cp / 64) mod 64); ascii_of_N (128 + cp mod 64)].

Definition is_high_surrogate (cp : N) : bool := ((55296 <=? cp) && (cp <=? 56319))%N.
Definition is_low_surrogate (cp : N) : bool := ((56320 <=? cp) && (cp <=? 57343))%N.

(** The low half of a surrogate pair at the head of [s], if there is one. *)
Definition low_surrogate (s : Text) : option N :=
  match s with
  | b :: u :: l1 :: l2 :: l3 :: l4 :: _ =>
      if Ascii.eqb b backslash && Ascii.eqb u "u" then
        match hex4 l1 l2 l3 l4 with
        | Some lo => if is_low_surrogate lo then Some lo else None
        | None => None
        end
      else None
  | _ => None
  end.

Definition simple_escape (e : ascii) : option ascii :=
  if Ascii.eqb e dquote then Some dquote
  else if Ascii.eqb e backslash then Some backslash
  else if Ascii.eqb e "/" then Some "/"%char
  else if Ascii.eqb e "b" then Some BS
  else if Ascii.eqb e "f" then Some FF
  else if Ascii.eqb e "n" then Some LF
  else if Ascii.eqb e "r" then Some CR
  else if Ascii.eqb e "t" then Some TAB
  else None.

Definition prepend (p : Text) (r : option (Text * Text)) : option (Text * Text) :=
  match r with
  | Some (str, rest) => Some (p ++ str, rest)
  | None => None
  end.

(** [scanstring(s, end, strict=True)], entered just after the opening
    quote: the decoded characters and the text after the closing quote.
    [None] is the [JSONDecodeError] (unterminated string, invalid escape,
    raw control character). *)
Fixpoint scanstring (s : Text) : option (Text * Text) :=
  match s with
  | [] => None
  | c :: r =>
      if Ascii.eqb c dquote then Some ([], r)
      else if Ascii.eqb c backslash then
        match r with
        | [] => None
        | e :: r1 =>
            if Ascii.eqb e "u" then
              match r1 with
              | h1 :: h2 :: h3 :: h4 :: r2 =>
                  match hex4 h1 h2 h3 h4 with
                  | None => None
                  | Some cp =>
                      match r2 with
                      | _ :: _ :: _ :: _ :: _ :: _ :: r3 =>
                          match (if is_high_surrogate cp then low_surrogate r2 else None) with
                          | Some lo =>
                              prepend (utf8 (65536 + (cp - 55296) * 1024 + (lo - 56320))%N)
                                      (scanstring r3)
                          | None => prepend (utf8 cp) (scanstring r2)
                          end
                      | _ => prepend (utf8 cp) (scanstring r2)
                      end
                  end
              | _ => None
              end
            else
              match simple_escape e with
              | Some d => prepend [d] (scanstring r1)
              | None => None
              end
        end
      else if (N_of_ascii c <? 32)%N then None
      else prepend [c] (scanstring r)
  end.

Fixpoint span_digits (s : Text) : Text * Text :=
  match s with
  | c :: r =>
      if is_digit c then let '(d, rest) := span_digits r in (c :: d, rest)
      else ([], s)
  | [] => ([], [])
  end.

(** The integer part of [NUMBER_RE]: an optional minus sign, then either
    a single [0] or a non-zero digit followed by any digits. *)
Definition scan_integer (s : Text) : option (Text * Text) :=
  let '(sign, s1) :=
    match s with
    | c :: r => if Ascii.eqb c "-" then ([c], r) else ([], s)
    | [] => ([], [])
    end in
  match s1 with
  | c :: r =>
      if Ascii.eqb c "0" then Some (sign ++ [c], r)
      else if is_digit c then
        let '(d, rest) := span_digits r in Some (sign ++ c :: d, rest)
      else None
  | [] => None
  end.

(** The optional fraction of [NUMBER_RE]: a dot and at least one digit. *)
Definition scan_frac (s : Text) : Text * Text :=
  match s with
  | c :: r =>
      if Ascii.eqb c "." then
        match span_digits r with
        | ([], _) => ([], s)
        | (d, rest) => (c :: d, rest)
        end
      else ([], s)
  | [] => ([], [])
  end.

(** The optional exponent of [NUMBER_RE]: [e] or [E], an optional sign and
    at least one digit. *)
Definition scan_exp (s : Text) : Text * Text :=
  match s with
  | c :: r =>
      if Ascii.eqb c "e" || Ascii.eqb c "E" then
        let '(sg, r1) :=
          match r with
          | x :: r' => if Ascii.eqb x "+" || Ascii.eqb x "-" then ([x], r') else ([], r)
          | [] => ([], [])
          end in
        match span_digits r1 with
        | ([], _) => ([], s)
        | (d, rest) => (c :: sg ++ d, rest)
        end
      else ([], s)
  | [] => ([], [])
  end.

(** [int(text)] of a matched integer literal. *)
Definition int_of_text (t : Text) : Z :=
  match NilZero.int_of_string (text t) with
  | Some d => Z.of_int d
  | None => 0%Z
  end.

(** [NUMBER_RE.match]: an integer literal is an [int], a literal with a
    fraction or an exponent a [float]. *)
Definition scan_number (s : Text) : option (PyVal * Text) :=
  match scan_integer s with
  | None => None
  | Some (int_part, s1) =>
      let '(frac, s2) := scan_frac s1 in
      let '(exp, s3) := scan_exp s2 in
      match frac, exp with
      | [], [] => Some (PInt (int_of_text int_part), s3)
      | _, _ => Some (PFloat (text (int_part ++ frac ++ exp)), s3)
      end
  end.

Definition scan_constant (name : string) (v : PyVal) (s : Text) : option (PyVal * Text) :=
  match strip_prefix (chars name) s with
  | Some rest => Some (v, rest)
  | None => None
  end.

Definition key_is (k : string) (k' : PyVal) : bool :=
  match k' with
  | PStr s => String.eqb s k
  | _ => false
  end.

(** [d[k] = v] on a dictionary kept in insertion order. *)
Fixpoint dict_set (d : list (PyVal * PyVal)) (k : string) (v : PyVal) : list (PyVal * PyVal) :=
  match d with
  | [] => [(PStr k, v)]
  | (k', v') :: r => if key_is k k' then (k', v) :: r else (k', v') :: dict_set r k v
  end.

(** [dict(pairs)]: a repeated key keeps its first place and its last value. *)
Definition dict_of_pairs (pairs : list (string * PyVal)) : list (PyVal * PyVal) :=
  fold_left (fun d kv => dict_set d (fst kv) (snd kv)) pairs [].

(** [scan_once] with [JSONArray] and [JSONObject].  The recursion is bounded
    by [fuel], one unit per call; [None] is the [JSONDecodeError]. *)
Fixpoint scan_once (fuel : nat) (s : Text) {struct fuel} : option (PyVal * Text) :=
  match fuel with
  | O => None
  | S fuel' =>
      match s with
      | [] => None
      | c :: r =>
          if Ascii.eqb c dquote then
            match scanstring r with
            | Some (str, rest) => Some (PStr (text str), rest)
            | None => None
            end
          else if Ascii.eqb c "{" then
            match skip_ws r with
            | c1 :: r1 =>
                if Ascii.eqb c1 "}" then Some (PDict [], r1)
                else if Ascii.eqb c1 dquote then
                  match object_items fuel' r1 with
                  | Some (pairs, rest) => Some (PDict (dict_of_pairs pairs), rest)
                  | None => None
                  end
                else None
            | [] => None
            end
          else if Ascii.eqb c "[" then
            match skip_ws r with
            | c1 :: r1 =>
                if Ascii.eqb c1 "]" then Some (PList [], r1)
                else
                  match array_items fuel' (c1 :: r1) with
                  | Some (items, rest) => Some (PList items, rest)
                  | None => None
                  end
            | [] => None
            end
          else if Ascii.eqb c "n" then scan_constant "null" PNone s
          else if Ascii.eqb c "t" then scan_constant "true" (PBool true) s
          else if Ascii.eqb c "f" then scan_constant "false" (PBool false) s
          else
            match scan_number s with
            | Some r => Some r
            | None =>
                if Ascii.eqb c "N" then scan_constant "NaN" (PFloat "NaN") s
                else if Ascii.eqb c "I" then scan_constant "Infinity" (PFloat "Infinity") s
                else if Ascii.eqb c "-" then scan_constant "-Infinity" (PFloat "-Infinity") s
                else None
            end
      end
  end

with array_items (fuel : nat) (s : Text) {struct fuel} : option (list PyVal * Text) :=
  match fuel with
  | O => None
  | S fuel' =>
      match scan_once fuel' s with
      | Some (v, s1) =>
          match skip_ws s1 with
          | c :: s2 =>
              if Ascii.eqb c "]" then Some ([v], s2)
              else if Ascii.eqb c "," then
                match array_items fuel' (skip_ws s2) with
                | Some (vs, s3) => Some (v :: vs, s3)
                | None => None
                end
              else None
          | [] => None
          end
      | None => None
      end
  end

with object_items (fuel : nat) (s : Text) {struct fuel} : option (list (string * PyVal) * Text) :=
  match fuel with
  | O => None
  | S fuel' =>
      match scanstring s with
      | Some (k, s1) =>
          match skip_ws s1 with
          | c :: s2 =>
              if Ascii.eqb c ":" then
                match scan_once fuel' (skip_ws s2) with
                | Some (v, s3) =>
                    match skip_ws s3 with
                    | c1 :: s4 =>
                        if Ascii.eqb c1 "}" then Some ([(text k, v)], s4)
                        else if Ascii.eqb c1 "," then
                          match skip_ws s4 with
                          | c2 :: s5 =>
                              if Ascii.eqb c2 dquote then
                                match object_items fuel' s5 with
                                | Some (kvs, s6) => Some ((text k, v) :: kvs, s6)
                                | None => None
                                end
                              else None
                          | [] => None
                          end
                        else None
                    | [] => None
                    end
                | None => None
                end
              else None
          | [] => None
          end
      | None => None
      end
  end.

(** [json.loads(s)]: one value between optional blanks, nothing after it. *)
Definition loads (s : string) : Result PyVal :=
  let t := chars s in
  match scan_once (S (length t)) (skip_ws t) with
  | Some (v, rest) =>
      match skip_ws rest with
      | [] => Ok v
      | _ :: _ => Raise (Exc "JSONDecodeError" "Extra data")
      end
  | None => Raise (Exc "JSONDecodeError" "Expecting value")
  end.

End Json.

(** ** Result frames

    A [pandas.DataFrame] as the scripts use it: a row count and the
    columns in order, each a name and its cells.  Names may repeat (two
    select items under one alias). *)

Record DataFrame : Type := mkDf {
  df_nrows : nat;
  df_columns : list (string * list PyVal)
}.

(** Every column holds one cell per row. *)
Definition df_wf (df : DataFrame) : Prop :=
  Forall (fun col => length (snd col) = df_nrows df) (df_columns df).

(** [df.empty]: no rows or no columns. *)
Definition df_empty (df : DataFrame) : bool :=
  Nat.eqb (df_nrows df) 0 || Nat.eqb (length (df_columns df)) 0.

(** [list(df.columns)] *)
Definition column_names (df : DataFrame) : list string :=
  map fst (df_columns df).

(** The columns [df[c]] selects: one for a plain name, several when the
    name repeats, none when [c not in df.columns]. *)
Definition columns_named (df : DataFrame) (c : string) : list (list PyVal) :=
  map snd (List.filter (fun col => String.eqb (fst col) c) (df_columns df)).

(** ** What the scripts take from outside

    The library calls whose results the scripts only pass on, the settings
    read from [config/settings.yaml], and the failures of the file writers. *)

Record Env : Type := mkEnv {
  (** [str(x)] of a value the JSON encoder refused *)
  py_str : PyVal -> string;
  (** [pd.to_datetime] on a cell that is neither missing nor a timestamp:
      [None] when it raises, [Some None] for [NaT] *)
  to_datetime_other : PyVal -> option (option Timestamp);
  (** [df.to_parquet(path)] and [df.to_csv(path)]: the exception, if the
      write fails *)
  to_parquet_raises : string -> DataFrame -> option PyExc;
  to_csv_raises : string -> DataFrame -> option PyExc;
  (** [SETTINGS] and the paths derived from it *)
  EXPORTAR_PARQUET : bool;
  EXPORTAR_CSV : bool;
  OUT_PARQUET_DIR : string;
  OUT_CSV_DIR : string;
  INCR_CFG : gmap string PyVal
}.

(** Bound query parameters: [None] or a dict such as [{"wm": last_wm}]. *)
Definition Params : Type := option (list (string * PyVal)).

(** The source database during one run: the metadata catalog
    ([information_schema]: the columns of a table, if it exists) and the
    execution of a query with its parameters. *)
Record Source : Type := mkSource {
  catalog : string -> string -> option (list string);
  execute : string -> Params -> Result DataFrame
}.

Section Values.
Context (env : Env).

(** [to_json_string(x)] ([build_facts.py] 84-90, the same text in
    [build_quotes.py] 119-125 and [build_inventory_snapshot.py] 104-110) *)
Definition to_json_string (x : PyVal) : PyVal :=
  if is_composite x then
    match Json.dumps x with
    | Ok s => PStr s
    | Raise _ => PStr (py_str env x)
    end
  else x.

(** [df[col].dtype == "object"]: the column holds Python objects rather
    than numbers, booleans or timestamps only. *)
Definition dtype_is_object (cells : list PyVal) : bool :=
  existsb (fun v => match v with
                    | PInt _ | PFloat _ | PBool _ | PTimestamp _ => false
                    | _ => true
                    end) cells.

(** [df[col].dropna().head(10).tolist()] *)
Definition sample (cells : list PyVal) : list PyVal :=
  firstn 10 (List.filter (fun v => negb (isna v)) cells).

Definition sanitize_column (cells : list PyVal) : list PyVal :=
  if dtype_is_object cells && existsb is_composite (sample cells)
  then map to_json_string cells
  else cells.

(** [sanitize_dataframe(df)] ([build_facts.py] 92-98).  On a repeated
    column name [df[col]] is a frame, and a frame has no [dtype]:
    [AttributeError]. *)
Definition sanitize_dataframe (df : DataFrame) : Result DataFrame :=
  if forallb (fun c => Nat.eqb (length (columns_named df c)) 1) (column_names df)
  then Ok (mkDf (df_nrows df)
                (map (fun col => (fst col, sanitize_column (snd col))) (df_columns df)))
  else Raise (Exc "AttributeError" "'DataFrame' object has no attribute 'dtype'").

(** [pd.to_datetime(df[c])]: [None] when the conversion raises. *)
Definition to_datetime_cell (v : PyVal) : option (option Timestamp) :=
  match v with
  | PNone => Some None
  | PTimestamp t => Some (Some t)
  | _ => if isna v then Some None else to_datetime_other env v
  end.

Definition to_datetime (cells : list PyVal) : option (list (option Timestamp)) :=
  Json.map_option to_datetime_cell cells.

Definition ts_max (a b : Timestamp) : Timestamp :=
  if ts_ltb a b then b else a.

(** [Series.max()] of a datetime column: the greatest timestamp, [NaT]
    (here [None]) when there is none. *)
Fixpoint series_max (l : list (option Timestamp)) : option Timestamp :=
  match l with
  | [] => None
  | None :: rest => series_max rest
  | Some t :: rest =>
      match series_max rest with
      | Some m => Some (ts_max t m)
      | None => Some t
      end
  end.

(** [max_timestamp(df, cols)] ([build_facts.py] 204-215,
    [build_quotes.py] 187-197).  The tests [c in df.columns] and
    [not df[c].isna().all()] stand outside the [try]: on a repeated column
    name [df[c]] is a frame, [.isna().all()] a series, and its truth value
    raises [ValueError]. *)
Fixpoint max_timestamp (df : DataFrame) (cols : list string) : Result (option string) :=
  match cols with
  | [] => Ok None
  | c :: rest =>
      match columns_named df c with
      | [] => max_timestamp df rest
      | [cells] =>
          if forallb isna cells then max_timestamp df rest
          else
            match to_datetime cells with
            | None => max_timestamp df rest
            | Some ts =>
                match series_max ts with
                | None => max_timestamp df rest
                | Some mx => Ok (Some (strftime mx))
                end
            end
      | _ :: _ :: _ =>
          Raise (Exc "ValueError" "The truth value of a Series is ambiguous.")
      end
  end.

End Values.

(** ** The world the scripts act on

    The state directory [data/_state] (one file per fact, keyed by the fact
    name), the parquet and csv outputs (keyed by the table name), and the
    history of what a run did: its log records and the effects the
    properties speak about. *)

Inductive FileNode : Type :=
| TextFile (content : string)
| Unreadable.   (* exists, but cannot be opened: a directory, a path without
                   permission; [read_text] and [write_text] raise *)

Inductive Level : Type := INFO | WARNING | ERROR.

Inductive Event : Type :=
| Log (lvl : Level) (msg : string)
| Executed (query : string) (params : Params)
| ParquetWritten (name : string)
| CsvWritten (name : string)
| ExportReturned (name : string)
| WatermarkWritten (fact : string) (wm : string).

Record World : Type := mkWorld {
  state_dir : gmap string FileNode;
  parquet_dir : gmap string DataFrame;
  csv_dir : gmap string DataFrame;
  history : list Event
}.

(** *** Statements that change the world and may raise *)

Definition M (A : Type) : Type := World -> Result A * World.

Definition ret {A : Type} (a : A) : M A := fun w => (Ok a, w).

Definition raise {A : Type} (e : PyExc) : M A := fun w => (Raise e, w).

Definition bind {A B : Type} (m : M A) (k : A -> M B) : M B :=
  fun w =>
    match m w with
    | (Ok a, w') => k a w'
    | (Raise e, w') => (Raise e, w')
    end.

(** [try: body  except Exception as e: handler(e)] *)
Definition try_except {A : Type} (body : M A) (handler : PyExc -> M A) : M A :=
  fun w =>
    match body w with
    | (Ok a, w') => (Ok a, w')
    | (Raise e, w') => handler e w'
    end.

(** A pure call that may raise. *)
Definition lift {A : Type} (r : Result A) : M A := fun w => (r, w).

Declare Scope py_scope.
Delimit Scope py_scope with py.
Notation "x <- m ;; k" := (bind m (fun x => k))
  (at level 100, m at next level, right associativity) : py_scope.
Notation "m ;; k" := (bind m (fun _ => k))
  (at level 100, right associativity) : py_scope.
Local Open Scope py_scope.

Definition emit (ev : Event) : M unit :=
  fun w => (Ok tt, mkWorld (state_dir w) (parquet_dir w) (csv_dir w) (history w ++ [ev])).

Definition logging (lvl : Level) (msg : string) : M unit := emit (Log lvl msg).

(** [s.replace(needle, repl)]; [template.format(where_clause=...)] is the
    case of the needle [{where_clause}] (the templates hold no other brace). *)
Fixpoint replace_go (needle repl : string) (skip : nat) (s : string) : string :=
  match s with
  | EmptyString => EmptyString
  | String c r =>
      match skip with
      | S k => replace_go needle repl k r
      | O =>
          if starts_with needle s
          then repl +:+ replace_go needle repl (String.length needle - 1) r
          else String c (replace_go needle repl 0 r)
      end
  end.

Definition str_replace (s needle repl : string) : string :=
  replace_go needle repl 0 s.

(** *** The watermark store *)

(** [read_watermark(fact_name)] ([build_facts.py] 123-131,
    [build_quotes.py] 173-181) *)
Definition dict_get (d : list (PyVal * PyVal)) (k : string) : PyVal :=
  match find (fun kv => Json.key_is k (fst kv)) d with
  | Some kv => snd kv
  | None => PNone
  end.

(** [p.read_text(encoding="utf-8")] *)
Definition read_text (n : FileNode) : Result string :=
  match n with
  | TextFile s => Ok s
  | Unreadable => Raise (Exc "OSError" "cannot read the file")
  end.

(** [data.get("watermark")]: only a dict has [get]. *)
Definition get_watermark (data : PyVal) : Result PyVal :=
  match data with
  | PDict d => Ok (dict_get d "watermark")
  | _ => Raise (Exc "AttributeError" "object has no attribute 'get'")
  end.

Definition read_watermark (fact_name : string) : M PyVal :=
  fun w =>
    match state_dir w !! fact_name with
    | None => (Ok PNone, w)
    | Some p =>
        try_except
          (txt <- lift (read_text p) ;;
           data <- lift (Json.loads txt) ;;
           lift (get_watermark data))
          (fun _ => ret PNone) w
    end.

(** [p.write_text(txt, encoding="utf-8")]: the file is created or replaced;
    over a path that cannot be opened the call raises and nothing is
    written. *)
Definition writable (n : option FileNode) : bool :=
  match n with
  | Some Unreadable => false
  | _ => true
  end.

Definition write_text (n : option FileNode) (txt : string) : Result FileNode :=
  if writable n then Ok (TextFile txt)
  else Raise (Exc "OSError" "cannot write the file").

(** [write_watermark(fact_name, wm)] ([build_facts.py] 133-135,
    [build_quotes.py] 183-185) *)
Definition write_watermark (fact_name : string) (wm : string) : M unit :=
  txt <- lift (Json.dumps_indent 2 (PDict [(PStr "watermark", PStr wm)])) ;;
  fun w =>
    match write_text (state_dir w !! fact_name) txt with
    | Raise e => (Raise e, w)
    | Ok node =>
        (Ok tt, mkWorld (<[fact_name := node]> (state_dir w))
                        (parquet_dir w) (csv_dir w)
                        (history w ++ [WatermarkWritten fact_name wm]))
    end.

(** *** File writers *)

Section Writers.
Context (env : Env).

(** [(out_dir / "part-00000.parquet").unlink(missing_ok=True)] followed by
    [df.to_parquet(...)]: the old file is gone before the new one is
    written. *)
Definition to_parquet (name : string) (df : DataFrame) : M unit :=
  fun w =>
    match to_parquet_raises env name df with
    | Some e =>
        (Raise e, mkWorld (state_dir w) (delete name (parquet_dir w)) (csv_dir w) (history w))
    | None =>
        (Ok tt, mkWorld (state_dir w) (<[name := df]> (parquet_dir w)) (csv_dir w)
                        (history w ++ [ParquetWritten name]))
    end.

(** [df.to_csv(out_csv, index=False)] *)
Definition to_csv (name : string) (df : DataFrame) : M unit :=
  fun w =>
    match to_csv_raises env name df with
    | Some e => (Raise e, w)
    | None =>
        (Ok tt, mkWorld (state_dir w) (parquet_dir w) (<[name := df]> (csv_dir w))
                        (history w ++ [CsvWritten name]))
    end.

Definition write_outputs (name : string) (df : DataFrame) : M unit :=
  (if EXPORTAR_PARQUET env then
     to_parquet name df ;;
     logging INFO (name +:+ ": parquet -> " +:+ OUT_PARQUET_DIR env +:+ "/" +:+ name +:+ "/part-00000.parquet")
   else ret tt) ;;
  (if EXPORTAR_CSV env then
     to_csv name df ;;
     logging INFO (name +:+ ": csv -> " +:+ OUT_CSV_DIR env +:+ "/" +:+ name +:+ ".csv")
   else ret tt).

End Writers.

(** [if wm and incr_enabled: write_watermark(fact_name, wm); logging.info(...)]
    ([build_facts.py] 247-249, [build_quotes.py] 440-442) *)
Definition commit_watermark (fact_name : string) (wm : option string) (incr_enabled : bool) : M unit :=
  match wm with
  | Some s =>
      if negb (String.eqb s "") && incr_enabled then
        write_watermark fact_name s ;;
        logging INFO ("  Nuevo watermark " +:+ fact_name +:+ ": " +:+ s)
      else ret tt
  | None => ret tt
  end.

(** [read_sql_to_df(conn, query, params)] *)
Definition read_sql_to_df (src : Source) (query : string) (params : Params) : M DataFrame :=
  emit (Executed query params) ;;
  lift (execute src query params).

(** The guarded block of one target ([build_facts.py] 241-251 and 262-271,
    [build_quotes.py] 435-444 and 461-470): the four blocks differ in the
    names and in the script's own [export_table] only.  [export] returns
    the frame as the caller holds it after the call. *)
Definition guarded_block (env : Env) (src : Source)
    (export : DataFrame -> string -> M DataFrame)
    (fact_name query : string) (params : Params) (incr_enabled : bool)
    (ts_cols : list string) : M unit :=
  try_except
    (df <- read_sql_to_df src query params ;;
     logging INFO ("  Filas: " +:+ str_nat (df_nrows df) +:+ " | Columnas: "
                     +:+ str_nat (length (df_columns df))) ;;
     df <- export df fact_name ;;
     wm <- lift (max_timestamp env df ts_cols) ;;
     commit_watermark fact_name wm incr_enabled)
    (fun e => logging ERROR ("  Error en " +:+ fact_name +:+ ": " +:+ exc_message e)).

(** [logging.info(f"[FACT] {fact_name} | incr={incr_enabled} | last_wm={last_wm}")] *)
Definition log_fact (env : Env) (fact_name : string) (incr_enabled : bool) (last_wm : PyVal) : M unit :=
  logging INFO ("[FACT] " +:+ fact_name +:+ " | incr=" +:+ py_str env (PBool incr_enabled)
                  +:+ " | last_wm=" +:+ py_str env last_wm).

(** [bool(INCR_CFG.get(key, default))] *)
Definition incr_setting (env : Env) (key : string) (default : bool) : bool :=
  match INCR_CFG env !! key with
  | Some v => truthy v
  | None => default
  end.

Definition NL : string := String Json.LF EmptyString.

(** The lines of a multi-line string literal. *)
Definition lines (ls : list string) : string := join NL ls.

(** ** [build_facts.py] *)

Module BuildFacts.

(** [Q_FACT_VENTAS_LINEA_BASE] ([build_facts.py] 141-167) *)
Definition Q_FACT_VENTAS_LINEA_BASE : string := lines [
  "";
  "SELECT";
  "    COALESCE(o.id, li.order_id)           AS order_id,";
  "    li.line_item_id,";
  "    li.product_id,";
  "    li.sku,";
  "    li.product_unit,";
  "    li.quantity,";
  "    li.price                                                AS precio_unitario,";
  "    COALESCE(li.row_total, (li.quantity * li.price))        AS subtotal_linea,";
  "    li.discount_amount                                      AS descuento_linea,";
  "    li.tax_amount                                           AS impuestos_linea,";
  "    COALESCE(o.currency, li.currency)                       AS currency_code,";
  "    o.created_at                                            AS fecha_creacion_pedido,";
  "    o.updated_at                                            AS fecha_actualizacion_pedido,";
  "    o.website_id,";
  "    o.customer_id,";
  "    o.user_owner_id                                         AS usuario_owner_id,";
  "    COALESCE(o.internal_status_name, 'Sin estado')          AS estado_pedido";
  "FROM";
  "    oro_order_line_item_granular li";
  "LEFT JOIN";
  "    oro_order_granular o";
  "      ON o.id = li.order_id";
  "{where_clause}";
  "ORDER BY COALESCE(o.updated_at, o.created_at, '1900-01-01'::timestamp);";
  ""
].

(** [Q_FACT_PAGO_BASE] ([build_facts.py] 171-187) *)
Definition Q_FACT_PAGO_BASE : string := lines [
  "";
  "SELECT";
  "    t.transaction_id,";
  "    t.order_id,";
  "    t.amount            AS monto,";
  "    t.currency          AS currency_code,";
  "    t.action            AS tipo_accion,";
  "    t.payment_method,";
  "    t.status            AS status_raw,";
  "    t.successful        AS es_exitoso,";
  "    t.created_at,";
  "    t.updated_at";
  "FROM";
  "    oro_payment_transaction_granular t";
  "{where_clause}";
  "ORDER BY COALESCE(t.updated_at, t.created_at, '1900-01-01'::timestamp);";
  ""
].

(** [build_where_incremental(fact, column, incr_enabled, last_wm)]
    ([build_facts.py] 189-202): the where-clause, the bound parameters and
    whether the incremental predicate is used. *)
Definition build_where_incremental (fact column : string) (incr_enabled : bool)
    (last_wm : PyVal) : string * Params * bool :=
  if incr_enabled && truthy last_wm then
    ("WHERE " +:+ column +:+ " > %(wm)s", Some [("wm", last_wm)], true)
  else if incr_enabled && negb (truthy last_wm) then
    ("", None, false)
  else
    ("", None, false).

Section Run.
Context (env : Env) (src : Source).
Local Open Scope py_scope.

(** [export_table(df, name)] ([build_facts.py] 100-115).  It returns the
    frame as the caller holds it afterwards: [sanitize_dataframe] rewrites
    the caller's frame in place. *)
Definition export_table (df : DataFrame) (name : string) : M DataFrame :=
  if df_empty df then
    logging WARNING (name +:+ ": sin filas (no se exporta).") ;;
    emit (ExportReturned name) ;;
    ret df
  else
    df' <- lift (sanitize_dataframe env df) ;;
    write_outputs env name df' ;;
    emit (ExportReturned name) ;;
    ret df'.

(** One target of [main] ([build_facts.py] 232-251 and 253-271: the two
    blocks differ in the names only). *)
Definition fact_cycle (fact_name column : string) (incr_enabled : bool)
    (query_base : string) (ts_cols : list string) : M unit :=
  last_wm <- read_watermark fact_name ;;
  let '(where_clause, params, used_incr) :=
    build_where_incremental fact_name column incr_enabled last_wm in
  let q := str_replace query_base "{where_clause}" where_clause in
  log_fact env fact_name incr_enabled last_wm ;;
  guarded_block env src export_table fact_name q params incr_enabled ts_cols.

Definition cycle_ventas_linea : M unit :=
  fact_cycle "fact_ventas_linea" "o.updated_at"
    (incr_setting env "order_lines" false)
    Q_FACT_VENTAS_LINEA_BASE
    ["fecha_actualizacion_pedido"; "fecha_creacion_pedido"].

Definition cycle_pago : M unit :=
  fact_cycle "fact_pago" "COALESCE(t.updated_at, t.created_at)"
    (incr_setting env "payments" false)
    Q_FACT_PAGO_BASE
    ["updated_at"; "created_at"].

(** [main()] ([build_facts.py] 220-276), from the open connection on; the
    start-up log lines are left out. *)
Definition main : M unit :=
  cycle_ventas_linea ;;
  cycle_pago ;;
  logging INFO "Hechos exportados.".

End Run.

End BuildFacts.

(** ** [build_quotes.py] *)

Module BuildQuotes.

(** [c in cols] for the set of column names of a table *)
Definition mem (c : string) (cols : list string) : bool :=
  existsb (String.eqb c) cols.

(** [pick] ([build_quotes.py] 211-215 and 270-274): the first candidate
    that is a column of the table. *)
Definition pick (cols : list string) (cands : list string) : option string :=
  find (fun c => mem c cols) cands.

(** How an f-string writes an optional name: the name, or [None]. *)
Definition fstr (o : option string) : string :=
  match o with Some s => s | None => "None" end.

(** [a or b] on optional names *)
Definition or_else (a b : option string) : option string :=
  match a with Some _ => a | None => b end.

(** [f"{c} AS alias" if c else "<literal> AS alias"] *)
Definition sel_item (c : option string) (alias literal : string) : string :=
  match c with
  | Some x => x +:+ " AS " +:+ alias
  | None => literal +:+ " AS " +:+ alias
  end.

(** [_make_unique_columns(cols)] ([build_quotes.py] 135-145) *)
Fixpoint make_unique_go (seen : gmap string nat) (cols : list string) : list string :=
  match cols with
  | [] => []
  | c :: rest =>
      match seen !! c with
      | None => c :: make_unique_go (<[c := 0]> seen) rest
      | Some n => (c +:+ "__" +:+ str_nat (S n)) :: make_unique_go (<[c := S n]> seen) rest
      end
  end.

Definition _make_unique_columns (cols : list string) : list string :=
  make_unique_go ∅ cols.

(** [df.columns = names] *)
Definition set_columns (df : DataFrame) (names : list string) : DataFrame :=
  mkDf (df_nrows df) (combine names (map snd (df_columns df))).

(** The select list of [build_query_fact_cotizacion] ([build_quotes.py]
    217-242) for the columns [cols] of [public.oro_sale_quote]. *)
Definition select_fact_cotizacion (cols : list string) : list string :=
  let c_id      := pick cols ["id"] in
  let c_cust    := pick cols ["customer_id"] in
  let c_custusr := pick cols ["customer_user_id"] in
  let c_web     := pick cols ["website_id"] in
  let c_po      := pick cols ["po_number"] in
  let c_curr    := pick cols ["currency"; "base_currency"; "subtotal_currency"; "total_currency"] in
  let c_subtot  := pick cols ["subtotal"; "subtotal_value"; "base_subtotal_value"] in
  let c_total   := pick cols ["total"; "total_value"; "base_total_value"] in
  let c_created := pick cols ["created_at"; "createdat"] in
  let c_updated := pick cols ["updated_at"; "updatedat"] in
  let c_status  := pick cols ["internal_status_name"; "status"; "status_name"] in
  [ sel_item c_id "quote_id" "NULL::bigint";
    sel_item c_cust "customer_id" "NULL::bigint";
    sel_item c_custusr "customer_user_id" "NULL::bigint";
    sel_item c_web "website_id" "NULL::bigint";
    sel_item c_po "po_number" "NULL::text";
    sel_item c_curr "currency_code" "NULL::text";
    sel_item c_subtot "subtotal" "NULL::numeric";
    sel_item c_total "total" "NULL::numeric";
    sel_item c_created "created_at" "NULL::timestamp";
    sel_item c_updated "updated_at" "NULL::timestamp";
    match c_status with
    | Some s => "COALESCE(" +:+ s +:+ ", 'Sin estado') AS estado"
    | None => "'Sin estado'::text AS estado"
    end ].

Definition order_fact_cotizacion (cols : list string) : string :=
  fstr (or_else (pick cols ["updated_at"; "updatedat"])
          (or_else (pick cols ["created_at"; "createdat"]) (pick cols ["id"]))).

(** [build_query_fact_cotizacion(conn)] ([build_quotes.py] 202-254) *)
Definition build_query_fact_cotizacion (src : Source) : Result string :=
  match catalog src "public" "oro_sale_quote" with
  | None => Raise (Exc "RuntimeError" "No existe public.oro_sale_quote")
  | Some cols =>
      Ok (lines [
        "";
        "    SELECT";
        "      " +:+ join ", " (select_fact_cotizacion cols);
        "    FROM public.oro_sale_quote";
        "    {where_clause}";
        "    ORDER BY " +:+ order_fact_cotizacion cols +:+ " NULLS LAST;";
        "    " ])
  end.

(** The join that keeps one request per quote product, the one of least
    id ([build_quotes.py] 307-318). *)
Definition join_min_request (req_qp req_id : string) (qp_id : option string) : string :=
  lines [
    "";
    "            LEFT JOIN (";
    "              SELECT r1.*";
    "              FROM public.oro_sale_quote_prod_request r1";
    "              JOIN (";
    "                SELECT " +:+ req_qp +:+ " AS quote_product_id, MIN(" +:+ req_id +:+ ") AS min_id";
    "                FROM public.oro_sale_quote_prod_request";
    "                GROUP BY " +:+ req_qp;
    "              ) rmin";
    "                ON rmin.quote_product_id = r1." +:+ req_qp +:+ " AND rmin.min_id = r1." +:+ req_id;
    "            ) req ON req." +:+ req_qp +:+ " = qp." +:+ fstr qp_id;
    "            " ].

(** The join that keeps one offer per request, the one of least id
    ([build_quotes.py] 340-351). *)
Definition join_min_offer (off_req off_id : string) (req_id : option string) : string :=
  lines [
    "";
    "            LEFT JOIN (";
    "              SELECT o1.*";
    "              FROM public.oro_sale_quote_prod_offer o1";
    "              JOIN (";
    "                SELECT " +:+ off_req +:+ " AS quote_product_request_id, MIN(" +:+ off_id +:+ ") AS min_id";
    "                FROM public.oro_sale_quote_prod_offer";
    "                GROUP BY " +:+ off_req;
    "              ) omin";
    "                ON omin.quote_product_request_id = o1." +:+ off_req +:+ " AND omin.min_id = o1." +:+ off_id;
    "            ) off ON off." +:+ off_req +:+ " = req." +:+ fstr req_id;
    "            " ].

(** The request part ([build_quotes.py] 298-329): the joins, the select
    items, and [req_id] when the name is bound at all (it is assigned only
    inside [if has_req]). *)
Definition request_part (src : Source) (qp_id qp_unit : option string)
    : list string * list string * option (option string) :=
  match catalog src "public" "oro_sale_quote_prod_request" with
  | Some cols_req =>
      let req_id   := pick cols_req ["id"] in
      let req_qp   := pick cols_req ["quote_product_id"] in
      let req_qty  := pick cols_req ["quantity"; "qty"] in
      let req_unit := pick cols_req ["product_unit_code"; "unit_code"; "product_unit"] in
      match req_qp, req_id with
      | Some rqp, Some rid =>
          ([join_min_request rqp rid qp_id],
           ["req." +:+ rid +:+ " AS request_id";
            match req_qty with
            | Some q => "req." +:+ q +:+ " AS quantity"
            | None => "NULL::numeric AS quantity"
            end]
           ++ match req_unit, qp_unit with
              | Some u, None => ["req." +:+ u +:+ " AS product_unit"]
              | _, _ => []
              end,
           Some req_id)
      | _, _ => ([], ["NULL::bigint AS request_id"; "NULL::numeric AS quantity"], Some req_id)
      end
  | None => ([], ["NULL::bigint AS request_id"; "NULL::numeric AS quantity"], None)
  end.

(** The offer part ([build_quotes.py] 331-362).  Its join names [req_id]:
    when that name was never bound the f-string raises. *)
Definition offer_part (src : Source) (req_id : option (option string))
    : Result (list string * list string) :=
  match catalog src "public" "oro_sale_quote_prod_offer" with
  | Some cols_off =>
      let off_id    := pick cols_off ["id"] in
      let off_req   := pick cols_off ["quote_product_request_id"] in
      let off_price := pick cols_off ["price"; "value"; "amount"] in
      let off_curr  := pick cols_off ["currency"; "price_currency"] in
      match off_req, off_id with
      | Some orq, Some oid =>
          match req_id with
          | None => Raise (Exc "UnboundLocalError" "local variable 'req_id' referenced before assignment")
          | Some rid =>
              Ok ([join_min_offer orq oid rid],
                  ["off." +:+ oid +:+ " AS offer_id";
                   match off_price with
                   | Some p => "off." +:+ p +:+ " AS price"
                   | None => "NULL::numeric AS price"
                   end;
                   match off_curr with
                   | Some c => "off." +:+ c +:+ " AS currency_code"
                   | None => "NULL::text AS currency_code"
                   end])
          end
      | _, _ => Ok ([], ["NULL::bigint AS offer_id"; "NULL::numeric AS price"; "NULL::text AS currency_code"])
      end
  | None => Ok ([], ["NULL::bigint AS offer_id"; "NULL::numeric AS price"; "NULL::text AS currency_code"])
  end.

(** The timestamp part ([build_quotes.py] 366-381): the join to the quote
    header, the where-clause slot and the ordering expression. *)
Definition timestamp_part (src : Source) (qp_id qp_quote : option string)
    : list string * string * string :=
  let by_id := "qp." +:+ match qp_id with Some i => i | None => "id" end in
  match catalog src "public" "oro_sale_quote" with
  | Some cols_sq =>
      let c_created := if mem "created_at" cols_sq then Some "created_at" else None in
      let c_updated := if mem "updated_at" cols_sq then Some "updated_at" else None in
      match or_else c_updated c_created with
      | Some _ =>
          (["LEFT JOIN public.oro_sale_quote sq ON sq.id = qp."
              +:+ match qp_quote with Some q => q | None => "quote_id" end],
           "{where_clause_ts}",
           "COALESCE(sq." +:+ fstr (or_else c_updated c_created) +:+ ", sq."
              +:+ fstr (or_else c_created c_updated) +:+ ")")
      | None => ([], "", by_id)
      end
  | None => ([], "", by_id)
  end.

(** [build_query_fact_cotizacion_linea(conn)] ([build_quotes.py] 259-391) *)
Definition build_query_fact_cotizacion_linea (src : Source) : Result string :=
  match catalog src "public" "oro_sale_quote_product" with
  | None => Raise (Exc "RuntimeError" "No existe public.oro_sale_quote_product")
  | Some cols_qp =>
      let qp_id    := pick cols_qp ["id"] in
      let qp_quote := pick cols_qp ["quote_id"] in
      let qp_prod  := pick cols_qp ["product_id"] in
      let qp_sku   := pick cols_qp ["product_sku"; "sku"] in
      let qp_unit  := pick cols_qp ["product_unit_code"; "unit_code"; "product_unit"] in
      let base_sel :=
        [ match qp_quote with Some c => "qp." +:+ c +:+ " AS quote_id" | None => "NULL::bigint AS quote_id" end;
          match qp_id with Some c => "qp." +:+ c +:+ " AS quote_product_id"
                         | None => "ROW_NUMBER() OVER()::bigint AS quote_product_id" end;
          match qp_prod with Some c => "qp." +:+ c +:+ " AS product_id" | None => "NULL::bigint AS product_id" end;
          match qp_sku with Some c => "qp." +:+ c +:+ " AS sku" | None => "NULL::text AS sku" end;
          match qp_unit with Some c => "qp." +:+ c +:+ " AS product_unit" | None => "NULL::text AS product_unit" end ] in
      let '(joins_req, sel_req, req_id) := request_part src qp_id qp_unit in
      match offer_part src req_id with
      | Raise e => Raise e
      | Ok (joins_off, sel_off) =>
          let '(joins_ts, where_clause, order_expr) := timestamp_part src qp_id qp_quote in
          Ok (lines [
            "";
            "    SELECT";
            "      " +:+ join ", " (base_sel ++ sel_req ++ sel_off);
            "    FROM public.oro_sale_quote_product qp";
            "    " +:+ join " " (joins_req ++ joins_off ++ joins_ts);
            "    " +:+ where_clause;
            "    ORDER BY " +:+ order_expr +:+ " NULLS LAST;";
            "    " ])
      end
  end.

(** [build_where_incremental(column_sql, incr_enabled, last_wm)]
    ([build_quotes.py] 396-403) *)
Definition build_where_incremental (column_sql : string) (incr_enabled : bool)
    (last_wm : PyVal) : string * Params * bool :=
  if incr_enabled && truthy last_wm then
    ("WHERE " +:+ column_sql +:+ " > %(wm)s", Some [("wm", last_wm)], true)
  else if incr_enabled && negb (truthy last_wm) then
    ("", None, false)
  else
    ("", None, false).

(** [needle in s] *)
Fixpoint str_contains (needle s : string) : bool :=
  starts_with needle s ||
  match s with
  | EmptyString => false
  | String _ r => str_contains needle r
  end.

(** The settings the start of [main()] logs and connects with
    ([build_quotes.py] 46-47 and 72-76), and what [psycopg2.connect] does
    with them: the exception, if the connection fails. *)
Record Session : Type := mkSession {
  DB_USER : string;
  DB_HOST : string;
  DB_PORT : Z;
  DB_NAME : string;
  SCHEMA_DESTINO : string;
  SOURCE_SCHEMAS : list string;
  connect_raises : option PyExc
}.

Section Run.
Context (env : Env) (src : Source).
Local Open Scope py_scope.

(** [INCR_QUOTES = bool(INCR_CFG.get("quotes", True))] *)
Definition INCR_QUOTES : bool := incr_setting env "quotes" true.

(** [export_table(df, name)] ([build_quotes.py] 148-168): it works on a
    copy, so the caller's frame stays as it was. *)
Definition export_table (df : DataFrame) (name : string) : M DataFrame :=
  if df_empty df then
    logging WARNING (name +:+ ": sin filas (no se exporta).") ;;
    emit (ExportReturned name) ;;
    ret df
  else
    let df1 := set_columns df (_make_unique_columns (column_names df)) in
    df2 <- lift (sanitize_dataframe env df1) ;;
    write_outputs env name df2 ;;
    emit (ExportReturned name) ;;
    ret df.

(** The header target ([build_quotes.py] 420-444); the query is built
    outside the [try]. *)
Definition cycle_cotizacion : M unit :=
  let fact_name := "fact_cotizacion" in
  last_wm <- read_watermark fact_name ;;
  q_head <- lift (build_query_fact_cotizacion src) ;;
  let '(where_clause, params, _) :=
    build_where_incremental "COALESCE(updated_at, created_at)" INCR_QUOTES last_wm in
  let q_head := str_replace q_head "{where_clause}" where_clause in
  log_fact env fact_name INCR_QUOTES last_wm ;;
  guarded_block env src export_table fact_name q_head params INCR_QUOTES
    ["updated_at"; "created_at"].

(** The lines target ([build_quotes.py] 446-470) *)
Definition cycle_cotizacion_linea : M unit :=
  let fact_name := "fact_cotizacion_linea" in
  last_wm <- read_watermark fact_name ;;
  q_lines <- lift (build_query_fact_cotizacion_linea src) ;;
  let '(q_lines_effective, params) :=
    if str_contains "{where_clause_ts}" q_lines then
      let '(where_clause, params, _) :=
        build_where_incremental "COALESCE(sq.updated_at, sq.created_at)" INCR_QUOTES last_wm in
      (str_replace q_lines "{where_clause_ts}" where_clause, params)
    else (q_lines, None) in
  log_fact env fact_name INCR_QUOTES last_wm ;;
  guarded_block env src export_table fact_name q_lines_effective params INCR_QUOTES
    ["sq.updated_at"; "sq.created_at"; "updated_at"; "created_at"].

(** The targets of [main()] ([build_quotes.py] 420-472): what [main()]
    does once the connection is open and the search path is set; the
    lines before are [startup]. *)
Definition main : M unit :=
  cycle_cotizacion ;;
  cycle_cotizacion_linea ;;
  logging INFO "Hechos de cotización exportados.".

(** [set_search_path(cur, schema_destino, source_schemas)]
    ([build_quotes.py] 87-89): one [cur.execute]; what the database answers
    is dropped, a statement it refuses raises. *)
Definition set_search_path (schema_destino : string) (source_schemas : list string) : M unit :=
  let stmt := "SET search_path = " +:+ join ", " (schema_destino :: source_schemas) +:+ ";" in
  emit (Executed stmt None) ;;
  _ <- lift (execute src stmt None) ;;
  ret tt.

(** [conn = open_connection()] ([build_quotes.py] 80-85) *)
Definition open_connection (ses : Session) : M unit :=
  match connect_raises ses with
  | Some e => raise e
  | None => ret tt
  end.

(** The start of [main()] ([build_quotes.py] 409-418): four log lines,
    the connection and the search path.  Nothing catches what the
    connection or the statement raises. *)
Definition startup (ses : Session) : M unit :=
  logging INFO ("Destino: " +:+ DB_USER ses +:+ "@" +:+ DB_HOST ses +:+ ":"
                  +:+ str_int (DB_PORT ses) +:+ "/" +:+ DB_NAME ses) ;;
  logging INFO ("Schema destino: " +:+ SCHEMA_DESTINO ses +:+ " | Sources: "
                  +:+ join ", " (SOURCE_SCHEMAS ses)) ;;
  logging INFO ("Exportar parquet=" +:+ py_str env (PBool (EXPORTAR_PARQUET env))
                  +:+ " csv=" +:+ py_str env (PBool (EXPORTAR_CSV env))) ;;
  logging INFO ("Incremental quotes=" +:+ py_str env (PBool INCR_QUOTES)) ;;
  open_connection ses ;;
  set_search_path (SCHEMA_DESTINO ses) (SOURCE_SCHEMAS ses).

(** [main()] ([build_quotes.py] 408-475) from its first line: the start,
    then the targets.  The closing of the connection in [finally] changes
    nothing of the world. *)
Definition main_from_start (ses : Session) : M unit :=
  startup ses ;;
  main.

End Run.

End BuildQuotes.

(** ** [build_inventory_snapshot.py] *)

Module BuildInventorySnapshot.

(** [pick(colnames, candidates)] ([build_inventory_snapshot.py] 87-92) *)
Definition pick (colnames candidates : list string) : option string :=
  find (fun c => existsb (String.eqb c) colnames) candidates.

(** What [build_snapshot] assigns to a column of [out]: a scalar, a source
    column, or a numeric derivation of those.  The cell values are pandas'
    business; the column and where it comes from are the script's.  A
    [Sub] or an [Add] is the assignment as the script writes it inside its
    [try]: the column the arithmetic gives, and [None] in its place should
    pandas raise on it. *)
Inductive ColExpr : Type :=
| Scalar (v : PyVal)
| SrcCol (c : string)
| ToNumeric (e : ColExpr)
| Sub (a b : ColExpr)
| Add (a b : ColExpr).

Definition Out : Type := list (string * ColExpr).

Definition has_column (out : Out) (name : string) : bool :=
  existsb (fun col => String.eqb (fst col) name) out.

(** [out[name] = e] *)
Fixpoint setitem (out : Out) (name : string) (e : ColExpr) : Out :=
  match out with
  | [] => [(name, e)]
  | (n, e') :: rest =>
      if String.eqb n name then (n, e) :: rest else (n, e') :: setitem rest name e
  end.

(** [out[name]]; a missing name is pandas' [KeyError]. *)
Definition getitem (out : Out) (name : string) : Result ColExpr :=
  match find (fun col => String.eqb (fst col) name) out with
  | Some col => Ok (snd col)
  | None => Raise (Exc "KeyError" name)
  end.

(** [out[names]] *)
Fixpoint select (out : Out) (names : list string) : Result Out :=
  match names with
  | [] => Ok []
  | n :: rest =>
      match getitem out n, select out rest with
      | Ok e, Ok cols => Ok ((n, e) :: cols)
      | Raise e, _ => Raise e
      | _, Raise e => Raise e
      end
  end.

Definition ordered : list string :=
  ["fecha_snapshot"; "product_id"; "almacen_id";
   "stock_disponible"; "stock_reservado"; "stock_total"; "unidad"].

(** [to_numeric_safe(df_src.get(col)) if col else None] *)
Definition numeric_of (col : option string) : option ColExpr :=
  match col with
  | Some c => Some (ToNumeric (SrcCol c))
  | None => None
  end.

Definition expr_of (r : Result ColExpr) : ColExpr :=
  match r with Ok e => e | Raise _ => Scalar PNone end.

(** [build_snapshot(df_src, fecha_snapshot)] ([build_inventory_snapshot.py]
    139-223), on the column names [cols] of the source frame: the columns
    of the frame it returns, in order. *)
Definition build_snapshot (cols : list string) (fecha_snapshot : PyVal) : Result Out :=
  let product_col   := pick cols ["product_id"; "product"; "productid"; "producto_id"] in
  let warehouse_col := pick cols ["warehouse_id"; "warehouse"; "warehouseid"; "almacen_id";
                                  "source_warehouse_id"] in
  let disp_col := pick cols ["stock_disponible"; "available_qty"; "available_quantity"; "on_hand";
                             "onhand"; "quantity"; "qty"; "inventory_qty"] in
  let total_col := pick cols ["stock_total"; "total_qty"; "total_quantity"; "cantidad_total"] in
  let resv_col := pick cols ["stock_reservado"; "reserved_qty"; "reserved_quantity";
                             "allocated_qty"; "asignado"] in
  let unit_col := pick cols ["product_unit"; "unit"; "unidad"; "product_unit_code"] in
  let out := setitem [] "fecha_snapshot" (Scalar fecha_snapshot) in
  match product_col with
  | None =>
      Raise (Exc "ValueError"
               "La vista 'oro_inventory_level_granular' no expone 'product_id' (o equivalente).")
  | Some pc =>
      let out := setitem out "product_id" (SrcCol pc) in
      let out := setitem out "almacen_id"
                   (match warehouse_col with Some wc => SrcCol wc | None => Scalar PNone end) in
      let disp := numeric_of disp_col in
      let total := numeric_of total_col in
      let resv := numeric_of resv_col in
      let out := setitem out "stock_disponible"
                   (match disp, total, resv with
                    | Some d, _, _ => d
                    | None, Some t, Some r => Sub t r
                    | None, _, _ => Scalar PNone
                    end) in
      let out := setitem out "stock_reservado"
                   (match resv, total with
                    | Some r, _ => r
                    | None, Some t =>
                        if has_column out "stock_disponible"
                        then Sub t (expr_of (getitem out "stock_disponible"))
                        else Scalar PNone
                    | None, None => Scalar PNone
                    end) in
      let out := setitem out "stock_total"
                   (match total with
                    | Some t => t
                    | None =>
                        if has_column out "stock_disponible" && has_column out "stock_reservado"
                        then Add (ToNumeric (expr_of (getitem out "stock_disponible")))
                                 (ToNumeric (expr_of (getitem out "stock_reservado")))
                        else Scalar PNone
                    end) in
      let out := setitem out "unidad"
                   (match unit_col with Some uc => SrcCol uc | None => Scalar PNone end) in
      let extras := List.filter (fun c => negb (existsb (String.eqb c) ordered)) cols in
      match select out ordered with
      | Ok cols_out => Ok (cols_out ++ map (fun c => (c, SrcCol c)) extras)
      | Raise e => Raise e
      end
  end.

End BuildInventorySnapshot.

(** ** The minimum-id joins as SQL

    The two joins [build_query_fact_cotizacion_linea] writes have one
    shape: the detail table grouped by a key with an aggregate of a
    column, joined back to the detail table on the key and on the
    aggregate, and the rows that are left hooked by [LEFT JOIN] to the
    relation before it.  [MinJoin] is that shape, with each name the text
    holds; [render] writes it as the script does and [eval] runs it on
    tables, the way the database does: a name that is no column of its
    table is refused, a comparison with NULL is not true, an aggregate
    skips the NULLs, and [GROUP BY] puts the NULL keys in one group. *)

Module Sql.

Inductive Agg : Type := Min | Max.

Definition agg_name (a : Agg) : string :=
  match a with
  | Min => "MIN"
  | Max => "MAX"
  end.

Record MinJoin : Type := mkMinJoin {
  table : string;          (* the detail table, in both [FROM] *)
  row_alias : string;      (* its alias in the join back: [r1], [o1] *)
  group_key : string;      (* the column of the inner [SELECT] and of [GROUP BY] *)
  key_alias : string;      (* the name the inner [SELECT] gives it *)
  agg : Agg;               (* the aggregate *)
  agg_column : string;     (* the column it is taken of *)
  grouped_alias : string;  (* the alias of the grouped subquery: [rmin], [omin] *)
  back_key : string;       (* the detail column compared with the key *)
  back_id : string;        (* the detail column compared with the aggregate *)
  child_alias : string;    (* the alias of the whole subquery: [req], [off] *)
  child_key : string;      (* its column in the outer [ON] *)
  parent_alias : string;   (* the relation the join is hooked to: [qp], [req] *)
  parent_key : string      (* the column of that relation in the outer [ON] *)
}.

(** The text of the join, line by line as the script writes it. *)
Definition render (j : MinJoin) : string :=
  lines [
    "";
    "            LEFT JOIN (";
    "              SELECT " +:+ row_alias j +:+ ".*";
    "              FROM " +:+ table j +:+ " " +:+ row_alias j;
    "              JOIN (";
    "                SELECT " +:+ group_key j +:+ " AS " +:+ key_alias j +:+ ", "
       +:+ agg_name (agg j) +:+ "(" +:+ agg_column j +:+ ") AS min_id";
    "                FROM " +:+ table j;
    "                GROUP BY " +:+ group_key j;
    "              ) " +:+ grouped_alias j;
    "                ON " +:+ grouped_alias j +:+ "." +:+ key_alias j +:+ " = "
       +:+ row_alias j +:+ "." +:+ back_key j
       +:+ " AND " +:+ grouped_alias j +:+ ".min_id = " +:+ row_alias j +:+ "." +:+ back_id j;
    "            ) " +:+ child_alias j +:+ " ON " +:+ child_alias j +:+ "." +:+ child_key j
       +:+ " = " +:+ parent_alias j +:+ "." +:+ parent_key j;
    "            " ].

(** A row gives each column an integer or NULL; a table has its column
    names and its rows; a database has its tables by name. *)
Definition Row : Type := string -> option Z.

Record Table : Type := mkTable {
  columns : list string;
  rows : list Row
}.

Definition Database : Type := string -> option Table.

Definition has_column (t : Table) (c : string) : bool :=
  existsb (String.eqb c) (columns t).

(** [a = b] in SQL: not true when either side is NULL. *)
Definition sql_eqb (a b : option Z) : bool :=
  match a, b with
  | Some x, Some y => Z.eqb x y
  | _, _ => false
  end.

(** Two grouping keys fall in one group. *)
Definition same_group (a b : option Z) : bool :=
  match a, b with
  | Some x, Some y => Z.eqb x y
  | None, None => true
  | _, _ => false
  end.

(** The distinct grouping keys, in order of first appearance. *)
Fixpoint group_keys (keys : list (option Z)) : list (option Z) :=
  match keys with
  | [] => []
  | k :: rest => k :: List.filter (fun k' => negb (same_group k k')) (group_keys rest)
  end.

Definition agg2 (a : Agg) (x y : Z) : Z :=
  match a with
  | Min => Z.min x y
  | Max => Z.max x y
  end.

(** [MIN(c)] or [MAX(c)] over a group: of the values that are not NULL,
    and NULL when there is none. *)
Fixpoint aggregate (a : Agg) (vals : list (option Z)) : option Z :=
  match vals with
  | [] => None
  | None :: rest => aggregate a rest
  | Some x :: rest =>
      match aggregate a rest with
      | Some m => Some (agg2 a x m)
      | None => Some x
      end
  end.

(** [SELECT key AS k, AGG(c) AS min_id FROM t GROUP BY key] *)
Definition grouped (j : MinJoin) (t : Table) : list (option Z * option Z) :=
  map (fun k =>
         (k, aggregate (agg j)
               (map (fun r : Row => r (agg_column j))
                    (List.filter (fun r : Row => same_group (r (group_key j)) k) (rows t)))))
      (group_keys (map (fun r : Row => r (group_key j)) (rows t))).

(** [SELECT r1.* FROM t r1 JOIN (...) g ON g.k = r1.back_key AND
    g.min_id = r1.back_id]: a row of [t] once per matching group. *)
Definition picked (j : MinJoin) (t : Table) : list Row :=
  flat_map
    (fun r1 : Row =>
       map (fun _ => r1)
           (List.filter (fun g => sql_eqb (fst g) (r1 (back_key j))
                                  && sql_eqb (snd g) (r1 (back_id j)))
                        (grouped j t)))
    (rows t).

(** [parents LEFT JOIN (...) c ON c.child_key = p.parent_key]: every row
    of [parents], once per matching row of the subquery, or once with
    NULL child fields.  [None]: the database refuses the join, for the
    table or a column it names does not exist. *)
Definition eval (j : MinJoin) (db : Database) (parents : Table)
    : option (list (Row * option Row)) :=
  match db (table j) with
  | None => None
  | Some t =>
      if forallb (has_column t)
           [group_key j; agg_column j; back_key j; back_id j; child_key j]
         && has_column parents (parent_key j)
      then
        Some (flat_map
                (fun p : Row =>
                   match List.filter (fun r : Row => sql_eqb (r (child_key j)) (p (parent_key j)))
                                     (picked j t) with
                   | [] => [(p, None)]
                   | matches => map (fun r => (p, Some r)) matches
                   end)
                (rows parents))
      else None
  end.

End Sql.

(** ** The join on keyed rows

    What [Sql.picked] comes to on a table whose ids are never NULL, with
    the rows as any type that has an id and a nullable parent key. *)

Module MinIdJoin.

Section Join.
Context {C : Type}.
Context (child_id : C -> Z) (child_parent : C -> option Z).

(** [a = b] in SQL, on a nullable [a] and a key [b]. *)
Definition sql_eq (a : option Z) (b : Z) : bool :=
  match a with
  | Some x => Z.eqb x b
  | None => false
  end.

(** Two grouping keys fall in one group. *)
Definition same_group (a b : option Z) : bool :=
  match a, b with
  | Some x, Some y => Z.eqb x y
  | None, None => true
  | _, _ => false
  end.

(** The distinct grouping keys, in order of first appearance. *)
Fixpoint group_keys (keys : list (option Z)) : list (option Z) :=
  match keys with
  | [] => []
  | k :: rest => k :: List.filter (fun k' => negb (same_group k k')) (group_keys rest)
  end.

(** [MIN(id)] over a group. *)
Fixpoint min_id (l : list C) : option Z :=
  match l with
  | [] => None
  | c :: rest =>
      match min_id rest with
      | Some m => Some (Z.min (child_id c) m)
      | None => Some (child_id c)
      end
  end.

(** [SELECT parent AS key, MIN(id) AS min_id FROM children GROUP BY parent] *)
Definition rmin (children : list C) : list (option Z * option Z) :=
  map (fun k => (k, min_id (List.filter (fun c => same_group (child_parent c) k) children)))
      (group_keys (map child_parent children)).

(** [SELECT r1.* FROM children r1 JOIN rmin ON rmin.key = r1.parent AND
    rmin.min_id = r1.id]: one row per matching pair. *)
Definition min_children (children : list C) : list C :=
  flat_map
    (fun r1 =>
       map (fun _ => r1)
           (List.filter (fun g => match fst g with
                             | Some k => sql_eq (child_parent r1) k
                             | None => false
                             end
                             && sql_eq (snd g) (child_id r1))
                   (rmin children)))
    children.

(** The child of least id in a list, as the property names it. *)
Fixpoint least_child (l : list C) : option C :=
  match l with
  | [] => None
  | c :: rest =>
      match least_child rest with
      | Some m => if Z.leb (child_id c) (child_id m) then Some c else Some m
      | None => Some c
      end
  end.

Definition children_of (k : Z) (children : list C) : list C :=
  List.filter (fun c => sql_eq (child_parent c) k) children.

(** A child whose id is the least of its group. *)
Definition is_least (children : list C) (r : C) : bool :=
  match child_parent r with
  | Some k => sql_eq (min_id (children_of k children)) (child_id r)
  | None => false
  end.

End Join.

End MinIdJoin.

(** ** What the properties speak about

    The meaning of the incremental where-clause for the database, the
    timestamp a row is compared by, the order of watermarks, and the
    watermarks a run wrote. *)

(** [s] ends with [suffix]. *)
Fixpoint ends_with (suffix s : string) : bool :=
  String.eqb s suffix ||
  match s with
  | EmptyString => false
  | String _ r => ends_with suffix r
  end.

(** The clause compares a column with the bound watermark by [>]. *)
Definition strict_predicate (where_clause : string) : bool :=
  starts_with "WHERE " where_clause && ends_with " > %(wm)s" where_clause.

(** Whether the database returns a row whose compared column holds
    [column_value] (NULL is [None]) under [where_clause] and [params]: no
    clause keeps every row; [column > %(wm)s] keeps the rows whose value is
    later than the watermark, read as a timestamp; a comparison with NULL
    is not true. *)
Definition where_admits (where_clause : string) (params : Params)
    (column_value : option Timestamp) : bool :=
  if String.eqb where_clause "" then true
  else if strict_predicate where_clause then
    match params with
    | Some [(name, PStr wm)] =>
        String.eqb name "wm" &&
        match column_value, parse_watermark wm with
        | Some t, Some w => ts_ltb w t
        | _, _ => false
        end
    | _ => false
    end
  else false.

Definition cell_ts (v : PyVal) : option Timestamp :=
  match v with
  | PTimestamp t => Some t
  | _ => None
  end.

(** [COALESCE] of the timestamp columns [cols] in row [i] of a frame: the
    first of them that is not NULL there. *)
Fixpoint row_ts (df : DataFrame) (cols : list string) (i : nat) : option Timestamp :=
  match cols with
  | [] => None
  | c :: rest =>
      match columns_named df c with
      | cells :: _ =>
          match nth_error cells i with
          | Some (PTimestamp t) => Some t
          | _ => row_ts df rest i
          end
      | [] => row_ts df rest i
      end
  end.

(** Cells that are timestamps or NULL. *)
Definition timestamp_cells (cells : list PyVal) : Prop :=
  forall v, In v cells -> v = PNone \/ exists t, v = PTimestamp t /\ valid_ts t.

(** The columns [cols] of the frame hold timestamps (of the range pandas
    renders with a four-digit year) or NULL, as the columns of a timestamp
    type do. *)
Definition timestamp_columns (df : DataFrame) (cols : list string) : Prop :=
  forall c cells v,
    In c cols -> In (c, cells) (df_columns df) -> In v cells ->
    v = PNone \/ exists t, v = PTimestamp t /\ valid_ts t.

(** The database answers the query [q], made with [where_clause] and run
    with [params], with well-formed frames whose timestamp columns hold
    timestamps and whose rows all pass the clause.  It speaks of this one
    query: what the database does with any other is left open. *)
Definition answers_where (src : Source) (q where_clause : string) (params : Params)
    (ts_cols : list string) : Prop :=
  forall df,
    execute src q params = Ok df ->
    df_wf df /\
    timestamp_columns df ts_cols /\
    forall i, i < df_nrows df ->
      where_admits where_clause params (row_ts df ts_cols i) = true.

(** [w1 <= w2] for watermarks, as the timestamps they write. *)
Definition wm_le (w1 w2 : string) : bool :=
  match parse_watermark w1, parse_watermark w2 with
  | Some a, Some b => ts_leb a b
  | _, _ => false
  end.

(** The watermarks written for [fact] among the events [evs]. *)
Definition watermarks_written (fact : string) (evs : list Event) : list string :=
  omap (fun ev => match ev with
                  | WatermarkWritten f wm => if String.eqb f fact then Some wm else None
                  | _ => None
                  end) evs.

(** What [read_watermark] returns for [fact] in the world [w]. *)
Definition stored_watermark (fact : string) (w : World) : PyVal :=
  match fst (read_watermark fact w) with
  | Ok v => v
  | Raise _ => PNone
  end.

(** The world after [evs] were added to its history. *)
Definition add_events (w : World) (evs : list Event) : World :=
  mkWorld (state_dir w) (parquet_dir w) (csv_dir w) (history w ++ evs).

(** The events a run added to the history. *)
Definition events_since (w w' : World) : list Event :=
  drop (length (history w)) (history w').

(** The number of times [c] stands in [l]. *)
Definition occurrences (c : string) (l : list string) : nat :=
  length (List.filter (String.eqb c) l).

(** The name [_make_unique_columns] gives a column that [k] equal names
    precede. *)
Definition deduplicated_name (c : string) (k : nat) : string :=
  match k with
  | O => c
  | S _ => c +:+ "__" +:+ str_nat k
  end.

(** [seen] is the dictionary of [_make_unique_columns] after the names
    [pre] were handled. *)
Definition seen_after (seen : gmap string nat) (pre : list string) : Prop :=
  forall c, seen !! c = match occurrences c pre with
                        | O => None
                        | S n => Some n
                        end.

(** The Candidate Column Mapping of the quote header, read off
    [build_query_fact_cotizacion]: the logical column, its candidates in
    order, and the type of the NULL placeholder.  The eleventh column,
    [estado], has a default text instead of a placeholder. *)
Definition fact_cotizacion_mapping : list (string * list string * string) :=
  [ ("quote_id", ["id"], "bigint");
    ("customer_id", ["customer_id"], "bigint");
    ("customer_user_id", ["customer_user_id"], "bigint");
    ("website_id", ["website_id"], "bigint");
    ("po_number", ["po_number"], "text");
    ("currency_code", ["currency"; "base_currency"; "subtotal_currency"; "total_currency"], "text");
    ("subtotal", ["subtotal"; "subtotal_value"; "base_subtotal_value"], "numeric");
    ("total", ["total"; "total_value"; "base_total_value"], "numeric");
    ("created_at", ["created_at"; "createdat"], "timestamp");
    ("updated_at", ["updated_at"; "updatedat"], "timestamp") ].

Definition estado_candidates : list string :=
  ["internal_status_name"; "status"; "status_name"].

(** The logical columns of the quote header, in order. *)
Definition fact_cotizacion_columns : list string :=
  map (fun m => fst (fst m)) fact_cotizacion_mapping ++ ["estado"].

(** A select item that is a typed NULL under the alias [alias]. *)
Definition is_null_item (alias item : string) : bool :=
  starts_with "NULL::" item && ends_with (" AS " +:+ alias) item.

(** No candidate is a column of the table. *)
Definition unresolved (cols cands : list string) : Prop :=
  forall c, In c cands -> ~ In c cols.

(** *** The two joins of the lines query

    The joins [join_min_request] and [join_min_offer] write, read as
    [Sql.MinJoin]: the names are those of the text, the parent column is
    what the f-string makes of [qp_id] and [req_id], the text [None] when
    the column was not found. *)

Definition request_join (req_qp req_id : string) (qp_id : option string) : Sql.MinJoin :=
  Sql.mkMinJoin "public.oro_sale_quote_prod_request" "r1" req_qp "quote_product_id"
    Sql.Min req_id "rmin" req_qp req_id "req" req_qp "qp" (BuildQuotes.fstr qp_id).

Definition offer_join (off_req off_id : string) (req_id : option string) : Sql.MinJoin :=
  Sql.mkMinJoin "public.oro_sale_quote_prod_offer" "o1" off_req "quote_product_request_id"
    Sql.Min off_id "omin" off_req off_id "off" off_req "req" (BuildQuotes.fstr req_id).

(** The id of a row whose id is not NULL. *)
Definition row_id (id : string) (r : Sql.Row) : Z :=
  match r id with
  | Some z => z
  | None => 0%Z
  end.

(** *** JSON-native values

    The values [json.loads] gives back as they went into [json.dumps]:
    [None], booleans, integers, floats, strings, lists, and dictionaries
    with distinct string keys.  A tuple is written as a list and read as
    one, a key that is not a string is read as a string, a timestamp is
    not serializable. *)

(** The literal of a finite float: a JSON number with a fraction or an
    exponent, and nothing after it, such as [19.99], [-0.5] or [1e+16],
    which is how Python writes a finite float. *)
Definition float_literal (lit : string) : bool :=
  match Json.scan_number (Json.chars lit) with
  | Some (PFloat l, []) => String.eqb l lit
  | _ => false
  end.

(** The floats that are equal to what is read back of them: the finite
    ones and the two infinities.  [NaN] is written and read as well, but
    it is not equal to itself. *)
Definition float_native (lit : string) : bool :=
  float_literal lit || String.eqb lit "Infinity" || String.eqb lit "-Infinity".

Definition is_str (v : PyVal) : bool :=
  match v with PStr _ => true | _ => false end.

Fixpoint distinct_keys (kvs : list (PyVal * PyVal)) : bool :=
  match kvs with
  | [] => true
  | (k, _) :: rest =>
      negb (existsb (fun kv => match k with
                               | PStr s => Json.key_is s (fst kv)
                               | _ => false
                               end) rest)
      && distinct_keys rest
  end.

Fixpoint json_native (v : PyVal) : bool :=
  match v with
  | PNone | PBool _ | PInt _ | PStr _ => true
  | PFloat lit => float_native lit
  | PTimestamp _ | PTuple _ => false
  | PList l => forallb json_native l
  | PDict kvs =>
      forallb (fun kv => is_str (fst kv) && json_native (snd kv)) kvs
      && distinct_keys kvs
  end.

(** A dictionary as it is read back: every key the encoder accepts (a
    string, an integer, a float, a boolean or [None]) stands as the text
    the encoder wrote for it. *)
Definition stringify_keys (kvs : list (PyVal * PyVal)) : list (PyVal * PyVal) :=
  map (fun kv => (match Json.key_text (fst kv) with
                  | Some s => PStr s
                  | None => fst kv
                  end, snd kv)) kvs.

(** The calls of the decoder a value takes: one for the value and one for
    each place in a list or a dictionary. *)
Fixpoint decode_calls (v : PyVal) : nat :=
  match v with
  | PList l | PTuple l => S (list_sum (map (fun x => S (decode_calls x)) l))
  | PDict kvs => S (list_sum (map (fun kv => S (decode_calls (snd kv))) kvs))
  | _ => 1
  end.

(** A text that starts a JSON value: its first character is no blank and
    closes no array. *)
Definition starts_value (t : Json.Text) : bool :=
  match t with
  | c :: _ => negb (Json.is_ws c) && negb (Ascii.eqb c "]")
  | [] => false
  end.

(** A text that may follow a number literal: it does not go on with a
    digit, a fraction or an exponent. *)
Definition ends_number (rest : Json.Text) : bool :=
  match rest with
  | c :: _ => negb (is_digit c) && negb (Ascii.eqb c ".")
              && negb (Ascii.eqb c "e") && negb (Ascii.eqb c "E")
  | [] => true
  end.

(** The decoder reads back what the encoder wrote of [v], whatever
    follows it: the induction behind the round trip. *)
Definition reads_back (v : PyVal) : Prop :=
  json_native v = true ->
  forall lvl t,
    Json.dumps_at None lvl v = Some t ->
    starts_value t = true /\
    decode_calls v <= length t /\
    forall fuel rest,
      decode_calls v <= fuel ->
      ends_number rest = true ->
      Json.scan_once fuel (t ++ rest) = Some (v, rest).

(** The pairs the decoder collects for a dictionary with string keys. *)
Definition pairs_of (kvs : list (PyVal * PyVal)) : list (string * PyVal) :=
  map (fun kv => (match fst kv with PStr s => s | _ => EmptyString end, snd kv)) kvs.

(** *** Runs and their traces *)

(** The settings when [settings.yaml] gives none: parquet on, csv off, no
    incremental key; the library calls refuse every cell they are not
    certain of and the writers do not fail. *)
Definition default_env : Env :=
  mkEnv (fun _ => EmptyString) (fun _ => None) (fun _ _ => None) (fun _ _ => None)
        true false "data/outputs/parquet" "data/outputs/csv" ∅.

(** The text [write_watermark] puts in the state file. *)
Definition watermark_file (wm : string) : string :=
  match Json.dumps_indent 2 (PDict [(PStr "watermark", PStr wm)]) with
  | Ok txt => txt
  | Raise _ => EmptyString
  end.

(** An event that neither writes a watermark nor logs an error. *)
Definition quiet_event (ev : Event) : bool :=
  match ev with
  | WatermarkWritten _ _ => false
  | Log ERROR _ => false
  | _ => true
  end.

Definition is_export_returned (fact : string) (ev : Event) : bool :=
  match ev with
  | ExportReturned name => String.eqb name fact
  | _ => false
  end.

(** Every write of the watermark of [fact] in [evs] stands after a return
    of [export_table] for [fact] ([exported]: one was seen before [evs]). *)
Fixpoint commit_follows_export (fact : string) (exported : bool) (evs : list Event) : bool :=
  match evs with
  | [] => true
  | ev :: rest =>
      match ev with
      | WatermarkWritten f _ => negb (String.eqb f fact) || exported
      | _ => true
      end
      && commit_follows_export fact (exported || is_export_returned fact ev) rest
  end.

(** What an [export_table] does to the world: it leaves the state
    directory alone, adds quiet events to the history, and marks its
    return when it does not raise. *)
Definition export_contract (export : DataFrame -> string -> M DataFrame) : Prop :=
  forall df name w,
    exists evs,
      state_dir (snd (export df name w)) = state_dir w
      /\ history (snd (export df name w)) = history w ++ evs
      /\ forallb quiet_event evs = true
      /\ (is_ok (fst (export df name w)) = true -> In (ExportReturned name) evs).

(** The outcome [out] of the block or cycle of [fact] started in [w]: it
    does not raise; it only adds to the history; a watermark of [fact] is
    written only after [export_table] returned for [fact]; when
    [export_table] did not return (the query, the sanitization or the
    export raised) the state directory is as before and an error is
    logged; a logged error means an unchanged state directory; and the
    state files of the other targets are never touched. *)
Definition guarded (fact : string) (w : World) (out : Result unit * World) : Prop :=
  let evs := events_since w (snd out) in
  fst out = Ok tt
  /\ history (snd out) = history w ++ evs
  /\ (forall pre wm post,
        evs = pre ++ WatermarkWritten fact wm :: post -> In (ExportReturned fact) pre)
  /\ (~ In (ExportReturned fact) evs ->
        state_dir (snd out) = state_dir w /\ exists msg, In (Log ERROR msg) evs)
  /\ (forall msg, In (Log ERROR msg) evs -> state_dir (snd out) = state_dir w)
  /\ (forall other, other <> fact -> state_dir (snd out) !! other = state_dir w !! other).

(** *** An example database

    A table with one row, stamped [t]: the database returns the row when
    the where-clause of the query admits it and no row otherwise.  The
    query template is the where-clause alone. *)

Definition one_row (t : Timestamp) : DataFrame :=
  mkDf 1 [("updated_at", [PTimestamp t])].

Definition no_row : DataFrame := mkDf 0 [("updated_at", [])].

Definition source_at (t : Timestamp) : Source :=
  mkSource (fun _ _ => None)
           (fun q params =>
              Ok (if where_admits q params (Some t) then one_row t else no_row)).


(** ** The select list of the quote lines

    The select items of [build_query_fact_cotizacion_linea] ([build_quotes.py]
    283-364), each as the expression and the alias the script joins with
    [AS]; the alias is the name the column has in the result frame. *)

(** [f"{expression} AS {alias}"] *)
Definition render_item (item : string * string) : string :=
  fst item +:+ " AS " +:+ snd item.

(** [base_sel] ([build_quotes.py] 283-289) *)
Definition base_items (cols_qp : list string) : list (string * string) :=
  let qp_id    := BuildQuotes.pick cols_qp ["id"] in
  let qp_quote := BuildQuotes.pick cols_qp ["quote_id"] in
  let qp_prod  := BuildQuotes.pick cols_qp ["product_id"] in
  let qp_sku   := BuildQuotes.pick cols_qp ["product_sku"; "sku"] in
  let qp_unit  := BuildQuotes.pick cols_qp ["product_unit_code"; "unit_code"; "product_unit"] in
  [ (match qp_quote with Some c => "qp." +:+ c | None => "NULL::bigint" end, "quote_id");
    (match qp_id with Some c => "qp." +:+ c | None => "ROW_NUMBER() OVER()::bigint" end,
     "quote_product_id");
    (match qp_prod with Some c => "qp." +:+ c | None => "NULL::bigint" end, "product_id");
    (match qp_sku with Some c => "qp." +:+ c | None => "NULL::text" end, "sku");
    (match qp_unit with Some c => "qp." +:+ c | None => "NULL::text" end, "product_unit") ].

(** The items the request part adds to [extra_sel] ([build_quotes.py]
    297-329) *)
Definition request_items (src : Source) (qp_unit : option string) : list (string * string) :=
  let none := [("NULL::bigint", "request_id"); ("NULL::numeric", "quantity")] in
  match catalog src "public" "oro_sale_quote_prod_request" with
  | Some cols_req =>
      let req_id   := BuildQuotes.pick cols_req ["id"] in
      let req_qp   := BuildQuotes.pick cols_req ["quote_product_id"] in
      let req_qty  := BuildQuotes.pick cols_req ["quantity"; "qty"] in
      let req_unit := BuildQuotes.pick cols_req ["product_unit_code"; "unit_code"; "product_unit"] in
      match req_qp, req_id with
      | Some _, Some rid =>
          [ ("req." +:+ rid, "request_id");
            (match req_qty with Some q => "req." +:+ q | None => "NULL::numeric" end,
             "quantity") ]
          ++ match req_unit, qp_unit with
             | Some u, None => [("req." +:+ u, "product_unit")]
             | _, _ => []
             end
      | _, _ => none
      end
  | None => none
  end.

(** The items the offer part adds to [extra_sel] ([build_quotes.py]
    331-362), when it does not raise *)
Definition offer_items (src : Source) : list (string * string) :=
  let none := [("NULL::bigint", "offer_id"); ("NULL::numeric", "price");
               ("NULL::text", "currency_code")] in
  match catalog src "public" "oro_sale_quote_prod_offer" with
  | Some cols_off =>
      let off_id    := BuildQuotes.pick cols_off ["id"] in
      let off_req   := BuildQuotes.pick cols_off ["quote_product_request_id"] in
      let off_price := BuildQuotes.pick cols_off ["price"; "value"; "amount"] in
      let off_curr  := BuildQuotes.pick cols_off ["currency"; "price_currency"] in
      match off_req, off_id with
      | Some _, Some oid =>
          [ ("off." +:+ oid, "offer_id");
            (match off_price with Some p => "off." +:+ p | None => "NULL::numeric" end, "price");
            (match off_curr with Some c => "off." +:+ c | None => "NULL::text" end,
             "currency_code") ]
      | _, _ => none
      end
  | None => none
  end.

(** [sel = base_sel + extra_sel] ([build_quotes.py] 364) for the columns
    [cols_qp] of the product table *)
Definition select_items_linea (src : Source) (cols_qp : list string) : list (string * string) :=
  base_items cols_qp
  ++ request_items src
       (BuildQuotes.pick cols_qp ["product_unit_code"; "unit_code"; "product_unit"])
  ++ offer_items src.

(** The aliases the select list can hold. *)
Definition lines_aliases : list string :=
  ["quote_id"; "quote_product_id"; "product_id"; "sku"; "product_unit";
   "request_id"; "quantity"; "offer_id"; "price"; "currency_code"].

(** The database names the columns of the frame it returns for the query
    [q] run with [params] by the aliases of the select list of the lines.
    It speaks of this one query: the frames of any other query, the header
    query among them, are left open. *)
Definition frame_named_by_select (src : Source) (q : string) (params : Params) : Prop :=
  forall df cols_qp,
    execute src q params = Ok df ->
    catalog src "public" "oro_sale_quote_product" = Some cols_qp ->
    column_names df = map snd (select_items_linea src cols_qp).

(** An example database with the product table only: a query over that
    table is answered with one line under the aliases of the select list,
    any other query with one row stamped [t]. *)
Definition lines_at (t : Timestamp) : Source :=
  mkSource (fun _ table =>
              if String.eqb table "oro_sale_quote_product" then Some ["id"; "quote_id"]
              else None)
           (fun q _ =>
              if BuildQuotes.str_contains "oro_sale_quote_product" q then
                Ok (mkDf 1 [("quote_id", [PInt 1]); ("quote_product_id", [PInt 10]);
                            ("product_id", [PNone]); ("sku", [PNone]);
                            ("product_unit", [PNone]); ("request_id", [PNone]);
                            ("quantity", [PNone]); ("offer_id", [PNone]);
                            ("price", [PNone]); ("currency_code", [PNone])])
              else Ok (one_row t)).

(** An example database with the quote header table: every query is
    answered with one row stamped [t]. *)
Definition quotes_at (t : Timestamp) : Source :=
  mkSource (fun _ table =>
              if String.eqb table "oro_sale_quote" then Some ["id"; "updated_at"] else None)
           (fun _ _ => Ok (one_row t)).

(** [extras = [c for c in cols if c not in set(ordered)]]
    ([build_inventory_snapshot.py] 219) *)
Definition snapshot_extras (cols : list string) : list string :=
  List.filter (fun c => negb (existsb (String.eqb c) BuildInventorySnapshot.ordered)) cols.
(* ===================================================================== *)
(** * Part II.  Lemmas and theorems                                       *)
(* ===================================================================== *)

(** ** Timestamp order *)

Lemma lex_compare_refl (l : list Z) : lex_compare l l = Eq.
Proof.
  induction l as [|x l IH]; simpl; [reflexivity|].
  now rewrite Z.compare_refl.
Qed.

Lemma ts_ltb_irrefl (t : Timestamp) : ts_ltb t t = false.
Proof. unfold ts_ltb, ts_compare. now rewrite lex_compare_refl. Qed.

(** ** The incremental predicate *)

Lemma ends_with_app (p suffix : string) : ends_with suffix (p +:+ suffix) = true.
Proof.
  induction p as [|c p IH]; simpl.
  - destruct suffix; simpl; rewrite ?Ascii.eqb_refl, ?String.eqb_refl; reflexivity.
  - rewrite IH. apply orb_true_r.
Qed.

Lemma strict_predicate_where (column : string) :
  strict_predicate ("WHERE " +:+ column +:+ " > %(wm)s") = true.
Proof.
  unfold strict_predicate. apply andb_true_intro. split.
  - reflexivity.
  - change ("WHERE " +:+ column +:+ " > %(wm)s")
      with ("WHERE " +:+ (column +:+ " > %(wm)s")).
    simpl. rewrite (ends_with_app column). now rewrite !orb_true_r.
Qed.

Lemma where_clause_not_empty (column : string) :
  String.eqb ("WHERE " +:+ column +:+ " > %(wm)s") "" = false.
Proof. reflexivity. Qed.

(** C3 — incremental predicate policy.  [build_where_incremental] returns
    the strict predicate [WHERE <column> > %(wm)s], with the last watermark
    bound as the parameter [wm], exactly when incremental mode is enabled
    and a previous watermark is present (a value Python takes as true: any
    non-empty string; [None] is absent); in every other case it returns the
    empty where-clause and no parameters, a full load.  Both scripts hold
    the same function.  Under the strict predicate a row whose timestamp is
    the watermark itself is not returned, while the empty clause returns
    every row. *)
Theorem build_where_incremental_policy
    (fact column : string) (incr_enabled : bool) (last_wm : PyVal) :
  let r := BuildFacts.build_where_incremental fact column incr_enabled last_wm in
  (r = ("WHERE " +:+ column +:+ " > %(wm)s", Some [("wm", last_wm)], true)
     <-> incr_enabled = true /\ truthy last_wm = true)
  /\ (r = ("", None, false) <-> incr_enabled = false \/ truthy last_wm = false)
  /\ BuildQuotes.build_where_incremental column incr_enabled last_wm = r
  /\ truthy PNone = false
  /\ (forall wm : string,
        let '(where_clause, params, _) :=
          BuildFacts.build_where_incremental fact column true (PStr wm) in
        where_admits where_clause params (parse_watermark wm) = false
        \/ wm = "")
  /\ (forall v, where_admits "" None v = true).
Proof.
  unfold BuildFacts.build_where_incremental, BuildQuotes.build_where_incremental.
  cbv zeta.
  split; [|split; [|split; [|split; [|split]]]].
  - destruct incr_enabled, (truthy last_wm); simpl; split;
      solve [ intros [H1 H2]; first [discriminate H1 | discriminate H2 | reflexivity]
            | intros H; first [discriminate H | now split] ].
  - destruct incr_enabled, (truthy last_wm); simpl; split;
      solve [ intros [H|H]; first [discriminate H | reflexivity]
            | intros H; first [discriminate H | now left | now right] ].
  - reflexivity.
  - reflexivity.
  - intros wm. destruct wm as [|c wm']; [right; reflexivity|].
    left. cbn [truthy String.eqb negb andb].
    unfold where_admits.
    rewrite where_clause_not_empty, strict_predicate_where.
    cbn [String.eqb Ascii.eqb Bool.eqb andb].
    destruct (parse_watermark (String c wm')) as [t|]; [|reflexivity].
    apply ts_ltb_irrefl.
  - reflexivity.
Qed.

(** ** Column de-duplication *)

Lemma occurrences_snoc_same (c : string) (pre : list string) :
  occurrences c (pre ++ [c]) = S (occurrences c pre).
Proof.
  unfold occurrences. rewrite List.filter_app, length_app. simpl.
  rewrite String.eqb_refl. simpl. lia.
Qed.

Lemma occurrences_snoc_other (c d : string) (pre : list string) :
  c <> d -> occurrences c (pre ++ [d]) = occurrences c pre.
Proof.
  intros Hne. unfold occurrences. rewrite List.filter_app, length_app. simpl.
  destruct (String.eqb_spec c d) as [->|_]; [contradiction|]. simpl. lia.
Qed.

Lemma seen_after_step (seen : gmap string nat) (pre : list string) (c : string) :
  seen_after seen pre ->
  seen_after (<[c := occurrences c pre]> seen) (pre ++ [c]).
Proof.
  intros Hseen d. destruct (decide (c = d)) as [<-|Hne].
  - rewrite lookup_insert_eq, occurrences_snoc_same. reflexivity.
  - rewrite lookup_insert_ne by exact Hne.
    rewrite occurrences_snoc_other by congruence. apply Hseen.
Qed.

Lemma make_unique_go_spec (cols : list string) :
  forall (seen : gmap string nat) (pre : list string),
    seen_after seen pre ->
    length (BuildQuotes.make_unique_go seen cols) = length cols /\
    forall i c, nth_error cols i = Some c ->
      nth_error (BuildQuotes.make_unique_go seen cols) i
      = Some (deduplicated_name c (occurrences c (pre ++ firstn i cols))).
Proof.
  induction cols as [|c rest IH]; intros seen pre Hseen.
  - split; [reflexivity|]. intros [|i] d Hd; discriminate Hd.
  - pose proof (Hseen c) as Hc.
    pose proof (seen_after_step seen pre c Hseen) as Hstep.
    simpl. destruct (occurrences c pre) as [|n] eqn:Hocc; rewrite Hc.
    + destruct (IH _ _ Hstep) as [Hlen Hnth]. split; [simpl; now rewrite Hlen|].
      intros [|i] d Hd; simpl in Hd |- *.
      * injection Hd as <-. rewrite app_nil_r, Hocc. reflexivity.
      * rewrite (Hnth i d Hd), <- app_assoc. reflexivity.
    + destruct (IH _ _ Hstep) as [Hlen Hnth]. split; [simpl; now rewrite Hlen|].
      intros [|i] d Hd; simpl in Hd |- *.
      * injection Hd as <-. rewrite app_nil_r, Hocc. reflexivity.
      * rewrite (Hnth i d Hd), <- app_assoc. reflexivity.
Qed.

Lemma seen_after_empty : seen_after ∅ [].
Proof. intros c. rewrite lookup_empty. reflexivity. Qed.


(** ** Query building *)

Lemma append_assoc (a b c : string) : (a +:+ b) +:+ c = a +:+ (b +:+ c).
Proof.
  induction a as [|x a IH]; [reflexivity|].
  change (String x ((a +:+ b) +:+ c) = String x (a +:+ (b +:+ c))).
  now rewrite IH.
Qed.

Lemma mem_In (c : string) (cols : list string) :
  BuildQuotes.mem c cols = true <-> In c cols.
Proof.
  unfold BuildQuotes.mem. rewrite existsb_exists. split.
  - intros [x [Hx Heq]]. apply String.eqb_eq in Heq. now subst.
  - intros Hin. exists c. split; [exact Hin | apply String.eqb_refl].
Qed.

Lemma pick_unresolved (cols cands : list string) :
  unresolved cols cands -> BuildQuotes.pick cols cands = None.
Proof.
  intros Hun. unfold BuildQuotes.pick.
  induction cands as [|c cands IH]; simpl; [reflexivity|].
  destruct (BuildQuotes.mem c cols) eqn:Hm.
  - apply mem_In in Hm. exfalso. apply (Hun c); [now left | exact Hm].
  - apply IH. intros d Hd. apply Hun. now right.
Qed.

Lemma pick_resolved (cols cands : list string) (c : string) :
  BuildQuotes.pick cols cands = Some c -> In c cands /\ In c cols.
Proof.
  unfold BuildQuotes.pick. intros H. apply find_some in H as [Hin Hm].
  split; [exact Hin | now apply mem_In].
Qed.

Lemma sel_item_alias (c : option string) (alias literal : string) :
  ends_with (" AS " +:+ alias) (BuildQuotes.sel_item c alias literal) = true.
Proof. destruct c; apply ends_with_app. Qed.

Lemma estado_item_alias (s : string) :
  ends_with " AS estado" ("COALESCE(" +:+ s +:+ ", 'Sin estado') AS estado") = true.
Proof.
  replace ("COALESCE(" +:+ s +:+ ", 'Sin estado') AS estado")
    with ((("COALESCE(" +:+ s) +:+ ", 'Sin estado')") +:+ " AS estado").
  - apply ends_with_app.
  - rewrite !append_assoc. reflexivity.
Qed.

Lemma inventory_pick_unresolved (cols cands : list string) :
  unresolved cols cands -> BuildInventorySnapshot.pick cols cands = None.
Proof. apply pick_unresolved. Qed.

Lemma select_ordered (out : BuildInventorySnapshot.Out)
    (names : list string) (cols : BuildInventorySnapshot.Out) :
  BuildInventorySnapshot.select out names = Ok cols -> map fst cols = names.
Proof.
  revert cols. induction names as [|n names IH]; simpl; intros cols H.
  - now injection H as <-.
  - destruct (BuildInventorySnapshot.getitem out n); [|discriminate H].
    destruct (BuildInventorySnapshot.select out names); [|discriminate H].
    injection H as <-. simpl. f_equal. now apply IH.
Qed.

(** Membership in a list that is written out. *)
Ltac in_list := cbn; repeat (first [ left; reflexivity | right ]).

Lemma build_snapshot_shape (cols : list string) (fecha : PyVal) (out : BuildInventorySnapshot.Out) :
  BuildInventorySnapshot.build_snapshot cols fecha = Ok out ->
  map fst out
  = BuildInventorySnapshot.ordered
      ++ List.filter (fun c => negb (existsb (String.eqb c) BuildInventorySnapshot.ordered)) cols
  /\ (BuildInventorySnapshot.pick cols
        ["warehouse_id"; "warehouse"; "warehouseid"; "almacen_id"; "source_warehouse_id"] = None ->
      In ("almacen_id", BuildInventorySnapshot.Scalar PNone) out)
  /\ (BuildInventorySnapshot.pick cols
        ["product_unit"; "unit"; "unidad"; "product_unit_code"] = None ->
      In ("unidad", BuildInventorySnapshot.Scalar PNone) out)
  /\ (BuildInventorySnapshot.pick cols
        ["stock_disponible"; "available_qty"; "available_quantity"; "on_hand";
         "onhand"; "quantity"; "qty"; "inventory_qty"] = None ->
      BuildInventorySnapshot.pick cols
        ["stock_total"; "total_qty"; "total_quantity"; "cantidad_total"] = None ->
      BuildInventorySnapshot.pick cols
        ["stock_reservado"; "reserved_qty"; "reserved_quantity"; "allocated_qty"; "asignado"] = None ->
      In ("stock_disponible", BuildInventorySnapshot.Scalar PNone) out
      /\ In ("stock_reservado", BuildInventorySnapshot.Scalar PNone) out
      /\ In ("stock_total",
             BuildInventorySnapshot.Add
               (BuildInventorySnapshot.ToNumeric (BuildInventorySnapshot.Scalar PNone))
               (BuildInventorySnapshot.ToNumeric (BuildInventorySnapshot.Scalar PNone))) out).
Proof.
  unfold BuildInventorySnapshot.build_snapshot.
  destruct (BuildInventorySnapshot.pick cols ["product_id"; "product"; "productid"; "producto_id"])
    as [pc|]; [|discriminate].
  generalize (List.filter (fun c => negb (existsb (String.eqb c) BuildInventorySnapshot.ordered)) cols).
  generalize (BuildInventorySnapshot.pick cols
                ["warehouse_id"; "warehouse"; "warehouseid"; "almacen_id"; "source_warehouse_id"]).
  generalize (BuildInventorySnapshot.pick cols ["product_unit"; "unit"; "unidad"; "product_unit_code"]).
  generalize (BuildInventorySnapshot.pick cols
                ["stock_disponible"; "available_qty"; "available_quantity"; "on_hand";
                 "onhand"; "quantity"; "qty"; "inventory_qty"]).
  generalize (BuildInventorySnapshot.pick cols
                ["stock_total"; "total_qty"; "total_quantity"; "cantidad_total"]).
  generalize (BuildInventorySnapshot.pick cols
                ["stock_reservado"; "reserved_qty"; "reserved_quantity"; "allocated_qty"; "asignado"]).
  intros r t d u w extras.
  destruct d, t, r; cbn; intros H; injection H as <-;
    (split; [cbn; rewrite map_map; cbn; now rewrite map_id|]);
    (split; [intros ->; in_list|]);
    (split; [intros ->; in_list|]);
    intros Hd Ht Hr; try discriminate; repeat split; in_list.
Qed.

(** The three stock columns of a snapshot that is built, by the quantity
    columns that resolve. *)
Lemma build_snapshot_stock (cols : list string) (fecha : PyVal)
    (out : BuildInventorySnapshot.Out) :
  BuildInventorySnapshot.build_snapshot cols fecha = Ok out ->
  let disp := BuildInventorySnapshot.pick cols
                ["stock_disponible"; "available_qty"; "available_quantity"; "on_hand";
                 "onhand"; "quantity"; "qty"; "inventory_qty"] in
  let total := BuildInventorySnapshot.pick cols
                 ["stock_total"; "total_qty"; "total_quantity"; "cantidad_total"] in
  let resv := BuildInventorySnapshot.pick cols
                ["stock_reservado"; "reserved_qty"; "reserved_quantity"; "allocated_qty";
                 "asignado"] in
  let numeric c := BuildInventorySnapshot.ToNumeric (BuildInventorySnapshot.SrcCol c) in
  exists D R T,
    nth_error out 3 = Some ("stock_disponible", D)
    /\ nth_error out 4 = Some ("stock_reservado", R)
    /\ nth_error out 5 = Some ("stock_total", T)
    /\ D = match disp, total, resv with
           | Some d, _, _ => numeric d
           | None, Some t, Some r => BuildInventorySnapshot.Sub (numeric t) (numeric r)
           | None, _, _ => BuildInventorySnapshot.Scalar PNone
           end
    /\ R = match resv, total with
           | Some r, _ => numeric r
           | None, Some t => BuildInventorySnapshot.Sub (numeric t) D
           | None, None => BuildInventorySnapshot.Scalar PNone
           end
    /\ T = match total with
           | Some t => numeric t
           | None => BuildInventorySnapshot.Add (BuildInventorySnapshot.ToNumeric D)
                       (BuildInventorySnapshot.ToNumeric R)
           end.
Proof.
  unfold BuildInventorySnapshot.build_snapshot.
  destruct (BuildInventorySnapshot.pick cols ["product_id"; "product"; "productid"; "producto_id"])
    as [pc|]; [|discriminate].
  generalize (List.filter (fun c => negb (existsb (String.eqb c) BuildInventorySnapshot.ordered)) cols).
  generalize (BuildInventorySnapshot.pick cols
                ["warehouse_id"; "warehouse"; "warehouseid"; "almacen_id"; "source_warehouse_id"]).
  generalize (BuildInventorySnapshot.pick cols ["product_unit"; "unit"; "unidad"; "product_unit_code"]).
  generalize (BuildInventorySnapshot.pick cols
                ["stock_disponible"; "available_qty"; "available_quantity"; "on_hand";
                 "onhand"; "quantity"; "qty"; "inventory_qty"]).
  generalize (BuildInventorySnapshot.pick cols
                ["stock_total"; "total_qty"; "total_quantity"; "cantidad_total"]).
  generalize (BuildInventorySnapshot.pick cols
                ["stock_reservado"; "reserved_qty"; "reserved_quantity"; "allocated_qty"; "asignado"]).
  intros r t d u w extras.
  destruct d, t, r; cbn; intros H; injection H as <-;
    eexists _, _, _; repeat split; reflexivity.
Qed.

(** C5, read to the letter, fails: with no column resolved the select
    list of the quote header holds no typed NULL for [estado] but the
    default text; the snapshot derives an absent [stock_disponible] from
    the total and the reserved quantity instead of leaving it null; and a
    view without a reserved quantity, the example the specification gives,
    yields a [stock_reservado] derived from the total, not a null one. *)
Lemma schema_stability_counterexample :
  forallb (fun item => negb (is_null_item "estado" item))
          (BuildQuotes.select_fact_cotizacion []) = true
  /\ In "'Sin estado'::text AS estado" (BuildQuotes.select_fact_cotizacion [])
  /\ (exists out,
        BuildInventorySnapshot.build_snapshot
          ["product_id"; "stock_total"; "stock_reservado"] PNone = Ok out
        /\ In ("stock_disponible",
               BuildInventorySnapshot.Sub
                 (BuildInventorySnapshot.ToNumeric (BuildInventorySnapshot.SrcCol "stock_total"))
                 (BuildInventorySnapshot.ToNumeric
                    (BuildInventorySnapshot.SrcCol "stock_reservado")))
              out
        /\ ~ In ("stock_disponible", BuildInventorySnapshot.Scalar PNone) out)
  /\ (exists out,
        BuildInventorySnapshot.build_snapshot
          ["product_id"; "stock_disponible"; "stock_total"] PNone = Ok out
        /\ In ("stock_reservado",
               BuildInventorySnapshot.Sub
                 (BuildInventorySnapshot.ToNumeric (BuildInventorySnapshot.SrcCol "stock_total"))
                 (BuildInventorySnapshot.ToNumeric
                    (BuildInventorySnapshot.SrcCol "stock_disponible")))
              out
        /\ ~ In ("stock_reservado", BuildInventorySnapshot.Scalar PNone) out).
Proof.
  split; [vm_compute; reflexivity|]. split; [in_list|]. split.
  - eexists. split; [vm_compute; reflexivity|]. split.
    + in_list.
    + simpl. intros H.
      repeat (destruct H as [H|H]; [discriminate H|]). exact H.
  - eexists. split; [vm_compute; reflexivity|]. split.
    + in_list.
    + simpl. intros H.
      repeat (destruct H as [H|H]; [discriminate H|]). exact H.
Qed.

(** C5, amended — schema stability.  For every set [cols] of columns of the
    source table the select list of the quote header names its eleven
    logical columns, each under its alias and in order; a column of the
    Candidate Column Mapping none of whose candidates is present is the
    typed NULL [NULL::<type> AS <alias>]; [estado] without a candidate is
    the default text ['Sin estado'::text AS estado].  A snapshot that is
    built holds the seven declared columns first, in order, then the other
    source columns; [almacen_id] and [unidad] without a candidate are the
    scalar [None].  The stock columns are always there, but an absent
    source column does not always leave them null.  A quantity whose
    column resolves is that column made numeric.  [stock_disponible]
    without a column is total minus reserved when both resolve, and the
    scalar [None] exactly otherwise.  [stock_reservado] without a column
    is total minus the [stock_disponible] of the snapshot when the total
    resolves, and the scalar [None] exactly when neither it nor the total
    resolves.  [stock_total] without a column is the sum of the
    [stock_disponible] and the [stock_reservado] of the snapshot; when no
    quantity column resolves that is the sum of two null columns. *)
Theorem schema_stability (cols : list string) :
  Forall2 (fun item alias => ends_with (" AS " +:+ alias) item = true)
          (BuildQuotes.select_fact_cotizacion cols) fact_cotizacion_columns
  /\ (forall alias cands ty,
        In (alias, cands, ty) fact_cotizacion_mapping ->
        unresolved cols cands ->
        In ("NULL::" +:+ ty +:+ " AS " +:+ alias) (BuildQuotes.select_fact_cotizacion cols))
  /\ (unresolved cols estado_candidates ->
        In "'Sin estado'::text AS estado" (BuildQuotes.select_fact_cotizacion cols))
  /\ (forall fecha out,
        BuildInventorySnapshot.build_snapshot cols fecha = Ok out ->
        map fst out
        = BuildInventorySnapshot.ordered
            ++ List.filter (fun c => negb (existsb (String.eqb c) BuildInventorySnapshot.ordered)) cols
        /\ (unresolved cols ["warehouse_id"; "warehouse"; "warehouseid"; "almacen_id";
                             "source_warehouse_id"] ->
              In ("almacen_id", BuildInventorySnapshot.Scalar PNone) out)
        /\ (unresolved cols ["product_unit"; "unit"; "unidad"; "product_unit_code"] ->
              In ("unidad", BuildInventorySnapshot.Scalar PNone) out)
        /\ (unresolved cols ["stock_disponible"; "available_qty"; "available_quantity"; "on_hand";
                             "onhand"; "quantity"; "qty"; "inventory_qty"] ->
            unresolved cols ["stock_total"; "total_qty"; "total_quantity"; "cantidad_total"] ->
            unresolved cols ["stock_reservado"; "reserved_qty"; "reserved_quantity";
                             "allocated_qty"; "asignado"] ->
              In ("stock_disponible", BuildInventorySnapshot.Scalar PNone) out
              /\ In ("stock_reservado", BuildInventorySnapshot.Scalar PNone) out
              /\ In ("stock_total",
                     BuildInventorySnapshot.Add
                       (BuildInventorySnapshot.ToNumeric (BuildInventorySnapshot.Scalar PNone))
                       (BuildInventorySnapshot.ToNumeric (BuildInventorySnapshot.Scalar PNone)))
                    out)
        /\ (let disp := BuildInventorySnapshot.pick cols
                          ["stock_disponible"; "available_qty"; "available_quantity"; "on_hand";
                           "onhand"; "quantity"; "qty"; "inventory_qty"] in
            let total := BuildInventorySnapshot.pick cols
                           ["stock_total"; "total_qty"; "total_quantity"; "cantidad_total"] in
            let resv := BuildInventorySnapshot.pick cols
                          ["stock_reservado"; "reserved_qty"; "reserved_quantity";
                           "allocated_qty"; "asignado"] in
            let numeric c := BuildInventorySnapshot.ToNumeric (BuildInventorySnapshot.SrcCol c) in
            exists D R T,
              nth_error out 3 = Some ("stock_disponible", D)
              /\ nth_error out 4 = Some ("stock_reservado", R)
              /\ nth_error out 5 = Some ("stock_total", T)
              /\ D = match disp, total, resv with
                     | Some d, _, _ => numeric d
                     | None, Some t, Some r => BuildInventorySnapshot.Sub (numeric t) (numeric r)
                     | None, _, _ => BuildInventorySnapshot.Scalar PNone
                     end
              /\ R = match resv, total with
                     | Some r, _ => numeric r
                     | None, Some t => BuildInventorySnapshot.Sub (numeric t) D
                     | None, None => BuildInventorySnapshot.Scalar PNone
                     end
              /\ T = match total with
                     | Some t => numeric t
                     | None => BuildInventorySnapshot.Add (BuildInventorySnapshot.ToNumeric D)
                                 (BuildInventorySnapshot.ToNumeric R)
                     end
              /\ (D = BuildInventorySnapshot.Scalar PNone
                  <-> disp = None /\ (total = None \/ resv = None))
              /\ (R = BuildInventorySnapshot.Scalar PNone <-> resv = None /\ total = None)
              /\ T <> BuildInventorySnapshot.Scalar PNone)).
Proof.
  split; [|split; [|split]].
  - unfold BuildQuotes.select_fact_cotizacion, fact_cotizacion_columns.
    cbn [map fact_cotizacion_mapping fst app].
    repeat (constructor; [apply sel_item_alias|]).
    constructor; [|constructor].
    destruct (BuildQuotes.pick cols _) as [s|]; [apply estado_item_alias | reflexivity].
  - intros alias cands ty Hin Hun.
    unfold fact_cotizacion_mapping in Hin. simpl in Hin.
    unfold BuildQuotes.select_fact_cotizacion.
    repeat (destruct Hin as [Hin|Hin];
            [injection Hin as <- <- <-; rewrite (pick_unresolved _ _ Hun); simpl; in_list|]).
    contradiction.
  - intros Hun. unfold BuildQuotes.select_fact_cotizacion.
    unfold estado_candidates in Hun. rewrite (pick_unresolved _ _ Hun). in_list.
  - intros fecha out Hout.
    destruct (build_snapshot_shape cols fecha out Hout) as (Hnames & Hw & Hu & Hs).
    split; [exact Hnames|]. split; [|split; [|split]].
    + intros Hun. apply Hw. now apply inventory_pick_unresolved.
    + intros Hun. apply Hu. now apply inventory_pick_unresolved.
    + intros Hd Ht Hr. apply Hs; now apply inventory_pick_unresolved.
    + cbv zeta.
      destruct (build_snapshot_stock cols fecha out Hout)
        as (D & R & T & H3 & H4 & H5 & HD & HR & HT).
      exists D, R, T.
      split; [exact H3|]. split; [exact H4|]. split; [exact H5|].
      split; [exact HD|]. split; [exact HR|]. split; [exact HT|].
      rewrite HT, HR, HD.
      destruct (BuildInventorySnapshot.pick cols
                  ["stock_disponible"; "available_qty"; "available_quantity"; "on_hand";
                   "onhand"; "quantity"; "qty"; "inventory_qty"]) as [d|];
        destruct (BuildInventorySnapshot.pick cols
                    ["stock_total"; "total_qty"; "total_quantity"; "cantidad_total"]) as [t|];
        destruct (BuildInventorySnapshot.pick cols
                    ["stock_reservado"; "reserved_qty"; "reserved_quantity"; "allocated_qty";
                     "asignado"]) as [r|];
        (split; [split; [intros H; try discriminate H; tauto
                        | intros [H1 H2]; try discriminate H1;
                          try (destruct H2 as [H2|H2]; discriminate H2); reflexivity]|]);
        (split; [split; [intros H; try discriminate H; tauto
                        | intros [H1 H2]; try discriminate H1; try discriminate H2;
                          reflexivity]|]);
        discriminate.
Qed.

(** C7, read to the letter, fails for the quote header: on a table
    [public.oro_sale_quote] without an [id] column (here with the single
    column [total]) the builder raises nothing and returns a query that
    selects a NULL as [quote_id]. *)
Lemma quote_header_missing_id_counterexample :
  let src := mkSource (fun _ _ => Some ["total"]) (fun _ _ => Ok (mkDf 0 [])) in
  unresolved ["total"] ["id"]
  /\ is_ok (BuildQuotes.build_query_fact_cotizacion src) = true
  /\ In "NULL::bigint AS quote_id" (BuildQuotes.select_fact_cotizacion ["total"]).
Proof.
  cbv zeta. split; [|split].
  - intros c [<-|[]] [H|[]]. discriminate H.
  - reflexivity.
  - in_list.
Qed.

(** C7, amended — fail-fast on the mandatory id.  The inventory snapshot
    declares [product_id] mandatory: when none of its candidates is a
    column of the source, [build_snapshot] raises a [ValueError] whose
    message names [product_id], and returns no frame; when one is, it
    returns a frame.  The quote header declares no mandatory column: when
    the table exists [build_query_fact_cotizacion] returns a query for
    every set of columns, with [NULL::bigint AS quote_id] when [id] is
    absent; it raises only when the table itself is missing. *)
Theorem mandatory_id_fail_fast :
  (forall cols fecha,
     unresolved cols ["product_id"; "product"; "productid"; "producto_id"] ->
     exists msg,
       BuildInventorySnapshot.build_snapshot cols fecha = Raise (Exc "ValueError" msg)
       /\ BuildQuotes.str_contains "product_id" msg = true)
  /\ (forall cols fecha c,
        In c ["product_id"; "product"; "productid"; "producto_id"] -> In c cols ->
        is_ok (BuildInventorySnapshot.build_snapshot cols fecha) = true)
  /\ (forall src cols,
        catalog src "public" "oro_sale_quote" = Some cols ->
        is_ok (BuildQuotes.build_query_fact_cotizacion src) = true
        /\ (~ In "id" cols ->
            In "NULL::bigint AS quote_id" (BuildQuotes.select_fact_cotizacion cols)))
  /\ (forall src,
        catalog src "public" "oro_sale_quote" = None ->
        BuildQuotes.build_query_fact_cotizacion src
        = Raise (Exc "RuntimeError" "No existe public.oro_sale_quote")).
Proof.
  split; [|split; [|split]].
  - intros cols fecha Hun. unfold BuildInventorySnapshot.build_snapshot.
    rewrite (inventory_pick_unresolved _ _ Hun).
    eexists. split; [reflexivity|]. vm_compute. reflexivity.
  - intros cols fecha c Hc Hcols.
    destruct (BuildInventorySnapshot.build_snapshot cols fecha) as [out|e] eqn:Hb;
      [reflexivity|].
    exfalso. revert Hb. unfold BuildInventorySnapshot.build_snapshot.
    destruct (BuildInventorySnapshot.pick cols ["product_id"; "product"; "productid"; "producto_id"])
      as [pc|] eqn:Hp.
    + generalize (List.filter (fun c => negb (existsb (String.eqb c) BuildInventorySnapshot.ordered)) cols).
      generalize (BuildInventorySnapshot.pick cols
                    ["warehouse_id"; "warehouse"; "warehouseid"; "almacen_id"; "source_warehouse_id"]).
      generalize (BuildInventorySnapshot.pick cols ["product_unit"; "unit"; "unidad"; "product_unit_code"]).
      generalize (BuildInventorySnapshot.pick cols
                    ["stock_disponible"; "available_qty"; "available_quantity"; "on_hand";
                     "onhand"; "quantity"; "qty"; "inventory_qty"]).
      generalize (BuildInventorySnapshot.pick cols
                    ["stock_total"; "total_qty"; "total_quantity"; "cantidad_total"]).
      generalize (BuildInventorySnapshot.pick cols
                    ["stock_reservado"; "reserved_qty"; "reserved_quantity"; "allocated_qty"; "asignado"]).
      intros r t d u w extras. destruct d, t, r; cbn; discriminate.
    + intros _. unfold BuildInventorySnapshot.pick in Hp.
      apply (find_none _ _ Hp) in Hc.
      assert (Hex : existsb (String.eqb c) cols = true).
      { apply existsb_exists. exists c. split; [exact Hcols | apply String.eqb_refl]. }
      rewrite Hex in Hc. discriminate Hc.
  - intros src cols Hcat. unfold BuildQuotes.build_query_fact_cotizacion. rewrite Hcat.
    split; [reflexivity|].
    intros Hid. unfold BuildQuotes.select_fact_cotizacion.
    rewrite (pick_unresolved cols ["id"]); [in_list|].
    intros c [<-|[]]. exact Hid.
  - intros src Hcat. unfold BuildQuotes.build_query_fact_cotizacion. now rewrite Hcat.
Qed.

(** ** The minimum-id joins *)

Section FilterFacts.
Context {A : Type}.

Lemma filter_filter_and (f g : A -> bool) (l : list A) :
  List.filter f (List.filter g l) = List.filter (fun x => f x && g x) l.
Proof.
  induction l as [|x l IH]; simpl; [reflexivity|].
  destruct (g x) eqn:Hg; simpl.
  - destruct (f x); simpl; now rewrite IH.
  - rewrite andb_false_r. exact IH.
Qed.

Lemma filter_none (f : A -> bool) (l : list A) :
  (forall x, In x l -> f x = false) -> List.filter f l = [].
Proof.
  induction l as [|x l IH]; intros H; simpl; [reflexivity|].
  rewrite (H x (or_introl eq_refl)). apply IH. intros y Hy. apply H. now right.
Qed.

Lemma filter_map_comm {B : Type} (h : A -> B) (f : B -> bool) (l : list A) :
  List.filter f (map h l) = map h (List.filter (fun x => f (h x)) l).
Proof.
  induction l as [|x l IH]; simpl; [reflexivity|].
  destruct (f (h x)); simpl; now rewrite IH.
Qed.

Lemma flat_map_filter (f : A -> bool) (l : list A) :
  flat_map (fun x => if f x then [x] else []) l = List.filter f l.
Proof.
  induction l as [|x l IH]; simpl; [reflexivity|].
  destruct (f x); simpl; now rewrite IH.
Qed.

Lemma flat_map_ext_In {B : Type} (f g : A -> list B) (l : list A) :
  (forall x, In x l -> f x = g x) -> flat_map f l = flat_map g l.
Proof.
  induction l as [|x l IH]; intros H; simpl; [reflexivity|].
  rewrite (H x (or_introl eq_refl)), IH; [reflexivity|].
  intros y Hy. apply H. now right.
Qed.

Lemma flat_map_one {B : Type} (h : A -> B) (l : list A) :
  flat_map (fun x => [h x]) l = map h l.
Proof. induction l as [|x l IH]; simpl; [reflexivity|]. now rewrite IH. Qed.

Lemma NoDup_map_filter {B : Type} (h : A -> B) (f : A -> bool) (l : list A) :
  List.NoDup (map h l) -> List.NoDup (map h (List.filter f l)).
Proof.
  induction l as [|x l IH]; simpl; intros Hnd; [constructor|].
  apply List.NoDup_cons_iff in Hnd as [Hx Hnd].
  destruct (f x); simpl; [|now apply IH].
  constructor; [|now apply IH].
  intros Hin. apply Hx. apply in_map_iff in Hin as [y [Hy Hin]].
  apply in_map_iff. exists y. split; [exact Hy|].
  apply filter_In in Hin. tauto.
Qed.

End FilterFacts.

Section JoinFacts.
Context {C : Type}.
Context (child_id : C -> Z) (child_parent : C -> option Z).

Abbreviation sql_eq := MinIdJoin.sql_eq.
Abbreviation same_group := MinIdJoin.same_group.
Abbreviation group_keys := MinIdJoin.group_keys.
Abbreviation min_id := (MinIdJoin.min_id child_id).
Abbreviation least_child := (MinIdJoin.least_child child_id).
Abbreviation children_of := (MinIdJoin.children_of child_parent).
Abbreviation min_children := (MinIdJoin.min_children child_id child_parent).
Abbreviation is_least := (MinIdJoin.is_least child_id child_parent).

Lemma same_group_eq (a b : option Z) : same_group a b = true <-> a = b.
Proof.
  destruct a as [x|], b as [y|]; simpl; split; intros H;
    try discriminate; try reflexivity.
  - apply Z.eqb_eq in H. now subst.
  - injection H as ->. apply Z.eqb_refl.
Qed.

Lemma same_group_refl (a : option Z) : same_group a a = true.
Proof. now apply same_group_eq. Qed.

(** A key stands once among the grouping keys when it occurs, and not at
    all otherwise. *)
Lemma group_keys_once (k : option Z) (keys : list (option Z)) :
  List.filter (same_group k) (group_keys keys)
  = if existsb (same_group k) keys then [k] else [].
Proof.
  induction keys as [|a keys IH]; simpl; [reflexivity|].
  destruct (same_group k a) eqn:Hka.
  - apply same_group_eq in Hka as <-. simpl.
    rewrite filter_filter_and. f_equal. apply filter_none.
    intros x _. destruct (same_group k x); reflexivity.
  - simpl. rewrite filter_filter_and, <- IH.
    apply filter_ext. intros x. destruct (same_group k x) eqn:Hkx; [|reflexivity].
    apply same_group_eq in Hkx as <-. simpl.
    destruct (same_group a k) eqn:Hak; [|reflexivity].
    apply same_group_eq in Hak as ->. now rewrite same_group_refl in Hka.
Qed.

Lemma children_of_group (k : Z) (children : list C) :
  List.filter (fun c => same_group (child_parent c) (Some k)) children = children_of k children.
Proof.
  unfold MinIdJoin.children_of. apply filter_ext. intros c.
  destruct (child_parent c); reflexivity.
Qed.

Lemma min_children_least (children : list C) :
  min_children children = List.filter (is_least children) children.
Proof.
  unfold MinIdJoin.min_children. rewrite <- flat_map_filter.
  apply flat_map_ext_In. intros r Hr.
  unfold MinIdJoin.rmin. rewrite filter_map_comm. cbn [fst snd].
  unfold MinIdJoin.is_least. destruct (child_parent r) as [k|] eqn:Hk.
  - rewrite (filter_ext _ (fun x => (fun k' => sql_eq (min_id (children_of k children)) (child_id r)) x
                                     && same_group (Some k) x)).
    2:{ intros [k'|]; simpl; [|now rewrite andb_false_r].
        destruct (Z.eqb k k') eqn:E; [|now rewrite andb_false_r].
        apply Z.eqb_eq in E as <-. rewrite andb_true_r.
        now rewrite children_of_group. }
    rewrite <- filter_filter_and, group_keys_once.
    assert (Hex : existsb (same_group (Some k)) (map child_parent children) = true).
    { apply existsb_exists. exists (Some k). split; [|apply same_group_refl].
      apply in_map_iff. exists r. now split. }
    rewrite Hex. simpl.
    destruct (sql_eq (min_id (children_of k children)) (child_id r)); reflexivity.
  - rewrite filter_none; [reflexivity|].
    intros [k'|] _; reflexivity.
Qed.

Lemma min_id_least (l : list C) :
  min_id l = option_map child_id (least_child l).
Proof.
  induction l as [|c l IH]; simpl; [reflexivity|].
  rewrite IH. destruct (least_child l) as [m|]; simpl; [|reflexivity].
  destruct (Z.leb_spec (child_id c) (child_id m)); simpl; f_equal; lia.
Qed.

Lemma least_child_In (l : list C) (c : C) :
  least_child l = Some c -> In c l.
Proof.
  revert c. induction l as [|x l IH]; simpl; intros c H; [discriminate H|].
  destruct (least_child l) as [m|].
  - destruct (Z.leb (child_id x) (child_id m)); injection H as <-; [now left|].
    right. now apply IH.
  - injection H as <-. now left.
Qed.

Lemma least_child_none (l : list C) : least_child l = None <-> l = [].
Proof.
  destruct l as [|x l]; simpl; [tauto|].
  split; [|discriminate].
  destruct (least_child l) as [m|]; [destruct (Z.leb _ _)|]; discriminate.
Qed.

Lemma least_child_le (l : list C) (c : C) :
  least_child l = Some c -> forall c', In c' l -> (child_id c <= child_id c')%Z.
Proof.
  revert c. induction l as [|x l IH]; simpl; intros c H c' Hc'; [contradiction|].
  destruct (least_child l) as [m|] eqn:Hm.
  - specialize (IH m eq_refl).
    destruct (Z.leb_spec (child_id x) (child_id m)); injection H as <-;
      destruct Hc' as [<-|Hc']; try lia; specialize (IH c' Hc'); lia.
  - injection H as <-. destruct Hc' as [<-|Hc']; [lia|].
    apply least_child_none in Hm. subst l. contradiction.
Qed.

(** With distinct ids exactly one row of a group has the least id. *)
Lemma least_is_unique (l : list C) :
  List.NoDup (map child_id l) ->
  List.filter (fun r => sql_eq (min_id l) (child_id r)) l
  = match least_child l with Some c => [c] | None => [] end.
Proof.
  induction l as [|c l IH]; intros Hnd; [reflexivity|].
  simpl in Hnd. apply List.NoDup_cons_iff in Hnd as [Hc Hnd].
  specialize (IH Hnd). rewrite min_id_least in IH |- *.
  simpl. destruct (least_child l) as [m|] eqn:Hm; simpl in *.
  - assert (Hne : child_id c <> child_id m).
    { intros Heq. apply Hc. rewrite Heq. apply in_map. now apply least_child_In. }
    destruct (Z.leb_spec (child_id c) (child_id m)) as [Hle|Hlt]; simpl.
    + rewrite Z.eqb_refl. f_equal. apply filter_none.
      intros x Hx. apply Z.eqb_neq. intros Heq. apply Hc. rewrite Heq. now apply in_map.
    + destruct (Z.eqb_spec (child_id m) (child_id c)) as [Heq|_]; [congruence|].
      exact IH.
  - rewrite Z.eqb_refl. f_equal. apply least_child_none in Hm. now subst.
Qed.

Lemma matches_of_parent (k : Z) (children : list C) :
  List.NoDup (map child_id children) ->
  List.filter (fun r => sql_eq (child_parent r) k) (min_children children)
  = match least_child (children_of k children) with Some c => [c] | None => [] end.
Proof.
  intros Hnd. rewrite min_children_least, filter_filter_and.
  rewrite <- (least_is_unique (children_of k children))
    by (unfold MinIdJoin.children_of; now apply NoDup_map_filter).
  unfold MinIdJoin.children_of at 2. rewrite filter_filter_and.
  apply filter_ext. intros r. unfold MinIdJoin.is_least.
  destruct (child_parent r) as [k'|]; simpl; [|now rewrite andb_false_r].
  destruct (Z.eqb_spec k' k) as [->|_]; [now rewrite andb_true_r | now rewrite andb_false_r].
Qed.

End JoinFacts.

(** ** The joins the builder writes *)

Lemma aggregate_min_id (id : string) (l : list Sql.Row) :
  (forall r, In r l -> r id <> None) ->
  Sql.aggregate Sql.Min (map (fun r : Sql.Row => r id) l) = MinIdJoin.min_id (row_id id) l.
Proof.
  induction l as [|a l IH]; intros H; [reflexivity|].
  cbn [map Sql.aggregate MinIdJoin.min_id].
  rewrite IH by (intros r Hr; apply H; now right).
  assert (Ha : a id = Some (row_id id a)).
  { pose proof (H a (or_introl eq_refl)) as Hnn. unfold row_id. now destruct (a id). }
  rewrite Ha.
  destruct (MinIdJoin.min_id (row_id id) l); reflexivity.
Qed.

Lemma NoDup_row_id (id : string) (l : list Sql.Row) :
  (forall r, In r l -> r id <> None) ->
  List.NoDup (map (fun r : Sql.Row => r id) l) ->
  List.NoDup (map (row_id id) l).
Proof.
  induction l as [|a l IH]; intros Hnn Hnd; [constructor|].
  cbn [map] in *. apply List.NoDup_cons_iff in Hnd as [Ha Hnd].
  constructor; [|apply IH; [intros r Hr; apply Hnn; now right | exact Hnd]].
  intros Hin. apply Ha. apply in_map_iff in Hin as (r & Heq & Hr).
  apply in_map_iff. exists r. split; [|exact Hr].
  pose proof (Hnn r (or_intror Hr)) as Hr'. pose proof (Hnn a (or_introl eq_refl)) as Ha'.
  unfold row_id in Heq. destruct (r id), (a id); congruence.
Qed.

Section Keyed.
Context (tbl ra ka ga ca pa pk key id : string).

(** A join of the shape the builder writes: grouped by [key] with the
    least [id], joined back on both, hooked on [key]. *)
Let j : Sql.MinJoin := Sql.mkMinJoin tbl ra key ka Sql.Min id ga key id ca key pa pk.

Lemma grouped_keyed (t : Sql.Table) :
  (forall r, In r (Sql.rows t) -> r id <> None) ->
  Sql.grouped j t
  = MinIdJoin.rmin (row_id id) (fun r : Sql.Row => r key) (Sql.rows t).
Proof.
  intros Hnn. unfold Sql.grouped, MinIdJoin.rmin. cbn [j Sql.agg Sql.agg_column Sql.group_key].
  apply map_ext. intros k. f_equal.
  apply aggregate_min_id. intros r Hr. apply filter_In in Hr as [Hr _]. now apply Hnn.
Qed.

Lemma picked_keyed (t : Sql.Table) :
  (forall r, In r (Sql.rows t) -> r id <> None) ->
  Sql.picked j t
  = MinIdJoin.min_children (row_id id) (fun r : Sql.Row => r key) (Sql.rows t).
Proof.
  intros Hnn. unfold Sql.picked, MinIdJoin.min_children.
  rewrite (grouped_keyed t Hnn). cbn [j Sql.back_key Sql.back_id].
  apply flat_map_ext_In. intros r1 Hr1. f_equal.
  apply filter_ext. intros [gk gm]. cbn [fst snd].
  pose proof (Hnn r1 Hr1) as Hid. unfold row_id.
  destruct (r1 id) as [z|]; [|contradiction].
  destruct gk as [k|], (r1 key) as [x|], gm as [m|]; cbn;
    try reflexivity; now rewrite (Z.eqb_sym k x).
Qed.

(** The join on a table with a primary key: every parent once, with its
    child of least id or with none. *)
Lemma eval_keyed (db : Sql.Database) (parents children : Sql.Table) :
  db tbl = Some children ->
  Sql.has_column children key = true ->
  Sql.has_column children id = true ->
  Sql.has_column parents pk = true ->
  (forall r, In r (Sql.rows children) -> r id <> None) ->
  List.NoDup (map (fun r : Sql.Row => r id) (Sql.rows children)) ->
  Sql.eval j db parents
  = Some (map (fun p : Sql.Row =>
                 (p, match p pk with
                     | Some k =>
                         MinIdJoin.least_child (row_id id)
                           (MinIdJoin.children_of (fun r : Sql.Row => r key) k
                              (Sql.rows children))
                     | None => None
                     end))
              (Sql.rows parents)).
Proof.
  intros Hdb Hkey Hid Hpk Hnn Hnd. unfold Sql.eval.
  cbn [j Sql.table Sql.group_key Sql.agg_column Sql.back_key Sql.back_id Sql.child_key
         Sql.parent_key].
  rewrite Hdb. cbn [forallb]. rewrite Hkey, Hid, Hpk. cbn [andb].
  f_equal. rewrite <- flat_map_one. apply flat_map_ext. intros p.
  fold j. rewrite (picked_keyed children Hnn).
  destruct (p pk) as [k|].
  - rewrite (filter_ext _ (fun r : Sql.Row => MinIdJoin.sql_eq (r key) k))
      by (intros r; now destruct (r key)).
    rewrite (matches_of_parent (row_id id) (fun r : Sql.Row => r key) k (Sql.rows children)
               (NoDup_row_id id _ Hnn Hnd)).
    now destruct (MinIdJoin.least_child _ _).
  - rewrite filter_none; [reflexivity|]. intros r _. now destruct (r key).
Qed.

End Keyed.

(** The text of the two joins is the rendering of their reading. *)
Lemma join_min_request_render (req_qp req_id : string) (qp_id : option string) :
  BuildQuotes.join_min_request req_qp req_id qp_id
  = Sql.render (request_join req_qp req_id qp_id).
Proof. reflexivity. Qed.

Lemma join_min_offer_render (off_req off_id : string) (req_id : option string) :
  BuildQuotes.join_min_offer off_req off_id req_id
  = Sql.render (offer_join off_req off_id req_id).
Proof. reflexivity. Qed.

(** The joins the builder puts in the query of the lines. *)
Lemma request_part_join (src : Source) (cols_req : list string) (qp_id qp_unit : option string) :
  catalog src "public" "oro_sale_quote_prod_request" = Some cols_req ->
  BuildQuotes.mem "id" cols_req = true ->
  BuildQuotes.mem "quote_product_id" cols_req = true ->
  fst (fst (BuildQuotes.request_part src qp_id qp_unit))
  = [Sql.render (request_join "quote_product_id" "id" qp_id)].
Proof.
  intros Hcat Hid Hqp. unfold BuildQuotes.request_part. rewrite Hcat. cbv zeta.
  change (BuildQuotes.pick cols_req ["id"])
    with (if BuildQuotes.mem "id" cols_req then Some "id" else None).
  change (BuildQuotes.pick cols_req ["quote_product_id"])
    with (if BuildQuotes.mem "quote_product_id" cols_req then Some "quote_product_id" else None).
  rewrite Hid, Hqp. reflexivity.
Qed.

Lemma offer_part_join (src : Source) (cols_off : list string) (req_id : option string) :
  catalog src "public" "oro_sale_quote_prod_offer" = Some cols_off ->
  BuildQuotes.mem "id" cols_off = true ->
  BuildQuotes.mem "quote_product_request_id" cols_off = true ->
  exists sel,
    BuildQuotes.offer_part src (Some req_id)
    = Ok ([Sql.render (offer_join "quote_product_request_id" "id" req_id)], sel).
Proof.
  intros Hcat Hid Hreq. unfold BuildQuotes.offer_part. rewrite Hcat. cbv zeta.
  change (BuildQuotes.pick cols_off ["id"])
    with (if BuildQuotes.mem "id" cols_off then Some "id" else None).
  change (BuildQuotes.pick cols_off ["quote_product_request_id"])
    with (if BuildQuotes.mem "quote_product_request_id" cols_off
          then Some "quote_product_request_id" else None).
  rewrite Hid, Hreq. eexists. reflexivity.
Qed.




(** ** JSON text: strings *)

Lemma chars_text (t : Json.Text) : Json.chars (Json.text t) = t.
Proof. apply list_ascii_of_string_of_list_ascii. Qed.

Lemma text_chars (s : string) : Json.text (Json.chars s) = s.
Proof. apply string_of_list_ascii_of_string. Qed.

(** An escaped character, decoded, is the character. *)
Lemma scanstring_escape (c : ascii) (tail : Json.Text) :
  Json.scanstring (Json.escape_char c ++ tail) = Json.prepend [c] (Json.scanstring tail).
Proof.
  destruct c as [[] [] [] [] [] [] [] []];
    try reflexivity;
    cbn;
    destruct tail as [|? [|? [|? [|? [|? [|? ?]]]]]]; reflexivity.
Qed.

Lemma scanstring_encode_body (s rest : Json.Text) :
  Json.scanstring (Json.encode_body s ++ dquote :: rest) = Some (s, rest).
Proof.
  induction s as [|c s IH]; [reflexivity|].
  unfold Json.encode_body in *. cbn [flat_map].
  rewrite <- app_assoc, scanstring_escape, IH. reflexivity.
Qed.

(** A string written by the encoder is read back by the decoder. *)
Lemma scanstring_encode_basestring (s : string) (rest : Json.Text) :
  exists body,
    Json.encode_basestring s ++ rest = dquote :: body
    /\ Json.scanstring body = Some (Json.chars s, rest).
Proof.
  exists (Json.encode_body (Json.chars s) ++ dquote :: rest). split.
  - unfold Json.encode_basestring. cbn [app]. now rewrite <- app_assoc.
  - apply scanstring_encode_body.
Qed.

(** ** JSON text: integers *)

Lemma is_digit_of_uint (d : Decimal.uint) :
  Forall (fun c => is_digit c = true) (Json.chars (NilEmpty.string_of_uint d)).
Proof. induction d; cbn; constructor; solve [reflexivity | assumption]. Qed.

Lemma span_digits_all (ds rest : Json.Text) :
  Forall (fun c => is_digit c = true) ds ->
  ends_number rest = true ->
  Json.span_digits (ds ++ rest) = (ds, rest).
Proof.
  intros Hds Hrest. induction Hds as [|c ds Hc _ IH]; cbn [app].
  - destruct rest as [|c rest]; [reflexivity|].
    cbn [ends_number] in Hrest. cbn [Json.span_digits].
    destruct (is_digit c); [discriminate Hrest | reflexivity].
  - cbn [Json.span_digits]. now rewrite Hc, IH.
Qed.

(** The decimal digits of a positive number do not start with a zero. *)
Lemma pos_to_uint_head (p : positive) :
  match Pos.to_uint p with
  | Decimal.Nil | Decimal.D0 _ => False
  | _ => True
  end.
Proof.
  pose proof (DecimalPos.Unsigned.to_of (Pos.to_uint p)) as Hnorm.
  rewrite DecimalPos.Unsigned.of_to in Hnorm. cbn [N.to_uint] in Hnorm.
  pose proof (DecimalPos.Unsigned.to_uint_nonzero p) as Hnz.
  pose proof (DecimalFacts.nzhead_nonzero (Pos.to_uint p)) as Hhead.
  unfold Decimal.unorm in Hnorm.
  destruct (Decimal.nzhead (Pos.to_uint p)) eqn:Hn;
    rewrite Hnorm in *; try exact I; try (now apply Hnz).
  now apply (Hhead u).
Qed.

Lemma chars_app (a b : string) : Json.chars (a +:+ b) = Json.chars a ++ Json.chars b.
Proof.
  induction a as [|x a IH]; [reflexivity|].
  change (x :: Json.chars (a +:+ b) = x :: (Json.chars a ++ Json.chars b)).
  now rewrite IH.
Qed.

Lemma scan_digits_nonzero (d : Decimal.uint) (sign rest : Json.Text) :
  match d with Decimal.Nil | Decimal.D0 _ => False | _ => True end ->
  ends_number rest = true ->
  match Json.chars (NilEmpty.string_of_uint d) ++ rest with
  | c :: r =>
      if Ascii.eqb c "0" then None
      else if is_digit c then
             let '(ds, rest') := Json.span_digits r in Some (sign ++ c :: ds, rest')
           else None
  | [] => None
  end = Some (sign ++ Json.chars (NilEmpty.string_of_uint d), rest).
Proof.
  intros Hd Hrest.
  destruct d; try contradiction; cbn;
    rewrite (span_digits_all _ _ (is_digit_of_uint _) Hrest); reflexivity.
Qed.

Lemma scan_integer_str_int (z : Z) (rest : Json.Text) :
  ends_number rest = true ->
  Json.scan_integer (Json.chars (str_int z) ++ rest) = Some (Json.chars (str_int z), rest).
Proof.
  intros Hrest. unfold str_int, Json.scan_integer.
  destruct z as [|p|p]; cbn [Z.to_int NilZero.string_of_int].
  - reflexivity.
  - pose proof (pos_to_uint_head p) as Hh.
    assert (Hs : NilZero.string_of_uint (Pos.to_uint p) = NilEmpty.string_of_uint (Pos.to_uint p))
      by (destruct (Pos.to_uint p); [contradiction | reflexivity ..]).
    rewrite Hs.
    assert (Hfirst : match Json.chars (NilEmpty.string_of_uint (Pos.to_uint p)) ++ rest with
                     | c :: _ => Ascii.eqb c "-" = false
                     | [] => False
                     end)
      by (destruct (Pos.to_uint p); try contradiction; reflexivity).
    pose proof (scan_digits_nonzero (Pos.to_uint p) [] rest Hh Hrest) as Hscan.
    destruct (Json.chars (NilEmpty.string_of_uint (Pos.to_uint p)) ++ rest) as [|c r];
      [contradiction|].
    rewrite Hfirst.
    destruct (Ascii.eqb c "0"); [discriminate Hscan|]. exact Hscan.
  - pose proof (pos_to_uint_head p) as Hh.
    assert (Hs : NilZero.string_of_uint (Pos.to_uint p) = NilEmpty.string_of_uint (Pos.to_uint p))
      by (destruct (Pos.to_uint p); [contradiction | reflexivity ..]).
    rewrite Hs.
    change (Json.chars (String "-" (NilEmpty.string_of_uint (Pos.to_uint p))))
      with ("-"%char :: Json.chars (NilEmpty.string_of_uint (Pos.to_uint p))).
    cbn [app]. cbn [Ascii.eqb Bool.eqb].
    pose proof (scan_digits_nonzero (Pos.to_uint p) ["-"%char] rest Hh Hrest) as Hscan.
    destruct (Json.chars (NilEmpty.string_of_uint (Pos.to_uint p)) ++ rest) as [|c r];
      [discriminate Hscan|].
    destruct (Ascii.eqb c "0"); [discriminate Hscan|]. exact Hscan.
Qed.

Lemma int_of_text_str_int (z : Z) : Json.int_of_text (Json.chars (str_int z)) = z.
Proof.
  unfold Json.int_of_text, str_int. rewrite text_chars.
  rewrite NilZero.isi.
  - apply DecimalZ.of_to.
  - destruct z; cbn; try discriminate.
    intros H. injection H as H. now apply (DecimalPos.Unsigned.to_uint_nonnil p).
  - destruct z; cbn; try discriminate.
    intros H. injection H as H. now apply (DecimalPos.Unsigned.to_uint_nonnil p).
Qed.

Lemma no_fraction (rest : Json.Text) :
  ends_number rest = true ->
  Json.scan_frac rest = ([], rest) /\ Json.scan_exp rest = ([], rest).
Proof.
  intros H. destruct rest as [|c rest]; [split; reflexivity|].
  cbn in H. unfold Json.scan_frac, Json.scan_exp.
  destruct (Ascii.eqb c "."), (Ascii.eqb c "e"), (Ascii.eqb c "E");
    rewrite ?andb_false_r in H; try discriminate H; split; reflexivity.
Qed.

(** An integer written by the encoder is read back by the decoder. *)
Lemma scan_number_str_int (z : Z) (rest : Json.Text) :
  ends_number rest = true ->
  Json.scan_number (Json.chars (str_int z) ++ rest) = Some (PInt z, rest).
Proof.
  intros Hrest. unfold Json.scan_number.
  rewrite (scan_integer_str_int z rest Hrest).
  destruct (no_fraction rest Hrest) as [-> ->].
  now rewrite int_of_text_str_int.
Qed.

(** An integer literal starts with a digit or the minus sign. *)
Lemma str_int_head (z : Z) :
  exists c t, Json.chars (str_int z) = c :: t /\ (is_digit c = true \/ c = "-"%char).
Proof.
  unfold str_int. destruct z as [|p|p]; cbn [Z.to_int NilZero.string_of_int].
  - exists "0"%char, []. split; [reflexivity | now left].
  - pose proof (pos_to_uint_head p) as Hh.
    destruct (Pos.to_uint p) eqn:E; try contradiction;
      eexists _, _; (split; [reflexivity | now left]).
  - eexists _, _. split; [reflexivity | now right].
Qed.

Lemma scan_once_number (fuel : nat) (c : ascii) (t : Json.Text) :
  is_digit c = true \/ c = "-"%char ->
  Json.scan_once (S fuel) (c :: t)
  = match Json.scan_number (c :: t) with
    | Some r => Some r
    | None =>
        if Ascii.eqb c "-" then Json.scan_constant "-Infinity" (PFloat "-Infinity") (c :: t)
        else None
    end.
Proof.
  intros [Hd | ->]; [|reflexivity].
  destruct c as [[] [] [] [] [] [] [] []]; try discriminate Hd; reflexivity.
Qed.

(** ** JSON text: dictionaries from pairs *)

Lemma dict_set_fresh (d : list (PyVal * PyVal)) (k : string) (v : PyVal) :
  (forall a, In a d -> Json.key_is k (fst a) = false) ->
  Json.dict_set d k v = d ++ [(PStr k, v)].
Proof.
  induction d as [|[k' v'] d IH]; intros H; [reflexivity|].
  cbn [Json.dict_set app].
  pose proof (H (k', v') (or_introl eq_refl)) as Hk. cbn [fst] in Hk.
  rewrite Hk, IH; [reflexivity|].
  intros a Ha. apply H. now right.
Qed.

Lemma distinct_keys_fresh (acc rest : list (PyVal * PyVal)) (k : string) (v : PyVal) :
  forallb (fun kv => is_str (fst kv)) acc = true ->
  distinct_keys (acc ++ (PStr k, v) :: rest) = true ->
  forall a, In a acc -> Json.key_is k (fst a) = false.
Proof.
  induction acc as [|[k' v'] acc IH]; intros Hstr Hd a Ha; [contradiction|].
  cbn in Hstr, Hd. apply andb_true_iff in Hstr as [Hk' Hstr].
  apply andb_true_iff in Hd as [Hnot Hd].
  destruct Ha as [<-|Ha]; [|now apply (IH Hstr Hd)].
  destruct k' as [| | | |s| | | |]; try discriminate Hk'. cbn.
  apply negb_true_iff in Hnot.
  destruct (String.eqb s k) eqn:E; [|reflexivity].
  apply String.eqb_eq in E. subst s.
  rewrite existsb_app in Hnot. cbn in Hnot.
  rewrite String.eqb_refl in Hnot. cbn in Hnot.
  now rewrite orb_true_r in Hnot.
Qed.

Lemma dict_of_pairs_from (kvs acc : list (PyVal * PyVal)) :
  forallb (fun kv => is_str (fst kv)) acc = true ->
  forallb (fun kv => is_str (fst kv)) kvs = true ->
  distinct_keys (acc ++ kvs) = true ->
  fold_left (fun d kv => Json.dict_set d (fst kv) (snd kv)) (pairs_of kvs) acc = acc ++ kvs.
Proof.
  revert acc. induction kvs as [|[k v] kvs IH]; intros acc Hacc Hkvs Hd.
  - cbn. now rewrite app_nil_r.
  - cbn in Hkvs. apply andb_true_iff in Hkvs as [Hk Hkvs].
    destruct k as [| | | |s| | | |]; try discriminate Hk.
    cbn [pairs_of map fold_left fst snd].
    rewrite (dict_set_fresh acc s v (distinct_keys_fresh acc kvs s v Hacc Hd)).
    change (fold_left (fun d kv => Json.dict_set d (fst kv) (snd kv)) (pairs_of kvs)
              (acc ++ [(PStr s, v)]) = acc ++ (PStr s, v) :: kvs).
    rewrite IH.
    + now rewrite <- app_assoc.
    + rewrite forallb_app, Hacc. reflexivity.
    + exact Hkvs.
    + now rewrite <- app_assoc.
Qed.

Lemma dict_of_pairs_native (kvs : list (PyVal * PyVal)) :
  forallb (fun kv => is_str (fst kv)) kvs = true ->
  distinct_keys kvs = true ->
  Json.dict_of_pairs (pairs_of kvs) = kvs.
Proof.
  intros Hstr Hd. unfold Json.dict_of_pairs.
  now rewrite (dict_of_pairs_from kvs [] eq_refl Hstr Hd).
Qed.

(** ** JSON text: values *)

Lemma PyVal_nested_ind (Q : PyVal -> Prop) :
  Q PNone -> (forall b, Q (PBool b)) -> (forall z, Q (PInt z)) ->
  (forall lit, Q (PFloat lit)) -> (forall s, Q (PStr s)) ->
  (forall t, Q (PTimestamp t)) ->
  (forall l, Forall Q l -> Q (PList l)) ->
  (forall l, Forall Q l -> Q (PTuple l)) ->
  (forall kvs, Forall (fun kv => Q (snd kv)) kvs -> Q (PDict kvs)) ->
  forall v, Q v.
Proof.
  intros HNone HBool HInt HFloat HStr HTs HList HTuple HDict.
  fix IH 1. intros [ |b|z|lit|s|t|l|l|kvs].
  - exact HNone.
  - apply HBool.
  - apply HInt.
  - apply HFloat.
  - apply HStr.
  - apply HTs.
  - apply HList. revert l. fix IHl 1. intros [|x l]; constructor; [apply IH | apply IHl].
  - apply HTuple. revert l. fix IHl 1. intros [|x l]; constructor; [apply IH | apply IHl].
  - apply HDict. revert kvs. fix IHl 1. intros [|kv kvs]; constructor; [apply IH | apply IHl].
Qed.

Lemma skip_ws_start (t : Json.Text) :
  starts_value t = true -> Json.skip_ws t = t.
Proof.
  destruct t as [|c t]; [reflexivity|]. cbn.
  destruct (Json.is_ws c); [discriminate | reflexivity].
Qed.

Lemma starts_value_app (t x : Json.Text) :
  starts_value t = true -> starts_value (t ++ x) = true.
Proof. destruct t; [discriminate | intros H; exact H]. Qed.

Lemma starts_value_not_close (t : Json.Text) :
  starts_value t = true -> exists c r, t = c :: r /\ Ascii.eqb c "]" = false.
Proof.
  destruct t as [|c r]; [discriminate|]. cbn. intros H.
  exists c, r. split; [reflexivity|].
  apply andb_true_iff in H as [_ H]. now apply negb_true_iff in H.
Qed.

Lemma length_str_int (z : Z) : 1 <= length (Json.chars (str_int z)).
Proof. destruct (str_int_head z) as (c & t & -> & _). cbn. lia. Qed.

Lemma reads_back_scalar (v : PyVal) (t : Json.Text) :
  (forall lvl, Json.dumps_at None lvl v = Some t) ->
  decode_calls v = 1 ->
  starts_value t = true ->
  (forall fuel rest, ends_number rest = true ->
     Json.scan_once (S fuel) (t ++ rest) = Some (v, rest)) ->
  reads_back v.
Proof.
  intros Hd Hcalls Hstart Hscan _ lvl t' Ht'.
  rewrite Hd in Ht'. injection Ht' as <-.
  split; [exact Hstart|]. split.
  - rewrite Hcalls. destruct t; [discriminate Hstart | cbn; lia].
  - intros fuel rest Hfuel Hrest. rewrite Hcalls in Hfuel.
    destruct fuel as [|fuel]; [lia|]. now apply Hscan.
Qed.

Lemma reads_back_int (z : Z) : reads_back (PInt z).
Proof.
  apply (reads_back_scalar _ (Json.chars (str_int z))).
  - reflexivity.
  - reflexivity.
  - destruct (str_int_head z) as (c & t & -> & [Hc | ->]); [|reflexivity].
    destruct c as [[] [] [] [] [] [] [] []]; try discriminate Hc; reflexivity.
  - intros fuel rest Hrest.
    destruct (str_int_head z) as (c & t & Heq & Hc).
    pose proof (scan_number_str_int z rest Hrest) as Hnum.
    rewrite Heq in *. cbn [app] in *.
    now rewrite (scan_once_number fuel c (t ++ rest) Hc), Hnum.
Qed.

Lemma reads_back_str (s : string) : reads_back (PStr s).
Proof.
  apply (reads_back_scalar _ (Json.encode_basestring s)).
  - reflexivity.
  - reflexivity.
  - reflexivity.
  - intros fuel rest _.
    destruct (scanstring_encode_basestring s rest) as (body & -> & Hbody).
    cbn. rewrite Hbody. now rewrite text_chars.
Qed.

Lemma list_sum_cons (a : nat) (l : list nat) : list_sum (a :: l) = a + list_sum l.
Proof. reflexivity. Qed.

(** The items of a non-empty array, after the opening bracket. *)
Lemma array_items_reads_back (items : list PyVal) :
  Forall reads_back items ->
  forall x lvl px parts,
    reads_back x ->
    json_native x = true ->
    forallb json_native items = true ->
    Json.dumps_at None lvl x = Some px ->
    Json.map_option (Json.dumps_at None lvl) items = Some parts ->
    let joined := Json.join_text (Json.chars ", ") (px :: parts) in
    starts_value joined = true /\
    list_sum (map (fun y => S (decode_calls y)) (x :: items)) <= S (length joined) /\
    forall fuel rest,
      list_sum (map (fun y => S (decode_calls y)) (x :: items)) <= fuel ->
      Json.array_items fuel (joined ++ "]"%char :: rest) = Some (x :: items, rest).
Proof.
  induction 1 as [|y items Hy _ IH]; intros x lvl px parts Hx Nx Nitems Dx Dparts.
  - cbn in Dparts. injection Dparts as <-. cbn zeta. cbn [Json.join_text].
    destruct (Hx Nx lvl px Dx) as (Hstart & Hlen & Hscan).
    split; [exact Hstart|]. split; [cbn; lia|].
    intros fuel rest Hfuel. cbn in Hfuel.
    destruct fuel as [|fuel]; [lia|]. cbn [Json.array_items].
    rewrite (Hscan fuel ("]"%char :: rest)) by (solve [lia | reflexivity]).
    reflexivity.
  - cbn [Json.map_option] in Dparts.
    destruct (Json.dumps_at None lvl y) as [py|] eqn:Dy; [|discriminate Dparts].
    destruct (Json.map_option (Json.dumps_at None lvl) items) as [pr|] eqn:Dr;
      [|discriminate Dparts].
    injection Dparts as <-.
    cbn [forallb] in Nitems. apply andb_true_iff in Nitems as [Ny Nitems].
    destruct (IH y lvl py pr Hy Ny Nitems Dy Dr) as (Hstart' & Hlen' & Hscan').
    destruct (Hx Nx lvl px Dx) as (Hstart & Hlen & Hscan).
    cbn zeta in *.
    change (Json.join_text (Json.chars ", ") (px :: py :: pr))
      with (px ++ Json.chars ", " ++ Json.join_text (Json.chars ", ") (py :: pr)).
    set (tail := Json.join_text (Json.chars ", ") (py :: pr)) in *.
    clearbody tail.
    split; [now apply starts_value_app|]. split.
    + rewrite !length_app. cbn [map] in *. rewrite !list_sum_cons in *.
      cbn [Json.chars list_ascii_of_string length]. lia.
    + intros fuel rest Hfuel. cbn [map] in Hfuel, Hlen', Hscan'.
      rewrite !list_sum_cons in *.
      destruct fuel as [|fuel]; [lia|]. cbn [Json.array_items].
      rewrite <- !app_assoc.
      rewrite (Hscan fuel (Json.chars ", " ++ tail ++ "]"%char :: rest))
        by (solve [lia | reflexivity]).
      cbn.
      rewrite (skip_ws_start (tail ++ "]"%char :: rest)) by (now apply starts_value_app).
      rewrite Hscan' by lia.
      reflexivity.
Qed.
(** ** JSON text: floats *)

Lemma span_digits_app (s rest d r : Json.Text) :
  ends_number rest = true ->
  Json.span_digits s = (d, r) ->
  Json.span_digits (s ++ rest) = (d, r ++ rest).
Proof.
  intros Hrest. revert d r. induction s as [|c s IH]; intros d r H.
  - cbn in H. injection H as <- <-. cbn [app].
    exact (span_digits_all [] rest (List.Forall_nil _) Hrest).
  - cbn [app Json.span_digits] in *. destruct (is_digit c).
    + destruct (Json.span_digits s) as [d' r'] eqn:E. injection H as <- <-.
      now rewrite (IH d' r' eq_refl).
    + now injection H as <- <-.
Qed.

Lemma scan_integer_app (s rest ip s1 : Json.Text) :
  ends_number rest = true ->
  Json.scan_integer s = Some (ip, s1) ->
  Json.scan_integer (s ++ rest) = Some (ip, s1 ++ rest).
Proof.
  intros Hrest. unfold Json.scan_integer.
  assert (Hdigits : forall sign t,
             match t with
             | c :: r =>
                 if Ascii.eqb c "0" then Some (sign ++ [c], r)
                 else if is_digit c then
                        let '(d, rest') := Json.span_digits r in Some (sign ++ c :: d, rest')
                      else None
             | [] => None
             end = Some (ip, s1) ->
             match t ++ rest with
             | c :: r =>
                 if Ascii.eqb c "0" then Some (sign ++ [c], r)
                 else if is_digit c then
                        let '(d, rest') := Json.span_digits r in Some (sign ++ c :: d, rest')
                      else None
             | [] => None
             end = Some (ip, s1 ++ rest)).
  { intros sign [|c r] H; [discriminate H|]. cbn [app].
    destruct (Ascii.eqb c "0"); [now injection H as <- <-|].
    destruct (is_digit c); [|discriminate H].
    destruct (Json.span_digits r) as [d r'] eqn:E. injection H as <- <-.
    now rewrite (span_digits_app r rest d r' Hrest E). }
  destruct s as [|c r]; [discriminate|]. cbn [app].
  destruct (Ascii.eqb c "-"); intros H;
    [exact (Hdigits [c] r H) | exact (Hdigits [] (c :: r) H)].
Qed.

Lemma scan_frac_app (s rest fr s2 : Json.Text) :
  ends_number rest = true ->
  Json.scan_frac s = (fr, s2) ->
  Json.scan_frac (s ++ rest) = (fr, s2 ++ rest).
Proof.
  intros Hrest H. destruct s as [|c r].
  - cbn in H. injection H as <- <-. exact (proj1 (no_fraction rest Hrest)).
  - cbn [app]. unfold Json.scan_frac in *. destruct (Ascii.eqb c ".").
    + destruct (Json.span_digits r) as [d r'] eqn:E.
      rewrite (span_digits_app r rest d r' Hrest E).
      destruct d; now injection H as <- <-.
    + now injection H as <- <-.
Qed.

(** An exponent that closes the literal is read the same with more text
    after it. *)
Lemma scan_exp_all (s rest ex : Json.Text) :
  ends_number rest = true ->
  Json.scan_exp s = (ex, []) ->
  Json.scan_exp (s ++ rest) = (ex, rest).
Proof.
  intros Hrest H. destruct s as [|c r].
  - cbn in H. injection H as <-. exact (proj2 (no_fraction rest Hrest)).
  - cbn [app]. unfold Json.scan_exp in *.
    destruct (Ascii.eqb c "e" || Ascii.eqb c "E"); [|discriminate H].
    destruct r as [|x r'].
    + cbn in H. discriminate H.
    + cbn [app]. destruct (Ascii.eqb x "+" || Ascii.eqb x "-").
      * destruct (Json.span_digits r') as [d r2] eqn:E.
        rewrite (span_digits_app r' rest d r2 Hrest E).
        destruct d; [discriminate H|]. now injection H as <- ->.
      * destruct (Json.span_digits (x :: r')) as [d r2] eqn:E.
        change (x :: r' ++ rest) with ((x :: r') ++ rest).
        rewrite (span_digits_app (x :: r') rest d r2 Hrest E).
        destruct d; [discriminate H|]. now injection H as <- ->.
Qed.

(** A number that is read as a float to its end is read the same with
    more text after it. *)
Lemma scan_number_float (s rest : Json.Text) (lit : string) :
  ends_number rest = true ->
  Json.scan_number s = Some (PFloat lit, []) ->
  Json.scan_number (s ++ rest) = Some (PFloat lit, rest).
Proof.
  intros Hrest. unfold Json.scan_number.
  destruct (Json.scan_integer s) as [[ip s1]|] eqn:Ei; [|discriminate].
  rewrite (scan_integer_app s rest ip s1 Hrest Ei).
  destruct (Json.scan_frac s1) as [fr s2] eqn:Ef.
  rewrite (scan_frac_app s1 rest fr s2 Hrest Ef).
  destruct (Json.scan_exp s2) as [ex s3] eqn:Ee.
  destruct fr as [|f fr]; destruct ex as [|e ex]; intros H; try discriminate H;
    injection H as <- ->; rewrite (scan_exp_all s2 rest _ Hrest Ee); reflexivity.
Qed.

Lemma scan_integer_head (s ip s1 : Json.Text) :
  Json.scan_integer s = Some (ip, s1) ->
  exists c t, s = c :: t /\ (is_digit c = true \/ c = "-"%char).
Proof.
  unfold Json.scan_integer. destruct s as [|c r]; [discriminate|].
  intros H. exists c, r. split; [reflexivity|].
  destruct (Ascii.eqb_spec c "-") as [->|_]; [now right|]. left.
  destruct (Ascii.eqb_spec c "0") as [->|_]; [reflexivity|].
  destruct (is_digit c); [reflexivity | discriminate H].
Qed.

Lemma float_literal_scan (lit : string) :
  float_literal lit = true ->
  Json.scan_number (Json.chars lit) = Some (PFloat lit, [])
  /\ exists c t, Json.chars lit = c :: t /\ (is_digit c = true \/ c = "-"%char).
Proof.
  unfold float_literal. intros H.
  destruct (Json.scan_number (Json.chars lit)) as [[v r]|] eqn:E; [|discriminate H].
  destruct v; try discriminate H. destruct r; [|discriminate H].
  apply String.eqb_eq in H. subst literal. split; [reflexivity|].
  unfold Json.scan_number in E.
  destruct (Json.scan_integer (Json.chars lit)) as [[ip s1]|] eqn:Ei; [|discriminate E].
  exact (scan_integer_head _ _ _ Ei).
Qed.

(** A float written by the encoder is read back by the decoder. *)
Lemma reads_back_float (lit : string) : reads_back (PFloat lit).
Proof.
  intros N lvl t Dt. cbn [json_native] in N. cbn [Json.dumps_at] in Dt.
  injection Dt as <-. unfold float_native in N.
  apply orb_true_iff in N as [N|N]; [apply orb_true_iff in N as [N|N]|].
  - destruct (float_literal_scan lit N) as (Hscan & c & r & Heq & Hc).
    rewrite Heq in *. split; [|split].
    + destruct Hc as [Hc | ->]; [|reflexivity].
      destruct c as [[] [] [] [] [] [] [] []]; try discriminate Hc; reflexivity.
    + cbn. lia.
    + intros fuel rest Hfuel Hrest. cbn [decode_calls] in Hfuel.
      destruct fuel as [|fuel]; [lia|]. cbn [app].
      rewrite (scan_once_number fuel c (r ++ rest) Hc).
      change (c :: r ++ rest) with ((c :: r) ++ rest).
      now rewrite (scan_number_float (c :: r) rest lit Hrest Hscan).
  - apply String.eqb_eq in N. subst lit. split; [reflexivity|]. split; [cbn; lia|].
    intros fuel rest Hfuel _. cbn [decode_calls] in Hfuel.
    destruct fuel as [|fuel]; [lia|]. reflexivity.
  - apply String.eqb_eq in N. subst lit. split; [reflexivity|]. split; [cbn; lia|].
    intros fuel rest Hfuel _. cbn [decode_calls] in Hfuel.
    destruct fuel as [|fuel]; [lia|]. reflexivity.
Qed.


Lemma join_text_cons (sep a b : Json.Text) (l : list Json.Text) :
  Json.join_text sep (a :: b :: l) = a ++ sep ++ Json.join_text sep (b :: l).
Proof. reflexivity. Qed.

Lemma map_option_total {A B : Type} (f : A -> option B) (l : list A) :
  Forall (fun x => exists y, f x = Some y) l ->
  exists ys, Json.map_option f l = Some ys.
Proof.
  induction 1 as [|x l [y Hy] _ [ys Hys]]; cbn.
  - now exists [].
  - rewrite Hy, Hys. now exists (y :: ys).
Qed.

(** The encoder accepts every JSON-native value. *)
Lemma dumps_at_native (v : PyVal) :
  json_native v = true ->
  forall indent lvl, exists t, Json.dumps_at indent lvl v = Some t.
Proof.
  induction v as [ |b|z|lit|s|t|l IHl|l IHl|kvs IHkvs] using PyVal_nested_ind;
    intros N indent lvl; try discriminate N.
  - now eexists.
  - destruct b; now eexists.
  - now eexists.
  - now eexists.
  - now eexists.
  - destruct l as [|x items]; [now eexists|].
    cbn [json_native] in N.
    destruct (map_option_total (Json.dumps_at indent (S lvl)) (x :: items)) as [parts Hparts].
    { rewrite List.Forall_forall in IHl |- *. intros y Hy. apply (IHl y Hy).
      rewrite forallb_forall in N. now apply N. }
    cbn [Json.dumps_at]. rewrite Hparts. now eexists.
  - destruct kvs as [|kv kvs]; [now eexists|].
    cbn [json_native] in N. apply andb_true_iff in N as [N _].
    destruct (map_option_total
                (fun kv : PyVal * PyVal =>
                   match Json.key_text (fst kv), Json.dumps_at indent (S lvl) (snd kv) with
                   | Some k', Some t => Some (Json.encode_basestring k' ++ Json.chars ": " ++ t)
                   | _, _ => None
                   end) (kv :: kvs)) as [parts Hparts].
    { rewrite List.Forall_forall in IHkvs |- *. intros [k v] Hkv.
      rewrite forallb_forall in N. specialize (N _ Hkv). cbn [fst snd] in *.
      apply andb_true_iff in N as [Sk Nv].
      destruct k; try discriminate Sk.
      destruct (IHkvs _ Hkv Nv indent (S lvl)) as [t Ht]. cbn [snd] in Ht.
      cbn [Json.key_text]. rewrite Ht. now eexists. }
    cbn [Json.dumps_at]. rewrite Hparts. now eexists.
Qed.

(** The members of a non-empty object, after the opening quote of the
    first key. *)
Lemma object_items_reads_back (kvs : list (PyVal * PyVal)) :
  Forall (fun kv => reads_back (snd kv)) kvs ->
  forall k v lvl pv parts,
    reads_back v ->
    json_native v = true ->
    forallb (fun kv => is_str (fst kv) && json_native (snd kv)) kvs = true ->
    Json.dumps_at None lvl v = Some pv ->
    Json.map_option
      (fun kv : PyVal * PyVal =>
         match Json.key_text (fst kv), Json.dumps_at None lvl (snd kv) with
         | Some k', Some t => Some (Json.encode_basestring k' ++ Json.chars ": " ++ t)
         | _, _ => None
         end) kvs = Some parts ->
    exists body,
      Json.join_text (Json.chars ", ")
        ((Json.encode_basestring k ++ Json.chars ": " ++ pv) :: parts) = dquote :: body
      /\ list_sum (map (fun kv => S (decode_calls (snd kv))) ((PStr k, v) :: kvs))
         <= S (length body)
      /\ forall fuel rest,
           list_sum (map (fun kv => S (decode_calls (snd kv))) ((PStr k, v) :: kvs)) <= fuel ->
           Json.object_items fuel (body ++ "}"%char :: rest)
           = Some (pairs_of ((PStr k, v) :: kvs), rest).
Proof.
  induction 1 as [|[k2 v2] kvs Hv2 _ IH]; intros k v lvl pv parts Hv Nv Nkvs Dv Dparts.
  - cbn in Dparts. injection Dparts as <-. cbn [Json.join_text].
    destruct (Hv Nv lvl pv Dv) as (Hstart & Hlen & Hscan).
    exists (Json.encode_body (Json.chars k) ++ [dquote] ++ Json.chars ": " ++ pv).
    split; [unfold Json.encode_basestring; cbn [app]; now rewrite <- !app_assoc|].
    split; [cbn [map snd]; rewrite list_sum_cons, !length_app; cbn; lia|].
    intros fuel rest Hfuel. cbn [map snd] in Hfuel. rewrite list_sum_cons in Hfuel.
    destruct fuel as [|fuel]; [lia|]. cbn [Json.object_items].
    rewrite <- !app_assoc. cbn [app].
    rewrite scanstring_encode_body. cbn.
    rewrite (skip_ws_start (pv ++ "}"%char :: rest)) by (now apply starts_value_app).
    rewrite (Hscan fuel ("}"%char :: rest)) by (solve [lia | reflexivity]).
    cbn. now rewrite text_chars.
  - cbn [Json.map_option fst snd] in Dparts.
    cbn [forallb fst snd] in Nkvs. apply andb_true_iff in Nkvs as [Nk2 Nkvs].
    apply andb_true_iff in Nk2 as [Sk2 Nv2].
    destruct k2 as [| | | |s2| | | |]; try discriminate Sk2.
    cbn [Json.key_text] in Dparts.
    destruct (Json.dumps_at None lvl v2) as [pv2|] eqn:Dv2; [|discriminate Dparts].
    match type of Dparts with
    | match ?m with _ => _ end = _ => destruct m as [pr|] eqn:Dr; [|discriminate Dparts]
    end.
    injection Dparts as <-.
    destruct (IH s2 v2 lvl pv2 pr Hv2 Nv2 Nkvs Dv2 Dr) as (body2 & Hjoin2 & Hlen2 & Hscan2).
    destruct (Hv Nv lvl pv Dv) as (Hstart & Hlen & Hscan).
    rewrite join_text_cons.
    match goal with
    | |- context [Json.join_text ?sep (?m :: pr)] =>
        change (Json.join_text sep (m :: pr))
          with (Json.join_text (Json.chars ", ")
                  ((Json.encode_basestring s2 ++ Json.chars ": " ++ pv2) :: pr))
    end.
    rewrite Hjoin2.
    exists (Json.encode_body (Json.chars k) ++ [dquote] ++ Json.chars ": " ++ pv
              ++ Json.chars ", " ++ dquote :: body2).
    split; [unfold Json.encode_basestring; cbn [app]; now rewrite <- !app_assoc|].
    cbn [map snd] in *. rewrite !list_sum_cons in *.
    split; [rewrite !length_app; cbn; rewrite ?length_app; cbn; lia|].
    intros fuel rest Hfuel.
    destruct fuel as [|fuel]; [lia|]. cbn [Json.object_items].
    rewrite <- !app_assoc. cbn [app].
    rewrite scanstring_encode_body. cbn.
    rewrite (skip_ws_start (pv ++ ","%char :: " "%char :: dquote :: body2 ++ "}"%char :: rest))
      by (now apply starts_value_app).
    rewrite (Hscan fuel (","%char :: " "%char :: dquote :: body2 ++ "}"%char :: rest))
      by (solve [lia | reflexivity]).
    cbn. rewrite Hscan2 by lia.
    cbn. now rewrite text_chars.
Qed.

(** Every value is read back as it was written, when it is JSON-native. *)
Lemma reads_back_all (v : PyVal) : reads_back v.
Proof.
  induction v as [ |b|z|lit|s|t|l IHl|l IHl|kvs IHkvs] using PyVal_nested_ind.
  - apply (reads_back_scalar _ (Json.chars "null")); try reflexivity.
  - destruct b.
    + apply (reads_back_scalar _ (Json.chars "true")); try reflexivity.
    + apply (reads_back_scalar _ (Json.chars "false")); try reflexivity.
  - apply reads_back_int.
  - apply reads_back_float.
  - apply reads_back_str.
  - intros N. discriminate N.
  - destruct l as [|x items].
    + apply (reads_back_scalar _ (Json.chars "[]")); try reflexivity.
    + intros N lvl t Dt. cbn [json_native forallb] in N.
      apply andb_true_iff in N as [Nx Nitems].
      apply Forall_cons_iff in IHl as [Hx Hitems].
      cbn [Json.dumps_at Json.map_option] in Dt.
      destruct (Json.dumps_at None (S lvl) x) as [px|] eqn:Dx; [|discriminate Dt].
      destruct (Json.map_option (Json.dumps_at None (S lvl)) items) as [parts|] eqn:Dparts;
        [|discriminate Dt].
      assert (Ht : t = "["%char :: Json.join_text (Json.chars ", ") (px :: parts) ++ ["]"%char])
        by (injection Dt as <-; reflexivity).
      clear Dt. subst t.
      destruct (array_items_reads_back items Hitems x (S lvl) px parts Hx Nx Nitems Dx Dparts)
        as (Hstart & Hlen & Hscan).
      cbn zeta in *.
      set (joined := Json.join_text (Json.chars ", ") (px :: parts)) in *. clearbody joined.
      split; [reflexivity|]. split.
      * cbn [decode_calls length]. rewrite length_app. cbn [length]. lia.
      * intros fuel rest Hfuel _. cbn [decode_calls] in Hfuel.
        destruct fuel as [|fuel]; [lia|].
        cbn [app]. rewrite <- app_assoc. cbn [app].
        assert (Hstart' : starts_value (joined ++ "]"%char :: rest) = true)
          by (now apply starts_value_app).
        destruct (starts_value_not_close _ Hstart') as (c & r & Heq & Hc).
        pose proof (skip_ws_start _ Hstart') as Hskip.
        change (Json.scan_once (S fuel) ("["%char :: joined ++ "]"%char :: rest))
          with (match Json.skip_ws (joined ++ "]"%char :: rest) with
                | c1 :: r1 =>
                    if Ascii.eqb c1 "]" then Some (PList [], r1)
                    else match Json.array_items fuel (c1 :: r1) with
                         | Some (items', rest') => Some (PList items', rest')
                         | None => None
                         end
                | [] => None
                end).
        rewrite Hskip, Heq, Hc, <- Heq, Hscan by lia. reflexivity.
  - intros N. discriminate N.
  - destruct kvs as [|[k v] kvs].
    + apply (reads_back_scalar _ (Json.chars "{}")); try reflexivity.
    + intros N lvl t Dt. cbn [json_native] in N.
      apply andb_true_iff in N as [Nall Ndist].
      pose proof Nall as Nall'.
      cbn [forallb fst snd] in Nall. apply andb_true_iff in Nall as [Nkv Nkvs].
      apply andb_true_iff in Nkv as [Sk Nv].
      destruct k as [| | | |s| | | |]; try discriminate Sk.
      apply Forall_cons_iff in IHkvs as [Hv Hkvs]. cbn [snd] in Hv.
      cbn [Json.dumps_at Json.map_option fst snd Json.key_text] in Dt.
      destruct (Json.dumps_at None (S lvl) v) as [pv|] eqn:Dv; [|discriminate Dt].
      match type of Dt with
      | match (match ?m with _ => _ end) with _ => _ end = _ =>
          destruct m as [parts|] eqn:Dparts; [|discriminate Dt]
      end.
      assert (Ht : t = "{"%char :: Json.join_text (Json.chars ", ")
                                     ((Json.encode_basestring s ++ Json.chars ": " ++ pv) :: parts)
                                   ++ ["}"%char])
        by (injection Dt as <-; reflexivity).
      clear Dt. subst t.
      destruct (object_items_reads_back kvs Hkvs s v (S lvl) pv parts Hv Nv Nkvs Dv Dparts)
        as (body & Hjoin & Hlen & Hscan).
      rewrite Hjoin.
      split; [reflexivity|]. split.
      * cbn [decode_calls length]. rewrite length_app. cbn [length]. lia.
      * intros fuel rest Hfuel _. cbn [decode_calls] in Hfuel.
        destruct fuel as [|fuel]; [lia|].
        cbn [app]. rewrite <- app_assoc. cbn.
        rewrite Hscan by lia.
        replace (Json.dict_of_pairs (pairs_of ((PStr s, v) :: kvs))) with ((PStr s, v) :: kvs);
          [reflexivity|].
        symmetry. apply dict_of_pairs_native; [|exact Ndist].
        rewrite forallb_forall in Nall' |- *. intros kv Hkv.
        specialize (Nall' kv Hkv). now apply andb_true_iff in Nall' as [? _].
Qed.

(** The round trip of [json.dumps] and [json.loads] on a JSON-native
    value. *)
Lemma loads_dumps (v : PyVal) :
  json_native v = true ->
  exists s, Json.dumps v = Ok s /\ Json.loads s = Ok v.
Proof.
  intros N. unfold Json.dumps.
  destruct (dumps_at_native v N None 0) as [t Dt]. rewrite Dt.
  destruct (reads_back_all v N 0 t Dt) as (Hstart & Hlen & Hscan).
  exists (Json.text t). split; [reflexivity|].
  unfold Json.loads. rewrite chars_text.
  rewrite (skip_ws_start t Hstart).
  specialize (Hscan (S (length t)) [] ltac:(lia) eq_refl).
  rewrite app_nil_r in Hscan. rewrite Hscan. reflexivity.
Qed.

(** ** Traces *)

Lemma events_since_app (w w' : World) (evs : list Event) :
  history w' = history w ++ evs -> events_since w w' = evs.
Proof.
  intros H. unfold events_since. rewrite H.
  rewrite drop_app_length. reflexivity.
Qed.

Lemma commit_follows_export_app (fact : string) (a b : list Event) (exported : bool) :
  commit_follows_export fact exported (a ++ b)
  = commit_follows_export fact exported a
    && commit_follows_export fact (exported || existsb (is_export_returned fact) a) b.
Proof.
  revert exported. induction a as [|ev a IH]; intros exported; cbn.
  - now rewrite orb_false_r.
  - rewrite IH, <- !andb_assoc, <- orb_assoc. reflexivity.
Qed.

Lemma commit_follows_export_quiet (fact : string) (evs : list Event) (exported : bool) :
  forallb quiet_event evs = true -> commit_follows_export fact exported evs = true.
Proof.
  revert exported. induction evs as [|ev evs IH]; intros exported H; [reflexivity|].
  cbn in H |- *. apply andb_true_iff in H as [Hev H].
  rewrite (IH _ H), andb_true_r.
  destruct ev; try reflexivity. discriminate Hev.
Qed.

Lemma commit_follows_export_exported (fact : string) (evs : list Event) :
  commit_follows_export fact true evs = true.
Proof.
  induction evs as [|ev evs IH]; [reflexivity|].
  cbn. rewrite IH, andb_true_r. destruct ev; try reflexivity. apply orb_true_r.
Qed.

Lemma export_returned_In (fact : string) (evs : list Event) :
  existsb (is_export_returned fact) evs = true <-> In (ExportReturned fact) evs.
Proof.
  rewrite existsb_exists. split.
  - intros [ev [Hin Hev]]. destruct ev; try discriminate Hev.
    cbn in Hev. apply String.eqb_eq in Hev. now subst.
  - intros Hin. exists (ExportReturned fact). split; [exact Hin|]. cbn. apply String.eqb_refl.
Qed.

(** The propositional reading of [commit_follows_export]. *)
Lemma commit_follows_export_sound (fact : string) (evs : list Event) (exported : bool) :
  commit_follows_export fact exported evs = true ->
  forall pre wm post,
    evs = pre ++ WatermarkWritten fact wm :: post ->
    exported = true \/ In (ExportReturned fact) pre.
Proof.
  intros H pre wm post ->.
  rewrite commit_follows_export_app in H. apply andb_true_iff in H as [_ H].
  cbn in H. rewrite String.eqb_refl in H. cbn in H.
  apply andb_true_iff in H as [H _].
  apply orb_true_iff in H as [H|H]; [now left|].
  right. now apply export_returned_In.
Qed.

Lemma quiet_not_error (evs : list Event) (msg : string) :
  forallb quiet_event evs = true -> ~ In (Log ERROR msg) evs.
Proof.
  intros H Hin. rewrite forallb_forall in H. specialize (H _ Hin). discriminate H.
Qed.

Lemma quiet_no_watermark (fact : string) (evs : list Event) :
  forallb quiet_event evs = true -> watermarks_written fact evs = [].
Proof.
  induction evs as [|ev evs IH]; intros H; [reflexivity|].
  cbn in H. apply andb_true_iff in H as [Hev H].
  unfold watermarks_written in *. cbn.
  destruct ev; try discriminate Hev; cbn; now apply IH.
Qed.

Lemma watermarks_written_app (fact : string) (a b : list Event) :
  watermarks_written fact (a ++ b) = watermarks_written fact a ++ watermarks_written fact b.
Proof. unfold watermarks_written. apply omap_app. Qed.

(** ** The watermark store *)

Lemma write_watermark_run (fact wm : string) (w : World) :
  write_watermark fact wm w
  = if writable (state_dir w !! fact) then
      (Ok tt, mkWorld (<[fact := TextFile (watermark_file wm)]> (state_dir w))
                      (parquet_dir w) (csv_dir w)
                      (history w ++ [WatermarkWritten fact wm]))
    else (Raise (Exc "OSError" "cannot write the file"), w).
Proof.
  unfold write_watermark, write_text.
  change (Json.dumps_indent 2 (PDict [(PStr "watermark", PStr wm)]))
    with (Ok (watermark_file wm)).
  unfold bind, lift. now destruct (writable (state_dir w !! fact)).
Qed.

Lemma writable_spec (n : option FileNode) :
  writable n = true <-> n <> Some Unreadable.
Proof.
  destruct n as [[c|]|]; cbn; split; intros H; try reflexivity; try discriminate;
    try congruence.
Qed.

Lemma dict_get_missing (d : list (PyVal * PyVal)) (k : string) :
  (forall kv, In kv d -> fst kv <> PStr k) -> dict_get d k = PNone.
Proof.
  intros H. unfold dict_get.
  destruct (find _ d) as [kv|] eqn:E; [|reflexivity].
  apply find_some in E as [Hin Hk]. exfalso. apply (H kv Hin).
  destruct (fst kv); try discriminate Hk. cbn in Hk.
  apply String.eqb_eq in Hk. now subst.
Qed.

(** [read_watermark] neither raises nor changes the world. *)
Lemma read_watermark_returns (fact : string) (w : World) :
  exists v, read_watermark fact w = (Ok v, w).
Proof.
  unfold read_watermark. destruct (state_dir w !! fact) as [p|]; [|now eexists].
  unfold try_except, bind, lift, ret.
  destruct (read_text p) as [txt|e]; [|now eexists].
  destruct (Json.loads txt) as [data|e]; [|now eexists].
  destruct (get_watermark data) as [v|e]; now eexists.
Qed.

(** ** The exporters *)

Lemma write_outputs_effect (env : Env) (name : string) (df : DataFrame) (w : World) :
  exists evs,
    state_dir (snd (write_outputs env name df w)) = state_dir w
    /\ history (snd (write_outputs env name df w)) = history w ++ evs
    /\ forallb quiet_event evs = true
    /\ ~ In (ExportReturned name) evs.
Proof.
  unfold write_outputs, bind, ret, to_parquet, to_csv, logging, emit.
  destruct (EXPORTAR_PARQUET env), (EXPORTAR_CSV env);
    try destruct (to_parquet_raises env name df);
    try destruct (to_csv_raises env name df); cbn;
    rewrite <- ?app_assoc; cbn [app];
    (eexists; split; [reflexivity|]; split;
       [first [reflexivity | symmetry; apply app_nil_r]|]; split; [reflexivity|]);
    cbn; intros H; repeat (destruct H as [H|H]; [discriminate H|]); exact H.
Qed.

Lemma export_shape (name : string) (df' : DataFrame) (body : M unit) :
  (forall w, exists evs,
      state_dir (snd (body w)) = state_dir w
      /\ history (snd (body w)) = history w ++ evs
      /\ forallb quiet_event evs = true
      /\ ~ In (ExportReturned name) evs) ->
  forall w,
    exists evs,
      state_dir (snd (bind body (fun _ => bind (emit (ExportReturned name)) (fun _ => ret df')) w))
      = state_dir w
      /\ history (snd (bind body (fun _ => bind (emit (ExportReturned name)) (fun _ => ret df')) w))
         = history w ++ evs
      /\ forallb quiet_event evs = true
      /\ (is_ok (fst (bind body (fun _ => bind (emit (ExportReturned name)) (fun _ => ret df')) w))
          = true -> In (ExportReturned name) evs).
Proof.
  intros Hbody w. destruct (Hbody w) as (evs & Hs & Hh & Hq & _).
  unfold bind, emit, ret. destruct (body w) as [[[]|e] w1]; cbn in *.
  - exists (evs ++ [ExportReturned name]). split; [exact Hs|]. split.
    + now rewrite Hh, <- app_assoc.
    + split; [rewrite forallb_app, Hq; reflexivity|].
      intros _. apply in_or_app. right. now left.
  - exists evs. repeat split; try assumption. discriminate.
Qed.

Lemma logging_effect (name : string) (lvl : Level) (msg : string) :
  lvl <> ERROR ->
  forall w, exists evs,
    state_dir (snd (logging lvl msg w)) = state_dir w
    /\ history (snd (logging lvl msg w)) = history w ++ evs
    /\ forallb quiet_event evs = true
    /\ ~ In (ExportReturned name) evs.
Proof.
  intros Hl w. exists [Log lvl msg]. cbn. repeat split.
  - destruct lvl; try reflexivity. contradiction.
  - intros [H|[]]. discriminate H.
Qed.

(** A sanitization that raises ends the exporter before anything is
    written. *)
Lemma sanitize_then_export (env : Env) (name : string) (r : Result DataFrame)
    (ret_of : DataFrame -> DataFrame) (w : World) :
  exists evs,
    let out := bind (lift r)
                 (fun d => bind (write_outputs env name d)
                             (fun _ => bind (emit (ExportReturned name))
                                         (fun _ => ret (ret_of d)))) w in
    state_dir (snd out) = state_dir w
    /\ history (snd out) = history w ++ evs
    /\ forallb quiet_event evs = true
    /\ (is_ok (fst out) = true -> In (ExportReturned name) evs).
Proof.
  destruct r as [d|e].
  - apply (export_shape name (ret_of d) (write_outputs env name d)).
    intros w'. apply write_outputs_effect.
  - exists []. cbn. rewrite app_nil_r. repeat split. discriminate.
Qed.

Lemma facts_export_contract (env : Env) : export_contract (BuildFacts.export_table env).
Proof.
  intros df name w. unfold BuildFacts.export_table.
  destruct (df_empty df).
  - apply export_shape. intros w'. apply logging_effect. discriminate.
  - apply (sanitize_then_export env name _ (fun d => d)).
Qed.

Lemma quotes_export_contract (env : Env) : export_contract (BuildQuotes.export_table env).
Proof.
  intros df name w. unfold BuildQuotes.export_table.
  destruct (df_empty df).
  - apply export_shape. intros w'. apply logging_effect. discriminate.
  - apply (sanitize_then_export env name _ (fun _ => df)).
Qed.

(** What an exporter returns: the frame, sanitized by the one that works in
    place. *)
Lemma facts_export_returns (env : Env) (df df' : DataFrame) (name : string) (w : World) :
  fst (BuildFacts.export_table env df name w) = Ok df' ->
  if df_empty df then df' = df else sanitize_dataframe env df = Ok df'.
Proof.
  unfold BuildFacts.export_table, bind, ret, emit, logging, lift.
  destruct (df_empty df); cbn.
  - now intros [= <-].
  - destruct (sanitize_dataframe env df) as [d|e]; [|discriminate].
    destruct (write_outputs env name d w) as [[[]|e] w1]; cbn;
      [now intros [= <-] | discriminate].
Qed.

Lemma quotes_export_returns (env : Env) (df df' : DataFrame) (name : string) (w : World) :
  fst (BuildQuotes.export_table env df name w) = Ok df' -> df' = df.
Proof.
  unfold BuildQuotes.export_table, bind, ret, emit, logging, lift.
  destruct (df_empty df); cbn.
  - now intros [= <-].
  - destruct (sanitize_dataframe env _) as [d|e]; [|discriminate].
    destruct (write_outputs env name d w) as [[[]|e] w1]; cbn;
      [now intros [= <-] | discriminate].
Qed.

(** An empty frame is not written anywhere: the exporter logs a warning
    and returns. *)
Lemma export_empty (env : Env) (df : DataFrame) (name : string) (w : World) :
  df_empty df = true ->
  BuildFacts.export_table env df name w
  = (Ok df, mkWorld (state_dir w) (parquet_dir w) (csv_dir w)
                    (history w ++ [Log WARNING (name +:+ ": sin filas (no se exporta).");
                                   ExportReturned name]))
  /\ BuildQuotes.export_table env df name w = BuildFacts.export_table env df name w.
Proof.
  intros He. unfold BuildFacts.export_table, BuildQuotes.export_table. rewrite He.
  unfold bind, ret, emit, logging. cbn. rewrite <- app_assoc. split; reflexivity.
Qed.

(** ** The guarded block *)

Lemma guarded_intro (fact : string) (w w' : World) (r : Result unit) (evs : list Event) :
  r = Ok tt ->
  history w' = history w ++ evs ->
  commit_follows_export fact false evs = true ->
  (~ In (ExportReturned fact) evs ->
     state_dir w' = state_dir w /\ exists msg, In (Log ERROR msg) evs) ->
  (forall msg, In (Log ERROR msg) evs -> state_dir w' = state_dir w) ->
  (forall other, other <> fact -> state_dir w' !! other = state_dir w !! other) ->
  guarded fact w (r, w').
Proof.
  intros Hr Hh Hc Hne Herr Hother. unfold guarded. cbn [fst snd].
  rewrite (events_since_app w w' evs Hh).
  split; [exact Hr|]. split; [exact Hh|]. split; [|split; [exact Hne|split; assumption]].
  intros pre wm post Heq.
  destruct (commit_follows_export_sound fact evs false Hc pre wm post Heq) as [H|H];
    [discriminate H | exact H].
Qed.

Lemma add_events_nil (w : World) : add_events w [] = w.
Proof. destruct w. unfold add_events. cbn. now rewrite app_nil_r. Qed.

Lemma add_events_app (w : World) (a b : list Event) :
  add_events (add_events w a) b = add_events w (a ++ b).
Proof. unfold add_events. cbn. now rewrite app_assoc. Qed.

(** The block, step by step. *)
Lemma guarded_block_steps (env : Env) (src : Source)
    (export : DataFrame -> string -> M DataFrame)
    (fact q : string) (params : Params) (incr : bool) (cols : list string) (w : World) :
  guarded_block env src export fact q params incr cols w
  = let failed e := Log ERROR ("  Error en " +:+ fact +:+ ": " +:+ exc_message e) in
    match execute src q params with
    | Raise e => (Ok tt, add_events w [Executed q params; failed e])
    | Ok df =>
        let w2 := add_events w [Executed q params;
                                Log INFO ("  Filas: " +:+ str_nat (df_nrows df) +:+ " | Columnas: "
                                            +:+ str_nat (length (df_columns df)))] in
        match export df fact w2 with
        | (Raise e, w3) => (Ok tt, add_events w3 [failed e])
        | (Ok df', w3) =>
            match max_timestamp env df' cols with
            | Raise e => (Ok tt, add_events w3 [failed e])
            | Ok None => (Ok tt, w3)
            | Ok (Some wm) =>
                if negb (String.eqb wm EmptyString) && incr then
                  if writable (state_dir w3 !! fact) then
                    (Ok tt,
                     mkWorld (<[fact := TextFile (watermark_file wm)]> (state_dir w3))
                             (parquet_dir w3) (csv_dir w3)
                             (history w3 ++ [WatermarkWritten fact wm;
                                             Log INFO ("  Nuevo watermark " +:+ fact +:+ ": "
                                                         +:+ wm)]))
                  else (Ok tt, add_events w3 [failed (Exc "OSError" "cannot write the file")])
                else (Ok tt, w3)
            end
        end
    end.
Proof.
  unfold guarded_block, try_except, read_sql_to_df, lift, logging, add_events.
  unfold bind, emit.
  destruct (execute src q params) as [df|e]; cbn; [|now rewrite <- app_assoc].
  rewrite <- app_assoc. cbn [app].
  destruct (export df fact _) as [[df'|e] w3]; [|reflexivity].
  destruct (max_timestamp env df' cols) as [[wm|]|e]; try reflexivity.
  unfold commit_watermark.
  destruct (negb (String.eqb wm EmptyString) && incr); [|reflexivity].
  unfold bind, logging, emit. rewrite write_watermark_run.
  destruct (writable (state_dir w3 !! fact)); cbn -[watermark_file];
    [now rewrite <- app_assoc | reflexivity].
Qed.

(** What the block does: the facts the properties of a run rest on. *)
Lemma guarded_block_outcome (env : Env) (src : Source)
    (export : DataFrame -> string -> M DataFrame)
    (fact q : string) (params : Params) (incr : bool) (cols : list string) (w : World) :
  export_contract export ->
  let out := guarded_block env src export fact q params incr cols w in
  let evs := events_since w (snd out) in
  guarded fact w out
  /\ (forall e, execute src q params = Raise e ->
        state_dir (snd out) = state_dir w
        /\ In (Log ERROR ("  Error en " +:+ fact +:+ ": " +:+ exc_message e)) evs)
  /\ (forall wm, In wm (watermarks_written fact evs) ->
        incr = true /\ wm <> EmptyString
        /\ state_dir (snd out) = <[fact := TextFile (watermark_file wm)]> (state_dir w)
        /\ exists df df' w1,
             execute src q params = Ok df
             /\ fst (export df fact w1) = Ok df'
             /\ max_timestamp env df' cols = Ok (Some wm))
  /\ (watermarks_written fact evs = [] -> state_dir (snd out) = state_dir w)
  /\ In (Executed q params) evs.
Proof.
  intros Hex. cbv zeta. rewrite guarded_block_steps. cbv zeta.
  destruct (execute src q params) as [df|e] eqn:Eq.
  - set (filas := Log INFO ("  Filas: " +:+ str_nat (df_nrows df) +:+ " | Columnas: "
                              +:+ str_nat (length (df_columns df)))).
    set (w2 := add_events w [Executed q params; filas]).
    destruct (Hex df fact w2) as (ex & Hs & Hh & Hquiet & Hret).
    destruct (export df fact w2) as [[df'|e] w3] eqn:Eexp; cbn [fst snd] in *.
    + specialize (Hret eq_refl).
      assert (Hh3 : history w3 = history w ++ ([Executed q params; filas] ++ ex)).
      { rewrite Hh. unfold w2, add_events. cbn [history]. now rewrite <- app_assoc. }
      assert (Hs3 : state_dir w3 = state_dir w) by exact Hs.
      assert (Hquiet3 : commit_follows_export fact false ([Executed q params; filas] ++ ex) = true).
      { rewrite commit_follows_export_app. cbn.
        now rewrite (commit_follows_export_quiet _ _ _ Hquiet). }
      assert (Hnone : watermarks_written fact ([Executed q params; filas] ++ ex) = []).
      { rewrite watermarks_written_app, (quiet_no_watermark fact ex Hquiet). reflexivity. }
      assert (Hkept : guarded fact w (Ok tt, w3)).
      { eapply guarded_intro; [reflexivity | exact Hh3 | exact Hquiet3 | | |].
        - intros Hno. exfalso. apply Hno. apply in_or_app. now right.
        - intros msg _. exact Hs3.
        - intros other _. now rewrite Hs3. }
      assert (Hfailed : forall e,
                let out := (Ok tt, add_events w3
                              [Log ERROR ("  Error en " +:+ fact +:+ ": " +:+ exc_message e)]) in
                let evs := events_since w (snd out) in
                guarded fact w out
                /\ (forall e0 : PyExc, @Ok DataFrame df = Raise e0 ->
                      state_dir (snd out) = state_dir w
                      /\ In (Log ERROR ("  Error en " +:+ fact +:+ ": " +:+ exc_message e0)) evs)
                /\ (forall wm0, In wm0 (watermarks_written fact evs) ->
                      incr = true /\ wm0 <> EmptyString
                      /\ state_dir (snd out)
                         = <[fact := TextFile (watermark_file wm0)]> (state_dir w)
                      /\ exists df0 df1 w1,
                           @Ok DataFrame df = Ok df0
                           /\ fst (export df0 fact w1) = Ok df1
                           /\ max_timestamp env df1 cols = Ok (Some wm0))
                /\ (watermarks_written fact evs = [] -> state_dir (snd out) = state_dir w)
                /\ In (Executed q params) evs).
      { intros e. cbv zeta.
        set (failed := Log ERROR ("  Error en " +:+ fact +:+ ": " +:+ exc_message e)).
        assert (Hhist : history (add_events w3 [failed])
                        = history w ++ ([Executed q params; filas] ++ ex ++ [failed])).
        { unfold add_events. cbn [history]. rewrite Hh3, <- !app_assoc. reflexivity. }
        cbn [fst snd]. rewrite (events_since_app w _ _ Hhist).
        change (state_dir (add_events w3 [failed])) with (state_dir w3). rewrite Hs3.
        split; [|split; [|split; [|split]]].
        - eapply guarded_intro; [reflexivity | exact Hhist | | | |].
          + rewrite !commit_follows_export_app. cbn.
            now rewrite (commit_follows_export_quiet _ _ _ Hquiet).
          + intros _. split; [exact Hs3|]. eexists.
            apply in_or_app. right. apply in_or_app. right. now left.
          + intros msg _. exact Hs3.
          + intros other _. cbn [add_events state_dir]. now rewrite Hs3.
        - intros e' He. discriminate He.
        - rewrite !watermarks_written_app, (quiet_no_watermark fact ex Hquiet).
          cbn. intros wm' [].
        - reflexivity.
        - now left. }
      destruct (max_timestamp env df' cols) as [[wm|]|e] eqn:Emax.
      * destruct (negb (String.eqb wm EmptyString) && incr) eqn:Ecommit;
          [destruct (writable (state_dir w3 !! fact)) eqn:Enode;
             [|exact (Hfailed (Exc "OSError" "cannot write the file"))]|].
        -- apply andb_true_iff in Ecommit as [Hwm Hincr].
           apply negb_true_iff, String.eqb_neq in Hwm.
           set (nuevo := Log INFO ("  Nuevo watermark " +:+ fact +:+ ": " +:+ wm)).
           set (w4 := mkWorld (<[fact := TextFile (watermark_file wm)]> (state_dir w3))
                        (parquet_dir w3) (csv_dir w3)
                        (history w3 ++ [WatermarkWritten fact wm; nuevo])).
           assert (Hhist : history w4
                           = history w ++ ([Executed q params; filas] ++ ex
                                             ++ [WatermarkWritten fact wm; nuevo])).
           { unfold w4. cbn [history]. rewrite Hh3, <- !app_assoc. reflexivity. }
           cbn [fst snd]. rewrite (events_since_app w w4 _ Hhist).
           change (state_dir w4) with (<[fact := TextFile (watermark_file wm)]> (state_dir w3)).
           rewrite Hs3.
           split; [|split; [|split; [|split]]].
           ++ eapply guarded_intro; [reflexivity | exact Hhist | | | |].
              ** rewrite !commit_follows_export_app.
                 cbn. rewrite (commit_follows_export_quiet _ _ _ Hquiet).
                 rewrite (proj2 (export_returned_In fact ex) Hret). cbn.
                 now rewrite String.eqb_refl, orb_true_r.
              ** intros Hno. exfalso. apply Hno.
                 apply in_or_app. right. apply in_or_app. now left.
              ** intros msg Hin. exfalso.
                 apply in_app_or in Hin as [Hin|Hin];
                   [cbn in Hin; destruct Hin as [Hin|[Hin|[]]]; discriminate Hin|].
                 apply in_app_or in Hin as [Hin|Hin];
                   [now apply (quiet_not_error ex msg Hquiet)|].
                 cbn in Hin. destruct Hin as [Hin|[Hin|[]]]; discriminate Hin.
              ** intros other Hne. unfold w4. cbn [state_dir].
                 rewrite lookup_insert_ne by congruence. now rewrite Hs3.
           ++ intros e He. discriminate He.
           ++ rewrite !watermarks_written_app, (quiet_no_watermark fact ex Hquiet).
              cbn. rewrite String.eqb_refl. cbn.
              intros wm' [<-|[]].
              split; [exact Hincr|]. split; [exact Hwm|]. split; [reflexivity|].
              exists df, df', w2. rewrite Eexp. now repeat split.
           ++ rewrite !watermarks_written_app, (quiet_no_watermark fact ex Hquiet).
              cbn. rewrite String.eqb_refl. cbn. discriminate.
           ++ now left.
        -- cbn [fst snd]. rewrite (events_since_app w _ _ Hh3), Hnone.
           split; [exact Hkept|]. split; [intros e He; discriminate He|].
           split; [intros wm' []|]. split; [intros _; exact Hs3 | now left].
      * cbn [fst snd]. rewrite (events_since_app w _ _ Hh3), Hnone.
        split; [exact Hkept|]. split; [intros e He; discriminate He|].
        split; [intros wm' []|]. split; [intros _; exact Hs3 | now left].
      * exact (Hfailed e).
    + set (failed := Log ERROR ("  Error en " +:+ fact +:+ ": " +:+ exc_message e)).
      assert (Hhist : history (add_events w3 [failed])
                      = history w ++ ([Executed q params; filas] ++ ex ++ [failed])).
      { unfold add_events. cbn [history]. rewrite Hh. unfold w2, add_events. cbn [history].
        rewrite <- !app_assoc. reflexivity. }
      assert (Hs3 : state_dir w3 = state_dir w) by exact Hs.
      cbn [fst snd]. rewrite (events_since_app w _ _ Hhist).
      change (state_dir (add_events w3 [failed])) with (state_dir w3). rewrite Hs3.
      split; [|split; [|split; [|split]]].
      * eapply guarded_intro; [reflexivity | exact Hhist | | | |].
        -- rewrite !commit_follows_export_app. cbn.
           now rewrite (commit_follows_export_quiet _ _ _ Hquiet).
        -- intros _. split; [exact Hs3|]. eexists.
           apply in_or_app. right. apply in_or_app. right. now left.
        -- intros msg _. exact Hs3.
        -- intros other _. cbn [add_events state_dir]. now rewrite Hs3.
      * intros e' He. discriminate He.
      * rewrite !watermarks_written_app, (quiet_no_watermark fact ex Hquiet).
        cbn. intros wm' [].
      * reflexivity.
      * now left.
  - set (failed := Log ERROR ("  Error en " +:+ fact +:+ ": " +:+ exc_message e)).
    assert (Hhist : history (add_events w [Executed q params; failed])
                    = history w ++ [Executed q params; failed]) by reflexivity.
    cbn [fst snd]. rewrite (events_since_app w _ _ Hhist).
    change (state_dir (add_events w [Executed q params; failed])) with (state_dir w).
    split; [|split; [|split; [|split]]].
    + eapply guarded_intro; [reflexivity | exact Hhist | reflexivity | | |].
      * intros _. split; [reflexivity|]. eexists. right. now left.
      * reflexivity.
      * reflexivity.
    + intros e' [= <-]. split; [reflexivity|]. right. now left.
    + cbn. intros wm' [].
    + reflexivity.
    + now left.
Qed.

(** ** Cycles and runs *)

Lemma read_watermark_stored (fact : string) (w : World) :
  read_watermark fact w = (Ok (stored_watermark fact w), w).
Proof.
  unfold stored_watermark. destruct (read_watermark_returns fact w) as [v ->]. reflexivity.
Qed.

Lemma guarded_prefix (fact : string) (w : World) (p : list Event) (out : Result unit * World) :
  forallb quiet_event p = true ->
  guarded fact (add_events w p) out ->
  guarded fact w out.
Proof.
  intros Hp (Hr & Hh & Hord & Hne & Herr & Hother).
  set (evs1 := events_since (add_events w p) (snd out)) in *.
  assert (Hhist : history (snd out) = history w ++ (p ++ evs1)).
  { rewrite Hh. unfold add_events. cbn [history]. now rewrite <- app_assoc. }
  unfold guarded. rewrite (events_since_app w (snd out) _ Hhist).
  change (state_dir (add_events w p)) with (state_dir w) in *.
  split; [exact Hr|]. split; [exact Hhist|]. split; [|split; [|split]].
  - intros pre wm post Heq. symmetry in Heq.
    apply app_eq_app in Heq as [l [[Hpre Hevs]|[Hpp Hww]]].
    + subst pre. specialize (Hord l wm post Hevs). apply in_or_app. now right.
    + exfalso. destruct l as [|ev l].
      * rewrite app_nil_r in Hpp. subst pre. cbn in Hww.
        (* the watermark event would be the first of the block *)
        specialize (Hord [] wm post). cbn in Hord. now apply Hord.
      * cbn in Hww. injection Hww as <- _.
        rewrite Hpp, forallb_app in Hp. cbn in Hp.
        now rewrite andb_false_r in Hp.
  - intros Hno.
    destruct Hne as [Hs [msg Hmsg]].
    + intros Hin. apply Hno. apply in_or_app. now right.
    + split; [exact Hs|]. exists msg. apply in_or_app. now right.
  - intros msg Hin. apply in_app_or in Hin as [Hin|Hin].
    + exfalso. now apply (quiet_not_error p msg Hp).
    + now apply (Herr msg).
  - exact Hother.
Qed.

(** A cycle of [build_facts.py]: the watermark is read, the where-clause
    built, the line of the fact logged, and the guarded block run. *)
Lemma fact_cycle_steps (env : Env) (src : Source) (fact column : string) (incr : bool)
    (base : string) (cols : list string) (w : World) :
  BuildFacts.fact_cycle env src fact column incr base cols w
  = let last_wm := stored_watermark fact w in
    let '(where_clause, params, _) :=
      BuildFacts.build_where_incremental fact column incr last_wm in
    guarded_block env src (BuildFacts.export_table env) fact
      (str_replace base "{where_clause}" where_clause) params incr cols
      (add_events w [Log INFO ("[FACT] " +:+ fact +:+ " | incr=" +:+ py_str env (PBool incr)
                                 +:+ " | last_wm=" +:+ py_str env last_wm)]).
Proof.
  unfold BuildFacts.fact_cycle, bind. rewrite read_watermark_stored. cbv zeta.
  destruct (BuildFacts.build_where_incremental fact column incr (stored_watermark fact w))
    as [[wc params] used].
  reflexivity.
Qed.

Lemma fact_cycle_guarded (env : Env) (src : Source) (fact column : string) (incr : bool)
    (base : string) (cols : list string) (w : World) :
  guarded fact w (BuildFacts.fact_cycle env src fact column incr base cols w).
Proof.
  rewrite fact_cycle_steps. cbv zeta.
  destruct (BuildFacts.build_where_incremental fact column incr (stored_watermark fact w))
    as [[wc params] used].
  match goal with
  | |- guarded _ _ (guarded_block _ _ _ _ _ _ _ _ (add_events _ ?p)) =>
      apply (guarded_prefix fact w p); [reflexivity|]
  end.
  apply guarded_block_outcome, facts_export_contract.
Qed.

Lemma run_then {A : Type} (m : M unit) (k : M A) (w : World) :
  fst (m w) = Ok tt -> bind m (fun _ => k) w = k (snd (m w)).
Proof. unfold bind. destruct (m w) as [[[]|e] w1]; cbn; [reflexivity | discriminate]. Qed.

(** The block when the exporter raises: the error is logged and the state
    directory is as before. *)
Lemma guarded_block_export_raises (env : Env) (src : Source)
    (export : DataFrame -> string -> M DataFrame)
    (fact q : string) (params : Params) (incr : bool) (cols : list string) (w : World)
    (df : DataFrame) (e : PyExc) :
  export_contract export ->
  execute src q params = Ok df ->
  fst (export df fact
         (add_events w [Executed q params;
                        Log INFO ("  Filas: " +:+ str_nat (df_nrows df) +:+ " | Columnas: "
                                    +:+ str_nat (length (df_columns df)))])) = Raise e ->
  let out := guarded_block env src export fact q params incr cols w in
  fst out = Ok tt
  /\ state_dir (snd out) = state_dir w
  /\ In (Log ERROR ("  Error en " +:+ fact +:+ ": " +:+ exc_message e))
        (events_since w (snd out))
  /\ watermarks_written fact (events_since w (snd out)) = [].
Proof.
  intros Hc Hex Hraise. cbv zeta. rewrite guarded_block_steps. cbv zeta. rewrite Hex.
  match type of Hraise with
  | fst (export df fact ?w2) = _ =>
      destruct (Hc df fact w2) as (evs & Hs & Hh & Hq & _);
      destruct (export df fact w2) as [r w3]
  end.
  cbn [fst snd] in *. subst r. cbn [fst snd add_events state_dir history].
  split; [reflexivity|]. split; [exact Hs|].
  match goal with
  | |- In ?ev (events_since w ?w') /\ _ =>
      assert (Hev : events_since w w'
                    = [Executed q params;
                       Log INFO ("  Filas: " +:+ str_nat (df_nrows df) +:+ " | Columnas: "
                                   +:+ str_nat (length (df_columns df)))] ++ evs ++ [ev])
  end.
  { apply events_since_app. unfold add_events in *. cbn [history] in *.
    rewrite Hh, <- !app_assoc. reflexivity. }
  rewrite Hev. split.
  - apply in_or_app. right. apply in_or_app. right. now left.
  - rewrite !watermarks_written_app, (quiet_no_watermark fact evs Hq). reflexivity.
Qed.

Lemma sanitize_raises_export (env : Env) (df : DataFrame) (name : string) (w : World)
    (e : PyExc) :
  df_empty df = false ->
  sanitize_dataframe env df = Raise e ->
  BuildFacts.export_table env df name w = (Raise e, w).
Proof.
  intros He Hs. unfold BuildFacts.export_table. rewrite He.
  unfold bind, lift. now rewrite Hs.
Qed.

(** C2 — watermark commit ordering and atomicity on failure.  In both
    scripts the cycle of a target never raises; a watermark of the target
    is written only after [export_table] returned for it; when
    [export_table] did not return (the query, the sanitization or the
    export raised) the state directory is as before and the error is
    logged; the state files of the other targets are not touched; and
    [main] runs the next target whatever the first cycle met.  In
    [build_quotes.py] this holds from the guarded block on: its queries are
    built before the [try]. *)
Theorem watermark_commit_after_export (env : Env) (src : Source) (w : World) :
  (forall fact column incr base cols,
     guarded fact w (BuildFacts.fact_cycle env src fact column incr base cols w))
  /\ (forall fact q params cols,
        guarded fact w
          (guarded_block env src (BuildQuotes.export_table env) fact q params
             (BuildQuotes.INCR_QUOTES env) cols w))
  /\ (forall export fact q params incr cols e,
        export = BuildFacts.export_table env \/ export = BuildQuotes.export_table env ->
        execute src q params = Raise e ->
        let out := guarded_block env src export fact q params incr cols w in
        fst out = Ok tt
        /\ state_dir (snd out) = state_dir w
        /\ In (Log ERROR ("  Error en " +:+ fact +:+ ": " +:+ exc_message e))
              (events_since w (snd out)))
  /\ (forall export fact q params incr cols df e,
        export = BuildFacts.export_table env \/ export = BuildQuotes.export_table env ->
        execute src q params = Ok df ->
        fst (export df fact
               (add_events w [Executed q params;
                              Log INFO ("  Filas: " +:+ str_nat (df_nrows df)
                                          +:+ " | Columnas: "
                                          +:+ str_nat (length (df_columns df)))])) = Raise e ->
        let out := guarded_block env src export fact q params incr cols w in
        fst out = Ok tt
        /\ state_dir (snd out) = state_dir w
        /\ In (Log ERROR ("  Error en " +:+ fact +:+ ": " +:+ exc_message e))
              (events_since w (snd out))
        /\ watermarks_written fact (events_since w (snd out)) = [])
  /\ (forall df name w' e,
        df_empty df = false ->
        sanitize_dataframe env df = Raise e ->
        BuildFacts.export_table env df name w' = (Raise e, w'))
  /\ BuildFacts.main env src w
     = (Ok tt,
        add_events
          (snd (BuildFacts.cycle_pago env src (snd (BuildFacts.cycle_ventas_linea env src w))))
          [Log INFO "Hechos exportados."])
  /\ (is_ok (BuildQuotes.build_query_fact_cotizacion src) = true ->
        fst (BuildQuotes.cycle_cotizacion env src w) = Ok tt
        /\ BuildQuotes.main env src w
           = bind (BuildQuotes.cycle_cotizacion_linea env src)
                  (fun _ => logging INFO "Hechos de cotización exportados.")
                  (snd (BuildQuotes.cycle_cotizacion env src w))).
Proof.
  assert (Hcontract : forall export,
             export = BuildFacts.export_table env \/ export = BuildQuotes.export_table env ->
             export_contract export)
    by (intros export [-> | ->]; [apply facts_export_contract | apply quotes_export_contract]).
  split; [|split; [|split; [|split; [|split; [|split]]]]].
  - intros. apply fact_cycle_guarded.
  - intros. apply guarded_block_outcome, quotes_export_contract.
  - intros export fact q params incr cols e Hexp He. cbv zeta.
    destruct (guarded_block_outcome env src export fact q params incr cols w
                (Hcontract export Hexp)) as (Hg & Hraise & _).
    destruct (Hraise e He) as [Hs Hlog].
    split; [apply Hg|]. split; assumption.
  - intros export fact q params incr cols df e Hexp Hex Hraise.
    exact (guarded_block_export_raises env src export fact q params incr cols w df e
             (Hcontract export Hexp) Hex Hraise).
  - intros df name w' e. apply sanitize_raises_export.
  - unfold BuildFacts.main.
    rewrite run_then
      by (unfold BuildFacts.cycle_ventas_linea; apply fact_cycle_guarded).
    rewrite run_then
      by (unfold BuildFacts.cycle_pago; apply fact_cycle_guarded).
    reflexivity.
  - intros Hq. unfold BuildQuotes.main.
    assert (Hfirst : fst (BuildQuotes.cycle_cotizacion env src w) = Ok tt).
    { unfold BuildQuotes.cycle_cotizacion, bind, lift.
      rewrite read_watermark_stored.
      destruct (BuildQuotes.build_query_fact_cotizacion src) as [q|e]; [|discriminate Hq].
      destruct (BuildQuotes.build_where_incremental _ _ _) as [[wc params] used].
      unfold log_fact, logging, emit.
      cbv beta iota zeta.
      match goal with
      | |- fst (guarded_block ?e ?s ?ex ?f ?q ?p ?i ?c ?w1) = _ =>
          destruct (guarded_block_outcome e s ex f q p i c w1 (quotes_export_contract env))
            as [[Hr _] _]; exact Hr
      end. }
    split; [exact Hfirst|]. now apply run_then.
Qed.
(** ** The sanitizer *)

Lemma dumps_tuple (l : list PyVal) : Json.dumps (PTuple l) = Json.dumps (PList l).
Proof. reflexivity. Qed.

(** The encoder writes a dictionary by the texts of its keys. *)
Lemma dumps_stringify_keys (kvs : list (PyVal * PyVal)) :
  Json.dumps (PDict kvs) = Json.dumps (PDict (stringify_keys kvs)).
Proof.
  unfold Json.dumps.
  assert (H : forall indent lvl,
             Json.dumps_at indent lvl (PDict kvs)
             = Json.dumps_at indent lvl (PDict (stringify_keys kvs))); [|now rewrite H].
  intros indent lvl.
  assert (Hmap : forall l,
             Json.map_option
               (fun kv : PyVal * PyVal =>
                  match Json.key_text (fst kv), Json.dumps_at indent (S lvl) (snd kv) with
                  | Some k, Some t => Some (Json.encode_basestring k ++ Json.chars ": " ++ t)
                  | _, _ => None
                  end) (stringify_keys l)
             = Json.map_option
                 (fun kv : PyVal * PyVal =>
                    match Json.key_text (fst kv), Json.dumps_at indent (S lvl) (snd kv) with
                    | Some k, Some t => Some (Json.encode_basestring k ++ Json.chars ": " ++ t)
                    | _, _ => None
                    end) l).
  { induction l as [|[k v] l IH]; [reflexivity|].
    cbn [stringify_keys map Json.map_option fst snd].
    fold (stringify_keys l). rewrite IH.
    destruct (Json.key_text k) as [s|] eqn:E; [reflexivity | now rewrite E]. }
  destruct kvs as [|kv kvs]; [reflexivity|].
  specialize (Hmap (kv :: kvs)).
  cbn [stringify_keys map] in *. cbn [Json.dumps_at]. now rewrite Hmap.
Qed.

Lemma to_json_string_scalar (env : Env) (v : PyVal) :
  is_composite (to_json_string env v) = false.
Proof.
  unfold to_json_string. destruct (is_composite v) eqn:E; [|exact E].
  now destruct (Json.dumps v).
Qed.

Lemma firstn_incl {A : Type} (n : nat) (l : list A) (x : A) :
  In x (firstn n l) -> In x l.
Proof.
  revert l. induction n as [|n IH]; intros [|y l]; cbn; try tauto.
  intros [H|H]; [now left | right; now apply IH].
Qed.

Lemma sample_In (cells : list PyVal) (v : PyVal) : In v (sample cells) -> In v cells.
Proof.
  unfold sample. intros H. apply firstn_incl, filter_In in H. tauto.
Qed.

Lemma sample_composite_object (cells : list PyVal) :
  existsb is_composite (sample cells) = true -> dtype_is_object cells = true.
Proof.
  intros H. apply existsb_exists in H as (v & Hin & Hv).
  apply existsb_exists. exists v. split; [now apply sample_In|].
  destruct v; try discriminate Hv; reflexivity.
Qed.

Lemma sample_scalars (cells : list PyVal) :
  forallb (fun v => negb (is_composite v)) cells = true ->
  existsb is_composite (sample cells) = false.
Proof.
  intros H. destruct (existsb is_composite (sample cells)) eqn:E; [|reflexivity].
  apply existsb_exists in E as (v & Hin & Hv).
  rewrite forallb_forall in H. specialize (H v (sample_In cells v Hin)).
  rewrite Hv in H. discriminate H.
Qed.

Lemma sample_first_ten (first rest : list PyVal) :
  length first = 10 ->
  forallb (fun v => negb (isna v)) first = true ->
  sample (first ++ rest) = first.
Proof.
  intros Hlen Hna. unfold sample. rewrite List.filter_app.
  assert (Hf : List.filter (fun v => negb (isna v)) first = first).
  { clear Hlen. induction first as [|v l IH]; [reflexivity|].
    cbn in Hna |- *. apply andb_true_iff in Hna as [Hv Hl].
    rewrite Hv. f_equal. now apply IH. }
  rewrite Hf, <- Hlen. apply take_app_length.
Qed.

Lemma sanitize_column_length (env : Env) (cells : list PyVal) :
  length (sanitize_column env cells) = length cells.
Proof. unfold sanitize_column. destruct (_ && _); [apply length_map | reflexivity]. Qed.

Lemma sanitize_column_rewritten (env : Env) (cells : list PyVal) :
  existsb is_composite (sample cells) = true ->
  sanitize_column env cells = map (to_json_string env) cells.
Proof.
  intros H. unfold sanitize_column. now rewrite (sample_composite_object cells H), H.
Qed.

Lemma sanitize_column_kept (env : Env) (cells : list PyVal) :
  existsb is_composite (sample cells) = false -> sanitize_column env cells = cells.
Proof. intros H. unfold sanitize_column. rewrite H. now rewrite andb_false_r. Qed.

Lemma to_json_string_all_scalar (env : Env) (cells : list PyVal) :
  forallb (fun v => negb (is_composite v)) (map (to_json_string env) cells) = true.
Proof.
  apply forallb_forall. intros v Hv. apply in_map_iff in Hv as (x & <- & _).
  now rewrite to_json_string_scalar.
Qed.

Lemma sanitize_column_idempotent (env : Env) (cells : list PyVal) :
  sanitize_column env (sanitize_column env cells) = sanitize_column env cells.
Proof.
  destruct (existsb is_composite (sample cells)) eqn:E.
  - rewrite (sanitize_column_rewritten env cells E). apply sanitize_column_kept.
    apply sample_scalars, to_json_string_all_scalar.
  - rewrite (sanitize_column_kept env cells E). now apply sanitize_column_kept.
Qed.

(** C9, the failing case of the sentence as written: a tuple is a composite
    cell the sanitizer rewrites, and its text reads back as a list. *)
Lemma composite_round_trip_counterexample :
  let v := PTuple [PInt 1; PInt 2] in
  is_composite v = true
  /\ sanitize_column default_env [v] = [to_json_string default_env v]
  /\ to_json_string default_env v = PStr "[1, 2]"
  /\ Json.loads "[1, 2]" = Ok (PList [PInt 1; PInt 2])
  /\ Json.loads "[1, 2]" <> Ok v.
Proof.
  cbv zeta. split; [reflexivity|]. split; [reflexivity|]. split; [reflexivity|].
  assert (H : Json.loads "[1, 2]" = Ok (PList [PInt 1; PInt 2])) by (vm_compute; reflexivity).
  split; [exact H|]. rewrite H. discriminate.
Qed.

(** C9, amended — composite-value flattening round trip.  A cell that is
    no dict, list or tuple is passed through unchanged.  A composite cell
    made of [None], booleans, integers, floats other than [NaN], strings,
    lists and dictionaries with distinct string keys becomes a text that
    [json.loads] reads back as the cell itself; the price [19.99] under a
    string key is such a cell.  A tuple of such values becomes a text that
    reads back as the list of its items, not as the tuple.  A dictionary
    with keys that are no strings is read back with each key as the text
    the encoder wrote for it.  A composite cell the encoder refuses, such
    as a list that holds a timestamp, becomes [str(v)]; whatever it was,
    what [to_json_string] returns is no composite.  In a column the
    sanitizer rewrites, which is one with a composite among its first ten
    non-null cells, every cell is [to_json_string] of what it was: a
    scalar cell stays as it is and a JSON-native composite cell becomes a
    text that reads back as the cell. *)
Theorem composite_round_trip (env : Env) :
  (forall v, is_composite v = false -> to_json_string env v = v)
  /\ (forall v, is_composite v = true -> json_native v = true ->
        exists s, to_json_string env v = PStr s /\ Json.loads s = Ok v)
  /\ (exists s, to_json_string env (PDict [(PStr "price", PFloat "19.99")]) = PStr s
                /\ Json.loads s = Ok (PDict [(PStr "price", PFloat "19.99")]))
  /\ (forall l, forallb json_native l = true ->
        exists s, to_json_string env (PTuple l) = PStr s
                  /\ Json.loads s = Ok (PList l)
                  /\ Json.loads s <> Ok (PTuple l))
  /\ (forall kvs, json_native (PDict (stringify_keys kvs)) = true ->
        exists s, to_json_string env (PDict kvs) = PStr s
                  /\ Json.loads s = Ok (PDict (stringify_keys kvs)))
  /\ (exists s, to_json_string env (PDict [(PInt 1, PStr "a")]) = PStr s
                /\ Json.loads s = Ok (PDict [(PStr "1", PStr "a")]))
  /\ (forall v, is_composite v = true -> is_ok (Json.dumps v) = false ->
        to_json_string env v = PStr (py_str env v))
  /\ (forall t, to_json_string env (PList [PTimestamp t])
                = PStr (py_str env (PList [PTimestamp t])))
  /\ (forall v, is_composite (to_json_string env v) = false)
  /\ (forall cells i v,
        existsb is_composite (sample cells) = true ->
        nth_error cells i = Some v ->
        nth_error (sanitize_column env cells) i = Some (to_json_string env v)
        /\ (is_composite v = false -> nth_error (sanitize_column env cells) i = Some v)
        /\ (is_composite v = true -> json_native v = true ->
              exists s, nth_error (sanitize_column env cells) i = Some (PStr s)
                        /\ Json.loads s = Ok v)).
Proof.
  assert (Hscalar : forall v, is_composite v = false -> to_json_string env v = v).
  { intros v Hv. unfold to_json_string. now rewrite Hv. }
  assert (Hround : forall v, is_composite v = true -> json_native v = true ->
                     exists s, to_json_string env v = PStr s /\ Json.loads s = Ok v).
  { intros v Hc Hn. destruct (loads_dumps v Hn) as (s & Hd & Hl).
    exists s. unfold to_json_string. rewrite Hc, Hd. now split. }
  assert (Hkeys : forall kvs, json_native (PDict (stringify_keys kvs)) = true ->
                    exists s, to_json_string env (PDict kvs) = PStr s
                              /\ Json.loads s = Ok (PDict (stringify_keys kvs))).
  { intros kvs N. destruct (loads_dumps _ N) as (s & Hd & Hl).
    exists s. unfold to_json_string. cbn [is_composite].
    rewrite dumps_stringify_keys, Hd. now split. }
  split; [exact Hscalar|]. split; [exact Hround|].
  split; [apply Hround; vm_compute; reflexivity|].
  split; [|split; [exact Hkeys|split; [|split; [|split; [|split]]]]].
  - intros l Hl.
    destruct (loads_dumps (PList l) Hl) as (s & Hd & Hr).
    exists s. unfold to_json_string. cbn [is_composite].
    rewrite dumps_tuple, Hd. split; [reflexivity|]. split; [exact Hr|].
    rewrite Hr. discriminate.
  - apply (Hkeys [(PInt 1, PStr "a")]). vm_compute. reflexivity.
  - intros v Hc Hd. unfold to_json_string. rewrite Hc.
    destruct (Json.dumps v); [discriminate Hd | reflexivity].
  - intros t. reflexivity.
  - apply to_json_string_scalar.
  - intros cells i v Hs Hi.
    rewrite (sanitize_column_rewritten env cells Hs), nth_error_map, Hi. cbn [option_map].
    split; [reflexivity|]. split.
    + intros Hv. now rewrite (Hscalar v Hv).
    + intros Hc Hn. destruct (Hround v Hc Hn) as (s & -> & Hl). now exists s.
Qed.

(** ** Reading the state file *)

Lemma stored_watermark_cases (fact : string) (w : World) :
  stored_watermark fact w
  = match state_dir w !! fact with
    | None => PNone
    | Some Unreadable => PNone
    | Some (TextFile txt) =>
        match Json.loads txt with
        | Ok (PDict d) => dict_get d "watermark"
        | _ => PNone
        end
    end.
Proof.
  unfold stored_watermark, read_watermark.
  destruct (state_dir w !! fact) as [[txt|]|]; try reflexivity.
  unfold try_except, bind, lift, ret. cbn [read_text].
  destruct (Json.loads txt) as [[]|e]; reflexivity.
Qed.

Lemma fact_cycle_executes (env : Env) (src : Source) (fact column : string) (incr : bool)
    (base : string) (cols : list string) (w : World) :
  let '(where_clause, params, _) :=
    BuildFacts.build_where_incremental fact column incr (stored_watermark fact w) in
  In (Executed (str_replace base "{where_clause}" where_clause) params)
     (events_since w (snd (BuildFacts.fact_cycle env src fact column incr base cols w))).
Proof.
  rewrite fact_cycle_steps. cbv zeta.
  destruct (BuildFacts.build_where_incremental fact column incr (stored_watermark fact w))
    as [[wc params] used].
  match goal with
  | |- In _ (events_since _ (snd (guarded_block ?e ?s ?ex ?f ?q ?p ?i ?c (add_events _ ?pre)))) =>
      destruct (guarded_block_outcome e s ex f q p i c (add_events w pre)
                  (facts_export_contract env)) as (Hg & _ & _ & _ & Hin);
      destruct Hg as (_ & Hh & _);
      rewrite (events_since_app w _ (pre ++ events_since (add_events w pre)
                 (snd (guarded_block e s ex f q p i c (add_events w pre)))))
  end.
  - apply in_or_app. right. exact Hin.
  - rewrite Hh. unfold add_events. cbn [history]. now rewrite <- app_assoc.
Qed.


(** ** Frames without a timestamp *)

Lemma columns_named_In (df : DataFrame) (c : string) (cells : list PyVal) :
  In cells (columns_named df c) -> exists name, In (name, cells) (df_columns df).
Proof.
  unfold columns_named. rewrite in_map_iff. intros [[name cs] [<- Hin]].
  apply filter_In in Hin as [Hin _]. now exists name.
Qed.

Lemma columns_named_once (df : DataFrame) (c : string) :
  List.NoDup (column_names df) -> length (columns_named df c) <= 1.
Proof.
  unfold column_names, columns_named. rewrite length_map.
  induction (df_columns df) as [|[name cells] rest IH]; cbn; [lia|].
  intros Hnd. apply List.NoDup_cons_iff in Hnd as [Hnot Hnd].
  destruct (String.eqb name c) eqn:E; [|now apply IH].
  apply String.eqb_eq in E. subst name. cbn.
  assert (Hnone : List.filter (fun col : string * list PyVal => String.eqb (fst col) c) rest = []).
  { apply filter_none. intros [n cs] Hin. cbn.
    destruct (String.eqb n c) eqn:E; [|reflexivity].
    apply String.eqb_eq in E. subst n. exfalso. apply Hnot.
    apply in_map_iff. now exists (c, cs). }
  rewrite Hnone. cbn. lia.
Qed.

(** When every timestamp column is missing or all null, [max_timestamp]
    gives no watermark: it returns [None], or raises on a repeated column
    name. *)
Lemma max_timestamp_all_null (env : Env) (df : DataFrame) (cols : list string) :
  (forall c cells, In c cols -> In cells (columns_named df c) -> forallb isna cells = true) ->
  (forall wm, max_timestamp env df cols <> Ok (Some wm))
  /\ ((forall c, In c cols -> length (columns_named df c) <= 1) ->
      max_timestamp env df cols = Ok None).
Proof.
  induction cols as [|c rest IH]; intros Hnull.
  - split; [discriminate | reflexivity].
  - destruct IH as [IH1 IH2].
    { intros c' cells Hc. apply Hnull. now right. }
    cbn [max_timestamp].
    destruct (columns_named df c) as [|cells [|more tl]] eqn:E.
    + split; [exact IH1|]. intros Hone. apply IH2. intros c' Hc. apply Hone. now right.
    + rewrite (Hnull c cells) by (try (now left); rewrite E; now left).
      split; [exact IH1|]. intros Hone. apply IH2. intros c' Hc. apply Hone. now right.
    + split; [discriminate|]. intros Hone.
      specialize (Hone c (or_introl eq_refl)). rewrite E in Hone. cbn in Hone. lia.
Qed.

Lemma no_rows_all_null (df : DataFrame) (c : string) (cells : list PyVal) :
  df_wf df -> df_nrows df = 0 ->
  In cells (columns_named df c) -> forallb isna cells = true.
Proof.
  intros Hwf H0 Hin. apply columns_named_In in Hin as [name Hin].
  unfold df_wf in Hwf. rewrite List.Forall_forall in Hwf.
  specialize (Hwf _ Hin). cbn in Hwf. rewrite H0 in Hwf.
  destruct cells; [reflexivity | discriminate Hwf].
Qed.

Lemma df_empty_no_rows (df : DataFrame) : df_nrows df = 0 -> df_empty df = true.
Proof. intros H. unfold df_empty. now rewrite H. Qed.

(** The guarded block on a frame without rows: the query, the row count,
    the warning of the exporter, and then nothing, or the error of a
    repeated timestamp column. *)
Lemma guarded_block_no_rows (env : Env) (src : Source)
    (export : DataFrame -> string -> M DataFrame) (df : DataFrame)
    (fact q : string) (params : Params) (incr : bool) (cols : list string) (w : World) :
  export = BuildFacts.export_table env \/ export = BuildQuotes.export_table env ->
  df_wf df -> df_nrows df = 0 ->
  execute src q params = Ok df ->
  exists tail,
    guarded_block env src export fact q params incr cols w
    = (Ok tt,
       add_events w
         ([Executed q params;
           Log INFO ("  Filas: " +:+ str_nat (df_nrows df) +:+ " | Columnas: "
                       +:+ str_nat (length (df_columns df)));
           Log WARNING (fact +:+ ": sin filas (no se exporta).");
           ExportReturned fact] ++ tail))
    /\ (tail = [] \/ exists e, max_timestamp env df cols = Raise e
                               /\ tail = [Log ERROR ("  Error en " +:+ fact +:+ ": "
                                                       +:+ exc_message e)])
    /\ ((forall c, In c cols -> length (columns_named df c) <= 1) -> tail = []).
Proof.
  intros Hexp Hwf H0 Hex.
  assert (Hrun : forall w', export df fact w'
                 = (Ok df, add_events w' [Log WARNING (fact +:+ ": sin filas (no se exporta).");
                                          ExportReturned fact])).
  { intros w'. destruct (export_empty env df fact w' (df_empty_no_rows df H0)) as [Hf Hq].
    destruct Hexp as [-> | ->]; [exact Hf | now rewrite Hq]. }
  destruct (max_timestamp_all_null env df cols) as [Hnone Hone].
  { intros c cells _. now apply no_rows_all_null. }
  rewrite guarded_block_steps. cbv zeta. rewrite Hex, Hrun.
  destruct (max_timestamp env df cols) as [[wm|]|e] eqn:E.
  - now destruct (Hnone wm).
  - exists []. rewrite add_events_app. cbn [app].
    split; [reflexivity|]. split; [now left | reflexivity].
  - exists [Log ERROR ("  Error en " +:+ fact +:+ ": " +:+ exc_message e)].
    rewrite !add_events_app. cbn [app].
    split; [reflexivity|]. split; [right; now exists e|].
    intros H. specialize (Hone H). discriminate Hone.
Qed.

(** C4 — empty-result no-op.  On a result frame without rows
    [export_table] of either script writes no parquet and no csv file and
    returns after a warning; [max_timestamp] gives no watermark on a frame
    without rows, and on any frame whose timestamp columns are missing or
    all null: it returns [None] (it raises instead when a timestamp column
    name is repeated in the frame); and the cycle leaves the state
    directory and both output directories as they were and writes no
    watermark. *)
Theorem empty_result_no_op (env : Env) (src : Source) (df : DataFrame)
    (fact q : string) (params : Params) (incr : bool) (cols : list string) (w : World) :
  df_wf df ->
  df_nrows df = 0 ->
  let warned := [Log WARNING (fact +:+ ": sin filas (no se exporta)."); ExportReturned fact] in
  BuildFacts.export_table env df fact w = (Ok df, add_events w warned)
  /\ BuildQuotes.export_table env df fact w = (Ok df, add_events w warned)
  /\ (forall wm, max_timestamp env df cols <> Ok (Some wm))
  /\ (List.NoDup (column_names df) -> max_timestamp env df cols = Ok None)
  /\ (forall df',
        (forall c cells, In c cols -> In cells (columns_named df' c) ->
                         forallb isna cells = true) ->
        (forall wm, max_timestamp env df' cols <> Ok (Some wm))
        /\ (List.NoDup (column_names df') -> max_timestamp env df' cols = Ok None))
  /\ (forall export,
        export = BuildFacts.export_table env \/ export = BuildQuotes.export_table env ->
        execute src q params = Ok df ->
        let out := guarded_block env src export fact q params incr cols w in
        fst out = Ok tt
        /\ state_dir (snd out) = state_dir w
        /\ parquet_dir (snd out) = parquet_dir w
        /\ csv_dir (snd out) = csv_dir w
        /\ (forall f wm, ~ In (WatermarkWritten f wm) (events_since w (snd out)))
        /\ (forall f, ~ In (ParquetWritten f) (events_since w (snd out))
                      /\ ~ In (CsvWritten f) (events_since w (snd out)))
        /\ In (Log WARNING (fact +:+ ": sin filas (no se exporta)."))
              (events_since w (snd out)))
  /\ (forall column base,
        let '(where_clause, ps, _) :=
          BuildFacts.build_where_incremental fact column incr (stored_watermark fact w) in
        execute src (str_replace base "{where_clause}" where_clause) ps = Ok df ->
        let out := BuildFacts.fact_cycle env src fact column incr base cols w in
        fst out = Ok tt
        /\ state_dir (snd out) = state_dir w
        /\ parquet_dir (snd out) = parquet_dir w
        /\ csv_dir (snd out) = csv_dir w).
Proof.
  intros Hwf H0 warned.
  destruct (export_empty env df fact w (df_empty_no_rows df H0)) as [Hf Hq].
  assert (Hnull : forall d,
             (forall c cells, In c cols -> In cells (columns_named d c) ->
                              forallb isna cells = true) ->
             (forall wm, max_timestamp env d cols <> Ok (Some wm))
             /\ (List.NoDup (column_names d) -> max_timestamp env d cols = Ok None)).
  { intros d Hd. destruct (max_timestamp_all_null env d cols Hd) as [H1 H2].
    split; [exact H1|]. intros Hnd. apply H2. intros c _. now apply columns_named_once. }
  assert (Hdf : forall c cells, In c cols -> In cells (columns_named df c) ->
                                forallb isna cells = true)
    by (intros c cells _; now apply no_rows_all_null).
  split; [exact Hf|]. split; [rewrite Hq; exact Hf|].
  split; [apply (Hnull df Hdf)|]. split; [apply (Hnull df Hdf)|].
  split; [exact Hnull|]. split.
  - intros export Hexp Hex. cbv zeta.
    destruct (guarded_block_no_rows env src export df fact q params incr cols w Hexp Hwf H0 Hex)
      as (tail & -> & Htail & _).
    cbn [fst snd]. rewrite (events_since_app w (add_events w _) _ eq_refl).
    split; [reflexivity|]. split; [reflexivity|]. split; [reflexivity|].
    split; [reflexivity|].
    assert (Hin : forall ev, In ev tail -> exists msg, ev = Log ERROR msg).
    { intros ev Hev. destruct Htail as [-> | (e & _ & ->)]; [destruct Hev|].
      destruct Hev as [<- | []]. now eexists. }
    split; [|split].
    + intros f wm [H|[H|[H|[H|H]]]]; try discriminate H.
      apply Hin in H as [msg H]. discriminate H.
    + intros f. split; intros [H|[H|[H|[H|H]]]]; try discriminate H;
        apply Hin in H as [msg H]; discriminate H.
    + right. right. now left.
  - intros column base. rewrite fact_cycle_steps. cbv zeta.
    destruct (BuildFacts.build_where_incremental fact column incr (stored_watermark fact w))
      as [[wc ps] used].
    intros Hex.
    match goal with
    | |- context [guarded_block ?e ?s ?ex ?f ?q' ?p ?i ?c (add_events w ?pre)] =>
        destruct (guarded_block_no_rows e s ex df f q' p i c (add_events w pre)
                    (or_introl eq_refl) Hwf H0 Hex) as (tail & -> & _)
    end.
    cbn [fst snd]. repeat split; reflexivity.
Qed.

(** The frame of a query that found nothing new: one timestamp column, no
    row. *)
Lemma empty_result_no_op_witness :
  df_wf (mkDf 0 [("updated_at", [])])
  /\ df_nrows (mkDf 0 [("updated_at", [])]) = 0
  /\ max_timestamp default_env (mkDf 0 [("updated_at", [])]) ["updated_at"] = Ok None.
Proof.
  assert (Hwf : df_wf (mkDf 0 [("updated_at", [])])) by (repeat constructor).
  split; [exact Hwf|]. split; [reflexivity|].
  destruct (empty_result_no_op default_env
              (mkSource (fun _ _ => None) (fun _ _ => Ok (mkDf 0 [])))
              (mkDf 0 [("updated_at", [])]) "fact_pago" EmptyString None true ["updated_at"]
              (mkWorld ∅ ∅ ∅ []) Hwf eq_refl) as (_ & _ & _ & Hnone & _).
  apply Hnone. apply List.NoDup_cons; [intros [] | apply List.NoDup_nil].
Defined.

(** ** Watermarks as timestamps *)

Lemma digit_char_digit (d : Z) :
  (0 <= d <= 9)%Z -> is_digit (digit_char d) = true /\ digit_value (digit_char d) = d.
Proof.
  intros H.
  assert (Hd : (d = 0 \/ d = 1 \/ d = 2 \/ d = 3 \/ d = 4 \/ d = 5 \/ d = 6 \/ d = 7
                \/ d = 8 \/ d = 9)%Z) by (Z.to_euclidean_division_equations; lia).
  repeat (destruct Hd as [-> | Hd]; [split; reflexivity|]).
  subst d. split; reflexivity.
Qed.

Lemma read_digits2_pad2 (z : Z) (rest : string) :
  (0 <= z <= 99)%Z -> read_digits2 (pad2 z +:+ rest) = Some (z, rest).
Proof.
  intros H. unfold pad2.
  change (read_digits2 (String (digit_char (z / 10)) (String (digit_char (z mod 10)) rest))
          = Some (z, rest)).
  assert (H1 : (0 <= z / 10 <= 9)%Z) by (Z.to_euclidean_division_equations; lia).
  assert (H2 : (0 <= z mod 10 <= 9)%Z) by (Z.to_euclidean_division_equations; lia).
  destruct (digit_char_digit _ H1) as [Ha Hb].
  destruct (digit_char_digit _ H2) as [Hc Hd].
  cbn [read_digits2]. rewrite Ha, Hc, Hb, Hd. cbn [andb].
  f_equal. f_equal. Z.to_euclidean_division_equations; lia.
Qed.

Lemma expect_char_head (c : ascii) (rest : string) :
  expect_char c (String c rest) = Some rest.
Proof. cbn. now rewrite Ascii.eqb_refl. Qed.

(** Reading a rendered timestamp gives the timestamp without its
    sub-second part. *)
Lemma parse_watermark_strftime (t : Timestamp) :
  valid_ts t -> parse_watermark (strftime t) = Some (trunc_seconds t).
Proof.
  intros (Hy & Hm & Hd & Hh & Hmi & Hs & _).
  unfold strftime, pad4. rewrite append_assoc.
  unfold parse_watermark.
  assert (Hyh : (0 <= ts_year t / 100 <= 99)%Z) by (Z.to_euclidean_division_equations; lia).
  assert (Hyl : (0 <= ts_year t mod 100 <= 99)%Z) by (Z.to_euclidean_division_equations; lia).
  rewrite (read_digits2_pad2 _ _ Hyh). cbn [mbind option_bind].
  rewrite (read_digits2_pad2 _ _ Hyl). cbn [mbind option_bind].
  change ("-" +:+ ?r) with (String "-" r). rewrite expect_char_head. cbn [mbind option_bind].
  rewrite (read_digits2_pad2 (ts_month t)) by lia. cbn [mbind option_bind].
  change ("-" +:+ ?r) with (String "-" r). rewrite expect_char_head. cbn [mbind option_bind].
  rewrite (read_digits2_pad2 (ts_day t)) by lia. cbn [mbind option_bind].
  change (" " +:+ ?r) with (String " " r). rewrite expect_char_head. cbn [mbind option_bind].
  rewrite (read_digits2_pad2 (ts_hour t)) by lia. cbn [mbind option_bind].
  change (":" +:+ ?r) with (String ":" r). rewrite expect_char_head. cbn [mbind option_bind].
  rewrite (read_digits2_pad2 (ts_minute t)) by lia. cbn [mbind option_bind].
  change (":" +:+ ?r) with (String ":" r). rewrite expect_char_head. cbn [mbind option_bind].
  replace (pad2 (ts_second t)) with (pad2 (ts_second t) +:+ "") by reflexivity.
  rewrite (read_digits2_pad2 (ts_second t)) by lia. cbn [mbind option_bind].
  unfold trunc_seconds. f_equal. f_equal.
  Z.to_euclidean_division_equations; lia.
Qed.

Lemma parse_watermark_whole (s : string) (t : Timestamp) :
  parse_watermark s = Some t -> ts_nanos t = 0%Z.
Proof.
  unfold parse_watermark. intros H.
  repeat match type of H with
         | mbind _ (read_digits2 ?x) = Some _ =>
             destruct (read_digits2 x) as [[? ?]|]; cbn [mbind option_bind] in H;
             [|discriminate H]
         | mbind _ (expect_char ?c ?x) = Some _ =>
             destruct (expect_char c x) as [?|]; cbn [mbind option_bind] in H;
             [|discriminate H]
         end.
  match type of H with
  | match ?x with EmptyString => _ | String _ _ => _ end = _ =>
      destruct x; [|discriminate H]
  end.
  injection H as <-. reflexivity.
Qed.

(** A timestamp later than a whole second is rendered no earlier than
    it. *)
Lemma ts_leb_trunc (a b : Timestamp) :
  ts_nanos a = 0%Z -> (0 <= ts_nanos b)%Z ->
  ts_ltb a b = true -> ts_leb a (trunc_seconds b) = true.
Proof.
  destruct a as [y1 m1 d1 h1 i1 s1 n1], b as [y2 m2 d2 h2 i2 s2 n2].
  unfold ts_ltb, ts_leb, ts_compare, ts_key, trunc_seconds. cbn.
  intros -> Hn.
  destruct (Z.compare y1 y2); try reflexivity; try discriminate.
  destruct (Z.compare m1 m2); try reflexivity; try discriminate.
  destruct (Z.compare d1 d2); try reflexivity; try discriminate.
  destruct (Z.compare h1 h2); try reflexivity; try discriminate.
  destruct (Z.compare i1 i2); try reflexivity; try discriminate.
  destruct (Z.compare s1 s2); try reflexivity; try discriminate.
Qed.

(** ** The state file, written and read *)

Lemma scan_once_string (fuel : nat) (r str rest : Json.Text) :
  Json.scanstring r = Some (str, rest) ->
  Json.scan_once (S fuel) (dquote :: r) = Some (PStr (Json.text str), rest).
Proof. intros H. cbn [Json.scan_once]. change (Ascii.eqb dquote dquote) with true. cbv iota. now rewrite H. Qed.

Lemma object_items_one (fuel : nat) (s k s1 s2 s3 s4 : Json.Text) (v : PyVal) :
  Json.scanstring s = Some (k, s1) ->
  Json.skip_ws s1 = ":"%char :: s2 ->
  Json.scan_once fuel (Json.skip_ws s2) = Some (v, s3) ->
  Json.skip_ws s3 = "}"%char :: s4 ->
  Json.object_items (S fuel) s = Some ([(Json.text k, v)], s4).
Proof.
  intros Hk Hc Hv He. cbn [Json.object_items]. rewrite Hk, Hc.
  change (Ascii.eqb ":" ":") with true. cbv iota. rewrite Hv, He.
  reflexivity.
Qed.

Lemma scan_once_object (fuel : nat) (r r1 rest : Json.Text) (pairs : list (string * PyVal)) :
  Json.skip_ws r = dquote :: r1 ->
  Json.object_items fuel r1 = Some (pairs, rest) ->
  Json.scan_once (S fuel) ("{"%char :: r) = Some (PDict (Json.dict_of_pairs pairs), rest).
Proof.
  intros Hs Ho. cbn [Json.scan_once].
  change (Ascii.eqb "{" dquote) with false. change (Ascii.eqb "{" "{") with true.
  cbv iota. rewrite Hs.
  change (Ascii.eqb dquote "}") with false. change (Ascii.eqb dquote dquote) with true.
  cbv iota. now rewrite Ho.
Qed.

(** What [write_watermark] wrote, [read_watermark] reads. *)
Lemma loads_watermark_file (wm : string) :
  Json.loads (watermark_file wm) = Ok (PDict [(PStr "watermark", PStr wm)]).
Proof.
  unfold watermark_file, Json.dumps_indent.
  cbn [Json.dumps_at Json.map_option Json.key_text fst snd].
  unfold Json.loads. cbv zeta. rewrite chars_text.
  set (body := Json.encode_body (Json.chars wm)).
  assert (Ht : "{"%char :: Json.newline_indent (Some 2) 1
               ++ Json.join_text (Json.item_separator (Some 2) 1)
                    [Json.encode_basestring "watermark" ++ Json.chars ": "
                       ++ Json.encode_basestring wm]
               ++ Json.newline_indent (Some 2) 0 ++ ["}"%char]
               = "{"%char :: Json.LF :: " "%char :: " "%char :: dquote
                 :: Json.encode_body (Json.chars "watermark")
                 ++ dquote :: ":"%char :: " "%char :: dquote :: body
                 ++ dquote :: [Json.LF; "}"%char]).
  { unfold Json.encode_basestring. fold body.
    generalize (Json.encode_body (Json.chars "watermark")) as key.
    generalize body as b. intros b key.
    change (Json.newline_indent (Some 2) 1) with [Json.LF; " "%char; " "%char].
    change (Json.newline_indent (Some 2) 0) with [Json.LF].
    cbn [Json.join_text app]. rewrite ?app_nil_r.
    change (Json.chars ": ") with [":"%char; " "%char].
    rewrite <- !app_assoc. cbn [app]. rewrite <- !app_assoc. reflexivity. }
  rewrite Ht. clear Ht.
  set (t := _ :: _).
  assert (Hscan : forall fuel, Json.scan_once (S (S (S fuel))) t
                  = Some (PDict [(PStr "watermark", PStr wm)], [])).
  { intros fuel. unfold t.
    replace [(PStr "watermark", PStr wm)]
      with (Json.dict_of_pairs [(Json.text (Json.chars "watermark"),
                                 PStr (Json.text (Json.chars wm)))])
      by (rewrite !text_chars; reflexivity).
    eapply scan_once_object; [reflexivity|].
    eapply object_items_one.
    - apply scanstring_encode_body.
    - reflexivity.
    - change (Json.skip_ws (" "%char :: dquote :: ?x)) with (dquote :: x).
      apply scan_once_string. apply scanstring_encode_body.
    - reflexivity. }
  change (Json.skip_ws t) with t.
  assert (Hlen : exists n, length t = S (S n)) by (unfold t; cbn [length]; eauto).
  destruct Hlen as [n ->]. rewrite Hscan. reflexivity.
Qed.

(** ** Timestamp columns of a result frame *)

Lemma columns_named_pair (df : DataFrame) (c : string) (cells : list PyVal) :
  In cells (columns_named df c) -> In (c, cells) (df_columns df).
Proof.
  unfold columns_named. rewrite in_map_iff. intros [[name cs] [Hcs Hin]].
  cbn in Hcs. subst cs.
  apply filter_In in Hin as [Hin Hname]. cbn in Hname.
  apply String.eqb_eq in Hname. now subst name.
Qed.

Lemma columns_named_sanitize (env : Env) (df df' : DataFrame) (c : string) :
  sanitize_dataframe env df = Ok df' ->
  columns_named df' c = map (sanitize_column env) (columns_named df c).
Proof.
  unfold sanitize_dataframe.
  destruct (forallb _ (column_names df)); [|discriminate].
  intros [= <-]. unfold columns_named. cbn [df_columns].
  induction (df_columns df) as [|[name cells] rest IH]; [reflexivity|].
  cbn [map List.filter fst snd].
  destruct (String.eqb name c); cbn [map snd]; now rewrite IH.
Qed.

Lemma timestamp_cells_tail (v : PyVal) (cells : list PyVal) :
  timestamp_cells (v :: cells) -> timestamp_cells cells.
Proof. intros H x Hx. apply H. now right. Qed.

Lemma sanitize_timestamp_cells (env : Env) (cells : list PyVal) :
  timestamp_cells cells -> sanitize_column env cells = cells.
Proof.
  intros H. unfold sanitize_column.
  destruct (dtype_is_object cells && existsb is_composite (sample cells)); [|reflexivity].
  induction cells as [|v cells IH]; [reflexivity|].
  cbn [map]. rewrite IH by (now apply timestamp_cells_tail with v).
  f_equal. destruct (H v (or_introl eq_refl)) as [-> | (t & -> & _)]; reflexivity.
Qed.

Lemma to_datetime_timestamp_cells (env : Env) (cells : list PyVal) :
  timestamp_cells cells -> to_datetime env cells = Some (map cell_ts cells).
Proof.
  intros H. unfold to_datetime.
  induction cells as [|v cells IH]; [reflexivity|].
  cbn [Json.map_option map].
  rewrite IH by (now apply timestamp_cells_tail with v).
  destruct (H v (or_introl eq_refl)) as [-> | (t & -> & _)]; reflexivity.
Qed.

Lemma series_max_cell (cells : list PyVal) (mx : Timestamp) :
  series_max (map cell_ts cells) = Some mx ->
  exists i, nth_error cells i = Some (PTimestamp mx).
Proof.
  revert mx. induction cells as [|v cells IH]; intros mx; [discriminate|].
  cbn [map series_max].
  destruct (cell_ts v) as [t|] eqn:Ev.
  - assert (Hv : v = PTimestamp t) by (destruct v; try discriminate Ev; now injection Ev as ->).
    destruct (series_max (map cell_ts cells)) as [m|].
    + unfold ts_max. destruct (ts_ltb t m); intros [= <-].
      * destruct (IH m eq_refl) as [i Hi]. now exists (S i).
      * exists 0. now rewrite Hv.
    + intros [= <-]. exists 0. now rewrite Hv.
  - intros Hmx. destruct (IH mx Hmx) as [i Hi]. now exists (S i).
Qed.

Lemma series_max_none (cells : list PyVal) (i : nat) (t : Timestamp) :
  series_max (map cell_ts cells) = None -> nth_error cells i <> Some (PTimestamp t).
Proof.
  revert i. induction cells as [|v cells IH]; intros i Hmx.
  - now destruct i.
  - cbn [map series_max] in Hmx.
    destruct (cell_ts v) as [t'|] eqn:Ev.
    + destruct (series_max (map cell_ts cells)); discriminate Hmx.
    + destruct i as [|i]; cbn [nth_error].
      * intros [= ->]. discriminate Ev.
      * now apply IH.
Qed.

Lemma all_isna_no_timestamp (cells : list PyVal) (i : nat) (t : Timestamp) :
  forallb isna cells = true -> nth_error cells i <> Some (PTimestamp t).
Proof.
  intros Hall Hi. apply nth_error_In in Hi.
  rewrite forallb_forall in Hall. specialize (Hall _ Hi). discriminate Hall.
Qed.

Lemma row_ts_skip (df : DataFrame) (c : string) (rest : list string)
    (cells : list PyVal) (more : list (list PyVal)) (i : nat) :
  columns_named df c = cells :: more ->
  (forall t, nth_error cells i <> Some (PTimestamp t)) ->
  row_ts df (c :: rest) i = row_ts df rest i.
Proof.
  intros Hc Hno. cbn [row_ts]. rewrite Hc.
  destruct (nth_error cells i) as [[]|]; try reflexivity.
  now destruct (Hno t).
Qed.

(** The watermark [max_timestamp] computes is the rendering of the
    timestamp of a row of the frame. *)
Lemma max_timestamp_row (env : Env) (df : DataFrame) (cols : list string) (wm : string) :
  df_wf df ->
  timestamp_columns df cols ->
  max_timestamp env df cols = Ok (Some wm) ->
  exists i mx,
    i < df_nrows df /\ row_ts df cols i = Some mx /\ valid_ts mx /\ wm = strftime mx.
Proof.
  intros Hwf. induction cols as [|c rest IH]; intros Hts; [discriminate|].
  assert (Hrest : timestamp_columns df rest).
  { intros c' cells v Hc. apply Hts. now right. }
  cbn [max_timestamp].
  destruct (columns_named df c) as [|cells [|more tl]] eqn:Ec; [| |discriminate].
  - intros Hmx. destruct (IH Hrest Hmx) as (i & mx & Hi & Hrow & Hv & Hwm).
    exists i, mx. cbn [row_ts]. rewrite Ec. tauto.
  - assert (Hin : In (c, cells) (df_columns df))
      by (apply columns_named_pair; rewrite Ec; now left).
    assert (Hcells : timestamp_cells cells)
      by (intros v Hv; apply (Hts c cells v); [now left | exact Hin | exact Hv]).
    assert (Hlen : length cells = df_nrows df).
    { unfold df_wf in Hwf. rewrite List.Forall_forall in Hwf. exact (Hwf _ Hin). }
    assert (Hskip : (forall i t, nth_error cells i <> Some (PTimestamp t)) ->
                    max_timestamp env df rest = Ok (Some wm) ->
                    exists i mx, i < df_nrows df /\ row_ts df (c :: rest) i = Some mx
                                 /\ valid_ts mx /\ wm = strftime mx).
    { intros Hno Hmx. destruct (IH Hrest Hmx) as (i & mx & Hi & Hrow & Hv & Hwm).
      exists i, mx. rewrite (row_ts_skip df c rest cells [] i Ec (Hno i)).
      tauto. }
    destruct (forallb isna cells) eqn:Ena.
    + apply Hskip. intros i t. now apply all_isna_no_timestamp.
    + rewrite (to_datetime_timestamp_cells env cells Hcells).
      destruct (series_max (map cell_ts cells)) as [mx|] eqn:Emx.
      * intros [= <-]. destruct (series_max_cell cells mx Emx) as [i Hi].
        exists i, mx. split; [|split; [|split]].
        -- rewrite <- Hlen. apply nth_error_Some. now rewrite Hi.
        -- cbn [row_ts]. now rewrite Ec, Hi.
        -- apply nth_error_In in Hi.
           destruct (Hcells _ Hi) as [H | (t & [= <-] & Hv)]; [discriminate H | exact Hv].
        -- reflexivity.
      * apply Hskip. intros i t. now apply series_max_none.
Qed.

Lemma max_timestamp_sanitize (env : Env) (df df' : DataFrame) (cols : list string) :
  sanitize_dataframe env df = Ok df' ->
  timestamp_columns df cols ->
  max_timestamp env df' cols = max_timestamp env df cols.
Proof.
  intros Hsan. induction cols as [|c rest IH]; intros Hts; [reflexivity|].
  assert (Hrest : timestamp_columns df rest).
  { intros c' cells v Hc. apply Hts. now right. }
  cbn [max_timestamp]. rewrite (columns_named_sanitize env df df' c Hsan), (IH Hrest).
  assert (Hsame : map (sanitize_column env) (columns_named df c) = columns_named df c).
  { assert (Hall : forall cells, In cells (columns_named df c) -> timestamp_cells cells).
    { intros cells Hin v Hv. apply (Hts c cells v); [now left | | exact Hv].
      now apply columns_named_pair. }
    induction (columns_named df c) as [|cells l IHl]; [reflexivity|].
    cbn [map]. rewrite IHl by (intros x Hx; apply Hall; now right).
    now rewrite (sanitize_timestamp_cells env cells (Hall cells (or_introl eq_refl))). }
  now rewrite Hsame.
Qed.

(** ** Two consecutive runs *)

(** What a cycle that wrote a watermark did. *)
Lemma fact_cycle_commit (env : Env) (src : Source) (fact column : string) (incr : bool)
    (base : string) (cols : list string) (w : World) (wm : string) :
  let out := BuildFacts.fact_cycle env src fact column incr base cols w in
  In wm (watermarks_written fact (events_since w (snd out))) ->
  incr = true /\ wm <> EmptyString
  /\ state_dir (snd out) !! fact = Some (TextFile (watermark_file wm))
  /\ exists df df' w1,
       execute src
         (str_replace base "{where_clause}"
            (fst (fst (BuildFacts.build_where_incremental fact column incr
                         (stored_watermark fact w)))))
         (snd (fst (BuildFacts.build_where_incremental fact column incr
                      (stored_watermark fact w)))) = Ok df
       /\ fst (BuildFacts.export_table env df fact w1) = Ok df'
       /\ max_timestamp env df' cols = Ok (Some wm).
Proof.
  cbv zeta. rewrite fact_cycle_steps. cbv zeta.
  destruct (BuildFacts.build_where_incremental fact column incr (stored_watermark fact w))
    as [[wc params] used]. cbn [fst snd].
  match goal with
  | |- context [guarded_block ?e ?s ?ex ?f ?q ?p ?i ?c (add_events w ?pre)] =>
      set (w' := add_events w pre);
      destruct (guarded_block_outcome e s ex f q p i c w' (facts_export_contract env))
        as (Hg & _ & Hwm & _);
      set (out := guarded_block e s ex f q p i c w') in *;
      assert (Hev : events_since w (snd out) = pre ++ events_since w' (snd out))
  end.
  { destruct Hg as (_ & Hh & _). apply events_since_app.
    rewrite Hh. unfold w', add_events. cbn [history]. now rewrite <- app_assoc. }
  rewrite Hev, watermarks_written_app. cbn [watermarks_written omap app].
  intros Hin. destruct (Hwm wm Hin) as (Hi & Hne & Hs & Hdf).
  split; [exact Hi|]. split; [exact Hne|]. split; [|exact Hdf].
  rewrite Hs. apply lookup_insert_eq.
Qed.

Lemma stored_watermark_written (fact wm : string) (w : World) :
  state_dir w !! fact = Some (TextFile (watermark_file wm)) ->
  stored_watermark fact w = PStr wm.
Proof.
  intros H. rewrite stored_watermark_cases, H, loads_watermark_file. reflexivity.
Qed.

(** C1 — watermark monotonicity.  Two consecutive runs of the cycle of a
    target, the second starting in the world the first left.  When the
    first run wrote the watermark [wm1], the second wrote [wm2], and the
    database of the second run answers the one query that run executes
    (the template with the clause [WHERE <column> > %(wm)s], the parameter
    [wm] bound to [wm1]) with rows whose timestamp passes the clause, then
    incremental mode is on and [wm1 <= wm2] as timestamps.  Nothing is
    asked of the database for any other query. *)
Theorem watermark_monotone (env : Env) (src1 src2 : Source)
    (fact column base : string) (incr : bool) (cols : list string)
    (w0 : World) (wm1 wm2 : string) :
  let w1 := snd (BuildFacts.fact_cycle env src1 fact column incr base cols w0) in
  let w2 := snd (BuildFacts.fact_cycle env src2 fact column incr base cols w1) in
  let where_clause := "WHERE " +:+ column +:+ " > %(wm)s" in
  let params := Some [("wm", PStr wm1)] in
  answers_where src2 (str_replace base "{where_clause}" where_clause) where_clause params cols ->
  In wm1 (watermarks_written fact (events_since w0 w1)) ->
  In wm2 (watermarks_written fact (events_since w1 w2)) ->
  incr = true /\ wm_le wm1 wm2 = true.
Proof.
  intros w1 w2 wc params Hsrc H1 H2.
  destruct (fact_cycle_commit env src1 fact column incr base cols w0 wm1 H1)
    as (Hincr & Hne & Hstate & _).
  fold w1 in Hstate.
  destruct (fact_cycle_commit env src2 fact column incr base cols w1 wm2 H2)
    as (_ & _ & _ & df & df' & w' & Hex & Hexp & Hmx).
  split; [exact Hincr|].
  rewrite (stored_watermark_written fact wm1 w1 Hstate) in Hex.
  subst incr.
  assert (Hwc : BuildFacts.build_where_incremental fact column true (PStr wm1)
                = (wc, params, true)).
  { unfold BuildFacts.build_where_incremental. cbn [truthy andb].
    destruct (String.eqb wm1 "") eqn:E; [|reflexivity].
    apply String.eqb_eq in E. contradiction. }
  rewrite Hwc in Hex. cbn [fst snd] in Hex.
  destruct (Hsrc df Hex) as (Hwf & Hts & Hrows).
  assert (Hmx' : max_timestamp env df cols = Ok (Some wm2)).
  { apply facts_export_returns in Hexp.
    destruct (df_empty df); [now subst df'|].
    now rewrite (max_timestamp_sanitize env df df' cols Hexp Hts) in Hmx. }
  destruct (max_timestamp_row env df cols wm2 Hwf Hts Hmx') as (i & mx & Hi & Hrow & Hv & ->).
  specialize (Hrows i Hi). rewrite Hrow in Hrows.
  unfold where_admits, wc, params in Hrows.
  rewrite where_clause_not_empty, strict_predicate_where in Hrows.
  cbn [String.eqb Ascii.eqb Bool.eqb andb] in Hrows.
  unfold wm_le. rewrite (parse_watermark_strftime mx Hv).
  destruct (parse_watermark wm1) as [a|] eqn:Ea; [|discriminate Hrows].
  apply ts_leb_trunc; [now apply (parse_watermark_whole wm1) | | exact Hrows].
  destruct Hv as (_ & _ & _ & _ & _ & _ & Hn). lia.
Qed.

(** A first run over a row stamped 10:00:00 on 1 January 2024, then a run
    over a row stamped half a microsecond past midnight of 2 January.  The
    database of the second run answers the incremental query with that
    row. *)
Lemma watermark_monotone_witness :
  let t1 := mkTs 2024 1 1 10 0 0 0 in
  let t2 := mkTs 2024 1 2 0 0 0 500 in
  let cycle src := BuildFacts.fact_cycle default_env src "fact_pago" "updated_at" true
                     "{where_clause}" ["updated_at"] in
  let w0 := mkWorld ∅ ∅ ∅ [] in
  let w1 := snd (cycle (source_at t1) w0) in
  let w2 := snd (cycle (source_at t2) w1) in
  answers_where (source_at t2) "WHERE updated_at > %(wm)s" "WHERE updated_at > %(wm)s"
    (Some [("wm", PStr "2024-01-01 10:00:00")]) ["updated_at"]
  /\ In "2024-01-01 10:00:00" (watermarks_written "fact_pago" (events_since w0 w1))
  /\ In "2024-01-02 00:00:00" (watermarks_written "fact_pago" (events_since w1 w2))
  /\ wm_le "2024-01-01 10:00:00" "2024-01-02 00:00:00" = true.
Proof.
  cbv zeta.
  assert (Hsrc : answers_where (source_at (mkTs 2024 1 2 0 0 0 500))
                   (str_replace "{where_clause}" "{where_clause}"
                      ("WHERE " +:+ "updated_at" +:+ " > %(wm)s"))
                   ("WHERE " +:+ "updated_at" +:+ " > %(wm)s")
                   (Some [("wm", PStr "2024-01-01 10:00:00")]) ["updated_at"]).
  { intros df Hdf. vm_compute in Hdf. injection Hdf as <-.
    split; [repeat constructor|]. split.
    - intros c cells v _ [[= _ <-]|[]] [<-|[]]. right. eexists. split; [reflexivity|].
      unfold valid_ts; cbn; lia.
    - intros i Hi. cbn in Hi. assert (i = 0) as -> by lia. vm_compute. reflexivity. }
  assert (H1 : In "2024-01-01 10:00:00"
                 (watermarks_written "fact_pago"
                    (events_since (mkWorld ∅ ∅ ∅ [])
                       (snd (BuildFacts.fact_cycle default_env
                               (source_at (mkTs 2024 1 1 10 0 0 0)) "fact_pago" "updated_at"
                               true "{where_clause}" ["updated_at"] (mkWorld ∅ ∅ ∅ []))))))
    by (vm_compute; left; reflexivity).
  assert (H2 : In "2024-01-02 00:00:00"
                 (watermarks_written "fact_pago"
                    (events_since
                       (snd (BuildFacts.fact_cycle default_env
                               (source_at (mkTs 2024 1 1 10 0 0 0)) "fact_pago" "updated_at"
                               true "{where_clause}" ["updated_at"] (mkWorld ∅ ∅ ∅ [])))
                       (snd (BuildFacts.fact_cycle default_env
                               (source_at (mkTs 2024 1 2 0 0 0 500)) "fact_pago" "updated_at"
                               true "{where_clause}" ["updated_at"]
                               (snd (BuildFacts.fact_cycle default_env
                                       (source_at (mkTs 2024 1 1 10 0 0 0)) "fact_pago"
                                       "updated_at" true "{where_clause}" ["updated_at"]
                                       (mkWorld ∅ ∅ ∅ []))))))))
    by (vm_compute; left; reflexivity).
  split; [exact Hsrc|]. split; [exact H1|]. split; [exact H2|].
  exact (proj2 (watermark_monotone default_env _ _ _ _ _ _ _ _ _ _ Hsrc H1 H2)).
Defined.
(** ** More on column de-duplication *)

Lemma to_uint_not_nil (n : nat) : Nat.to_uint n <> Decimal.Nil.
Proof.
  intros H. pose proof (DecimalNat.Unsigned.of_to n) as Hn. rewrite H in Hn.
  cbn in Hn. subst n. discriminate H.
Qed.

Lemma str_nat_inj (a b : nat) : str_nat a = str_nat b -> a = b.
Proof.
  unfold str_nat. intros H. apply (f_equal NilZero.uint_of_string) in H.
  rewrite !NilZero.usu in H by apply to_uint_not_nil.
  injection H as H. now apply DecimalNat.Unsigned.to_uint_inj.
Qed.

Lemma str_nat_digits (n : nat) :
  Forall (fun c => is_digit c = true) (Json.chars (str_nat n)).
Proof.
  unfold str_nat. pose proof (to_uint_not_nil n) as Hn.
  pose proof (is_digit_of_uint (Nat.to_uint n)) as Hd.
  destruct (Nat.to_uint n); [contradiction | exact Hd ..].
Qed.

Lemma chars_inj (a b : string) : Json.chars a = Json.chars b -> a = b.
Proof. intros H. apply (f_equal Json.text) in H. now rewrite !text_chars in H. Qed.

Lemma digits_then_underscore (l1 l2 r1 r2 : Json.Text) :
  Forall (fun c => is_digit c = true) l1 ->
  Forall (fun c => is_digit c = true) l2 ->
  l1 ++ "_"%char :: r1 = l2 ++ "_"%char :: r2 ->
  l1 = l2 /\ r1 = r2.
Proof.
  intros H1. revert l2. induction H1 as [|c l1 Hc _ IH]; intros l2 H2 Heq.
  - destruct H2 as [|d l2 Hd _]; cbn in Heq.
    + now injection Heq as <-.
    + injection Heq as <- _. discriminate Hd.
  - destruct H2 as [|d l2 Hd H2]; cbn in Heq.
    + injection Heq as -> _. discriminate Hc.
    + injection Heq as <- Heq. destruct (IH l2 H2 Heq) as [-> ->]. now split.
Qed.

(** A generated name is read in one way only. *)
Lemma deduplicated_name_inj (c d : string) (k n : nat) :
  c +:+ "__" +:+ str_nat k = d +:+ "__" +:+ str_nat n -> c = d /\ k = n.
Proof.
  intros H. apply (f_equal Json.chars) in H. rewrite !chars_app in H.
  apply (f_equal (@rev ascii)) in H. rewrite !rev_app_distr, <- !app_assoc in H.
  change (rev (Json.chars "__")) with ["_"%char; "_"%char] in H. cbn [app] in H.
  apply digits_then_underscore in H as [Hd Hc];
    try (apply Forall_rev, str_nat_digits).
  apply rev_inj in Hd. apply chars_inj, str_nat_inj in Hd.
  injection Hc as Hc. apply rev_inj, chars_inj in Hc. now split.
Qed.

Lemma occurrences_cons (c a : string) (l : list string) :
  occurrences c (a :: l) = (if String.eqb c a then 1 else 0) + occurrences c l.
Proof. unfold occurrences. cbn [List.filter]. now destruct (String.eqb c a). Qed.

Lemma occurrences_firstn_le (c : string) (cols : list string) (i j : nat) :
  i <= j -> occurrences c (firstn i cols) <= occurrences c (firstn j cols).
Proof.
  revert i j. induction cols as [|a l IH]; intros i j Hij.
  - now rewrite !firstn_nil.
  - destruct i as [|i]; [cbn; lia|]. destruct j as [|j]; [lia|].
    cbn [firstn]. rewrite !occurrences_cons.
    specialize (IH i j ltac:(lia)). lia.
Qed.

Lemma occurrences_firstn_lt (c : string) (cols : list string) (i j : nat) :
  i < j -> nth_error cols i = Some c ->
  occurrences c (firstn i cols) < occurrences c (firstn j cols).
Proof.
  revert i j. induction cols as [|a l IH]; intros i j Hij Hi.
  - now destruct i.
  - destruct j as [|j]; [lia|]. destruct i as [|i]; cbn [nth_error firstn] in *.
    + injection Hi as ->. rewrite occurrences_cons, String.eqb_refl.
      unfold occurrences at 1. cbn. lia.
    + rewrite !occurrences_cons. specialize (IH i j ltac:(lia) Hi). lia.
Qed.

Lemma occurrences_firstn_nodup (c : string) (cols : list string) (i : nat) :
  List.NoDup cols -> nth_error cols i = Some c -> occurrences c (firstn i cols) = 0.
Proof.
  intros Hnd Hi.
  destruct (occurrences c (firstn i cols)) as [|n] eqn:E; [reflexivity|].
  exfalso.
  assert (Hin : In c (firstn i cols)).
  { unfold occurrences in E.
    destruct (List.filter (String.eqb c) (firstn i cols)) as [|x l] eqn:F; [discriminate E|].
    assert (Hx : In x (List.filter (String.eqb c) (firstn i cols))) by (rewrite F; now left).
    apply filter_In in Hx as [Hx Hc]. apply String.eqb_eq in Hc. now subst x. }
  apply In_nth_error in Hin as [j Hj].
  assert (Hjlt : j < i).
  { assert (Hlen : j < length (firstn i cols)) by (apply nth_error_Some; now rewrite Hj).
    rewrite length_firstn in Hlen. lia. }
  rewrite nth_error_firstn in Hj.
  destruct (Nat.ltb_spec j i) as [_|Hge]; [|lia].
  rewrite NoDup_nth_error in Hnd.
  assert (Heq : j = i).
  { apply Hnd; [apply nth_error_Some; now rewrite Hj | now rewrite Hj, Hi]. }
  lia.
Qed.

Lemma generated_name_longer (c : string) (k : nat) : c +:+ "__" +:+ str_nat k <> c.
Proof.
  intros H. apply (f_equal Json.chars) in H. apply (f_equal (@length ascii)) in H.
  rewrite !chars_app, !length_app in H. cbn in H. lia.
Qed.

(** The aliases of the select list: ten names, and [product_unit] once
    more when the unit of the request stands in for a missing unit of the
    product. *)
Lemma lines_alias_list (src : Source) (cols_qp : list string) :
  exists fallback,
    map snd (select_items_linea src cols_qp)
    = ["quote_id"; "quote_product_id"; "product_id"; "sku"; "product_unit";
       "request_id"; "quantity"] ++ fallback ++ ["offer_id"; "price"; "currency_code"]
    /\ (fallback = [] \/ fallback = ["product_unit"]).
Proof.
  unfold select_items_linea, base_items, request_items, offer_items. cbv zeta.
  rewrite !map_app. cbn [map snd app].
  assert (Hoff : map snd
                   match catalog src "public" "oro_sale_quote_prod_offer" with
                   | Some cols_off =>
                       match BuildQuotes.pick cols_off ["quote_product_request_id"],
                             BuildQuotes.pick cols_off ["id"] with
                       | Some _, Some oid =>
                           [("off." +:+ oid, "offer_id");
                            (match BuildQuotes.pick cols_off ["price"; "value"; "amount"] with
                             | Some p => "off." +:+ p | None => "NULL::numeric" end, "price");
                            (match BuildQuotes.pick cols_off ["currency"; "price_currency"] with
                             | Some c => "off." +:+ c | None => "NULL::text" end,
                             "currency_code")]
                       | _, _ => [("NULL::bigint", "offer_id"); ("NULL::numeric", "price");
                                  ("NULL::text", "currency_code")]
                       end
                   | None => [("NULL::bigint", "offer_id"); ("NULL::numeric", "price");
                              ("NULL::text", "currency_code")]
                   end
                 = ["offer_id"; "price"; "currency_code"]).
  { destruct (catalog src "public" "oro_sale_quote_prod_offer") as [cols_off|]; [|reflexivity].
    destruct (BuildQuotes.pick cols_off ["quote_product_request_id"]); [|reflexivity].
    destruct (BuildQuotes.pick cols_off ["id"]); reflexivity. }
  rewrite Hoff.
  destruct (catalog src "public" "oro_sale_quote_prod_request") as [cols_req|];
    [|exists []; split; [reflexivity | now left]].
  destruct (BuildQuotes.pick cols_req ["quote_product_id"]);
    [|exists []; split; [reflexivity | now left]].
  destruct (BuildQuotes.pick cols_req ["id"]);
    [|exists []; split; [reflexivity | now left]].
  destruct (BuildQuotes.pick cols_req ["product_unit_code"; "unit_code"; "product_unit"]);
    destruct (BuildQuotes.pick cols_qp ["product_unit_code"; "unit_code"; "product_unit"]);
    first [ exists []; split; [reflexivity | now left]
          | exists ["product_unit"]; split; [reflexivity | now right] ].
Qed.

(** The names [_make_unique_columns] returns are distinct when no given
    name is itself a generated one. *)
Lemma make_unique_nodup (cols : list string) :
  (forall c d k, In c cols -> In d cols -> c <> d +:+ "__" +:+ str_nat (S k)) ->
  List.NoDup (BuildQuotes._make_unique_columns cols).
Proof.
  intros Hclash.
  destruct (make_unique_go_spec cols ∅ [] seen_after_empty) as [Hlen Hnth].
  fold (BuildQuotes._make_unique_columns cols) in Hlen, Hnth. cbn [app] in Hnth.
  assert (Hpair : forall a b ca cb,
             a < b -> nth_error cols a = Some ca -> nth_error cols b = Some cb ->
             deduplicated_name ca (occurrences ca (firstn a cols))
             = deduplicated_name cb (occurrences cb (firstn b cols)) -> False).
  { intros a b ca cb Hab Ha Hb Heq.
    pose proof (nth_error_In _ _ Ha) as Hina. pose proof (nth_error_In _ _ Hb) as Hinb.
    destruct (occurrences ca (firstn a cols)) as [|ka] eqn:Ea;
      destruct (occurrences cb (firstn b cols)) as [|kb] eqn:Eb;
      cbn [deduplicated_name] in Heq.
    - subst cb. pose proof (occurrences_firstn_lt ca cols a b Hab Ha). lia.
    - exact (Hclash ca cb kb Hina Hinb Heq).
    - exact (Hclash cb ca ka Hinb Hina (eq_sym Heq)).
    - apply deduplicated_name_inj in Heq as [-> Hk].
      pose proof (occurrences_firstn_lt cb cols a b Hab Ha). lia. }
  apply NoDup_nth_error. intros i j Hi Hij. rewrite Hlen in Hi.
  destruct (nth_error cols i) as [ci|] eqn:Ei; [|apply nth_error_None in Ei; lia].
  rewrite (Hnth i ci Ei) in Hij.
  destruct (nth_error cols j) as [cj|] eqn:Ej.
  - rewrite (Hnth j cj Ej) in Hij. injection Hij as Hij.
    destruct (Nat.lt_trichotomy i j) as [Hlt | [-> | Hgt]]; [|reflexivity|].
    + destruct (Hpair i j ci cj Hlt Ei Ej Hij).
    + destruct (Hpair j i cj ci Hgt Ej Ei (eq_sym Hij)).
  - exfalso. apply nth_error_None in Ej. rewrite <- Hlen in Ej.
    apply nth_error_None in Ej. rewrite Ej in Hij. discriminate Hij.
Qed.

(** Distinctness of a list of names that is written out. *)
Ltac nodup_list :=
  repeat (apply List.NoDup_cons;
          [cbn; intros H; repeat (destruct H as [H|H]; [discriminate H|]); exact H|]);
  apply List.NoDup_nil.

(** C8, read to the letter, fails: the names [_make_unique_columns]
    returns are not distinct for every list.  On [price; price; price__1]
    the renamed duplicate meets the third name, which is a first
    occurrence and left as it is. *)
Lemma make_unique_columns_counterexample :
  BuildQuotes._make_unique_columns ["price"; "price"; "price__1"]
  = ["price"; "price__1"; "price__1"]
  /\ ~ List.NoDup (BuildQuotes._make_unique_columns ["price"; "price"; "price__1"]).
Proof.
  assert (Heq : BuildQuotes._make_unique_columns ["price"; "price"; "price__1"]
                = ["price"; "price__1"; "price__1"]) by (vm_compute; reflexivity).
  split; [exact Heq|]. rewrite Heq. intros Hnd.
  apply List.NoDup_cons_iff in Hnd as [_ Hnd].
  apply List.NoDup_cons_iff in Hnd as [Hin _].
  apply Hin. left. reflexivity.
Qed.

(** C8, amended — column de-duplication.  For every list of column names
    [_make_unique_columns] keeps the length and the order, leaves the first
    occurrence of a name as it is and renames its k-th later duplicate to
    [<name>__k]; two columns [price] become [price] and [price__1].  The
    names it returns are pairwise distinct whenever no given name is
    itself of the form [<name>__k], for a given name and a [k] of 1 or
    more.  That is so for the names the script passes to it: the eleven
    aliases of the header query are distinct and returned as they are,
    and the aliases of the lines query, in which only [product_unit] can
    stand twice, come back distinct for every catalog. *)
Theorem make_unique_columns_spec :
  (forall cols : list string,
     length (BuildQuotes._make_unique_columns cols) = length cols /\
     forall i c, nth_error cols i = Some c ->
       nth_error (BuildQuotes._make_unique_columns cols) i
       = Some (deduplicated_name c (occurrences c (firstn i cols))))
  /\ BuildQuotes._make_unique_columns ["price"; "price"] = ["price"; "price__1"]
  /\ (forall cols : list string,
        (forall c d k, In c cols -> In d cols -> c <> d +:+ "__" +:+ str_nat (S k)) ->
        List.NoDup (BuildQuotes._make_unique_columns cols))
  /\ (BuildQuotes._make_unique_columns fact_cotizacion_columns = fact_cotizacion_columns
      /\ List.NoDup fact_cotizacion_columns)
  /\ (forall (src : Source) (cols_qp : list string),
        let aliases := map snd (select_items_linea src cols_qp) in
        List.NoDup (BuildQuotes._make_unique_columns aliases)
        /\ (forall c, In c aliases -> In c lines_aliases)
        /\ (forall c, c <> "product_unit" -> occurrences c aliases <= 1)
        /\ occurrences "product_unit" aliases <= 2).
Proof.
  split; [|split; [|split; [|split]]].
  - intros cols. exact (make_unique_go_spec cols ∅ [] seen_after_empty).
  - vm_compute. reflexivity.
  - exact make_unique_nodup.
  - split; [vm_compute; reflexivity|]. vm_compute. nodup_list.
  - intros src cols_qp. cbv zeta.
    destruct (lines_alias_list src cols_qp) as (fb & -> & [-> | ->]).
    + split; [vm_compute; nodup_list|]. split; [|split].
      * intros c Hc. cbn in Hc |- *. tauto.
      * intros c Hne. unfold occurrences. cbn [app List.filter].
        repeat match goal with
               | |- context [String.eqb c ?s] =>
                   destruct (String.eqb_spec c s) as [->|_]
               end; cbn; try lia; try congruence.
      * vm_compute. lia.
    + split; [vm_compute; nodup_list|]. split; [|split].
      * intros c Hc. cbn in Hc |- *. tauto.
      * intros c Hne. unfold occurrences. cbn [app List.filter].
        repeat match goal with
               | |- context [String.eqb c ?s] =>
                   destruct (String.eqb_spec c s) as [->|_]
               end; cbn; try lia; try congruence.
      * vm_compute. lia.
Qed.

(* ===================================================================== *)
(** * Part III.  Further properties of the scripts                        *)
(* ===================================================================== *)

(** ** The watermark store and the runs *)


(** X2 — incremental mode switched off.  A cycle run with incremental
    disabled never raises, leaves the state directory exactly as it was,
    and runs the query without a where-clause and without parameters, even
    when a watermark of an earlier run is stored; the guarded block of
    [build_quotes.py] leaves the state directory alone as well. *)
Theorem disabled_incremental_keeps_state (env : Env) (src : Source)
    (fact column base : string) (cols : list string) (w : World) :
  let out := BuildFacts.fact_cycle env src fact column false base cols w in
  fst out = Ok tt
  /\ state_dir (snd out) = state_dir w
  /\ watermarks_written fact (events_since w (snd out)) = []
  /\ In (Executed (str_replace base "{where_clause}" "") None) (events_since w (snd out))
  /\ (forall q params,
        state_dir (snd (guarded_block env src (BuildQuotes.export_table env) fact q params
                          false cols w)) = state_dir w).
Proof.
  cbv zeta.
  assert (Hnone : forall export q params w0,
             export_contract export ->
             watermarks_written fact
               (events_since w0 (snd (guarded_block env src export fact q params false cols w0)))
             = []
             /\ state_dir (snd (guarded_block env src export fact q params false cols w0))
                = state_dir w0).
  { intros export q params w0 Hc.
    destruct (guarded_block_outcome env src export fact q params false cols w0 Hc)
      as (_ & _ & Hwm & Hkeep & _).
    assert (Hno : watermarks_written fact
                    (events_since w0 (snd (guarded_block env src export fact q params false
                                              cols w0))) = []).
    { destruct (watermarks_written fact _) as [|wm l] eqn:E; [reflexivity|].
      destruct (Hwm wm (or_introl eq_refl)) as [Hincr _]. discriminate Hincr. }
    split; [exact Hno | exact (Hkeep Hno)]. }
  split; [apply fact_cycle_guarded|].
  pose proof (fact_cycle_executes env src fact column false base cols w) as Hex.
  rewrite fact_cycle_steps in *. cbv zeta in *.
  change (BuildFacts.build_where_incremental fact column false (stored_watermark fact w))
    with (EmptyString, @None (list (string * PyVal)), false) in *.
  cbv iota beta in *.
  match goal with
  | |- context [guarded_block env src ?ex fact ?q ?p false cols (add_events w ?pre)] =>
      destruct (Hnone ex q p (add_events w pre) (facts_export_contract env)) as [Hno Hs];
      destruct (guarded_block_outcome env src ex fact q p false cols (add_events w pre)
                  (facts_export_contract env)) as ((_ & Hh & _) & _);
      assert (Hev : events_since w (snd (guarded_block env src ex fact q p false cols
                                           (add_events w pre)))
                    = pre ++ events_since (add_events w pre)
                               (snd (guarded_block env src ex fact q p false cols
                                       (add_events w pre))))
  end.
  { apply events_since_app. rewrite Hh. unfold add_events. cbn [history].
    now rewrite <- app_assoc. }
  split; [exact Hs|]. split.
  - rewrite Hev, watermarks_written_app, Hno. reflexivity.
  - split; [exact Hex|].
    intros q params. apply (Hnone _ q params w (quotes_export_contract env)).
Qed.

(** X3 — a committed watermark filters the next run.  When a cycle wrote
    the watermark [wm], the next cycle of the same target, started in the
    world the first left, runs the query with the clause
    [WHERE <column> > %(wm)s] and the parameter [wm] bound to that text. *)
Theorem next_run_filters_by_watermark (env : Env) (src1 src2 : Source)
    (fact column base : string) (incr : bool) (cols : list string)
    (w0 : World) (wm : string) :
  let w1 := snd (BuildFacts.fact_cycle env src1 fact column incr base cols w0) in
  let w2 := snd (BuildFacts.fact_cycle env src2 fact column incr base cols w1) in
  In wm (watermarks_written fact (events_since w0 w1)) ->
  In (Executed (str_replace base "{where_clause}" ("WHERE " +:+ column +:+ " > %(wm)s"))
               (Some [("wm", PStr wm)]))
     (events_since w1 w2).
Proof.
  intros w1 w2 H1.
  destruct (fact_cycle_commit env src1 fact column incr base cols w0 wm H1)
    as (Hincr & Hne & Hstate & _).
  fold w1 in Hstate. subst incr.
  pose proof (fact_cycle_executes env src2 fact column true base cols w1) as Hex.
  rewrite (stored_watermark_written fact wm w1 Hstate) in Hex.
  unfold BuildFacts.build_where_incremental in Hex. cbn [truthy andb] in Hex.
  destruct (String.eqb wm "") eqn:E.
  - apply String.eqb_eq in E. contradiction.
  - exact Hex.
Qed.

(** A first run over a row stamped 10:00:00 on 1 January 2024; the second
    run asks for what is later. *)
Lemma next_run_filters_by_watermark_witness :
  let cycle src := BuildFacts.fact_cycle default_env src "fact_pago" "updated_at" true
                     "{where_clause}" ["updated_at"] in
  let w0 := mkWorld ∅ ∅ ∅ [] in
  let w1 := snd (cycle (source_at (mkTs 2024 1 1 10 0 0 0)) w0) in
  let w2 := snd (cycle (source_at (mkTs 2024 1 2 0 0 0 500)) w1) in
  In "2024-01-01 10:00:00" (watermarks_written "fact_pago" (events_since w0 w1))
  /\ In (Executed "WHERE updated_at > %(wm)s" (Some [("wm", PStr "2024-01-01 10:00:00")]))
        (events_since w1 w2).
Proof.
  cbv zeta.
  assert (H1 : In "2024-01-01 10:00:00"
                 (watermarks_written "fact_pago"
                    (events_since (mkWorld ∅ ∅ ∅ [])
                       (snd (BuildFacts.fact_cycle default_env
                               (source_at (mkTs 2024 1 1 10 0 0 0)) "fact_pago" "updated_at"
                               true "{where_clause}" ["updated_at"] (mkWorld ∅ ∅ ∅ []))))))
    by (vm_compute; left; reflexivity).
  split; [exact H1|].
  exact (next_run_filters_by_watermark default_env _
           (source_at (mkTs 2024 1 2 0 0 0 500)) _ _ _ _ _ _ _ H1).
Defined.

(** ** The order of timestamps and the greatest of a column *)

Lemma lex_compare_antisym (a b : list Z) :
  lex_compare b a = CompOpp (lex_compare a b).
Proof.
  revert b. induction a as [|x a IH]; intros [|y b]; try reflexivity.
  cbn [lex_compare]. rewrite (Z.compare_antisym x y).
  destruct (Z.compare x y); cbn [CompOpp]; [apply IH | reflexivity | reflexivity].
Qed.

Lemma lex_compare_le_trans (a b c : list Z) :
  lex_compare a b <> Gt -> lex_compare b c <> Gt -> lex_compare a c <> Gt.
Proof.
  revert b c. induction a as [|x a IH]; intros [|y b] [|z c]; cbn [lex_compare];
    try congruence.
  destruct (Z.compare_spec x y) as [-> | Hxy | Hxy]; [| |congruence].
  - destruct (Z.compare_spec y z) as [-> | Hyz | Hyz]; [|congruence|congruence].
    apply IH.
  - intros _. destruct (Z.compare_spec y z) as [-> | Hyz | Hyz]; [| |congruence].
    + intros _. destruct (Z.compare_spec x z); [lia | congruence | lia].
    + intros _. destruct (Z.compare_spec x z); [lia | congruence | lia].
Qed.

Lemma ts_leb_refl (t : Timestamp) : ts_leb t t = true.
Proof. unfold ts_leb, ts_compare. now rewrite lex_compare_refl. Qed.

Lemma ts_leb_trans (a b c : Timestamp) :
  ts_leb a b = true -> ts_leb b c = true -> ts_leb a c = true.
Proof.
  unfold ts_leb, ts_compare. intros Hab Hbc.
  pose proof (lex_compare_le_trans (ts_key a) (ts_key b) (ts_key c)) as H.
  destruct (lex_compare (ts_key a) (ts_key b)); try discriminate;
    destruct (lex_compare (ts_key b) (ts_key c)); try discriminate;
    destruct (lex_compare (ts_key a) (ts_key c)); try reflexivity;
    exfalso; apply H; congruence.
Qed.

Lemma ts_ltb_leb (a b : Timestamp) : ts_ltb a b = true -> ts_leb a b = true.
Proof. unfold ts_ltb, ts_leb. now destruct (ts_compare a b). Qed.

Lemma ts_not_ltb_leb (a b : Timestamp) : ts_ltb a b = false -> ts_leb b a = true.
Proof.
  unfold ts_ltb, ts_leb, ts_compare. rewrite (lex_compare_antisym (ts_key a) (ts_key b)).
  now destruct (lex_compare (ts_key a) (ts_key b)).
Qed.

Lemma ts_max_upper (a b : Timestamp) :
  ts_leb a (ts_max a b) = true /\ ts_leb b (ts_max a b) = true.
Proof.
  unfold ts_max. destruct (ts_ltb a b) eqn:E.
  - split; [now apply ts_ltb_leb | apply ts_leb_refl].
  - split; [apply ts_leb_refl | now apply ts_not_ltb_leb].
Qed.

Lemma series_max_absent (l : list (option Timestamp)) (t : Timestamp) :
  series_max l = None -> ~ In (Some t) l.
Proof.
  induction l as [|[t0|] l IH]; cbn [series_max]; intros H Hin.
  - destruct Hin.
  - destruct (series_max l); discriminate H.
  - destruct Hin as [Hin|Hin]; [discriminate Hin | now apply IH].
Qed.

Lemma series_max_upper (l : list (option Timestamp)) (mx t : Timestamp) :
  series_max l = Some mx -> In (Some t) l -> ts_leb t mx = true.
Proof.
  revert mx. induction l as [|[t0|] l IH]; intros mx; cbn [series_max]; [discriminate| |].
  - destruct (series_max l) as [m|] eqn:Em.
    + intros [= <-] [[= ->]|Hin].
      * apply ts_max_upper.
      * apply ts_leb_trans with m; [now apply IH | apply ts_max_upper].
    + intros [= <-] [[= ->]|Hin]; [apply ts_leb_refl|].
      now destruct (series_max_absent l t Em).
  - intros Hmx [Hin|Hin]; [discriminate Hin | now apply IH].
Qed.

Lemma timestamp_cells_all_null (cells : list PyVal) :
  timestamp_cells cells ->
  series_max (map cell_ts cells) = None ->
  forallb isna cells = true.
Proof.
  intros Hc Hmx. apply forallb_forall. intros v Hv.
  destruct (Hc v Hv) as [-> | (t & -> & _)]; [reflexivity|].
  exfalso. apply (series_max_absent _ t Hmx).
  apply (in_map cell_ts) in Hv. exact Hv.
Qed.

(** X4 — the watermark is the greatest timestamp of the first usable
    column.  When [max_timestamp] returns a watermark over timestamp
    columns, it is the rendering of a timestamp [mx] of one of the named
    columns; no timestamp of that column is later than [mx]; and every
    column named before it is missing from the frame or all null: a later
    column is used only when the earlier ones hold nothing. *)
Theorem max_timestamp_is_greatest (env : Env) (df : DataFrame) (cols : list string)
    (wm : string) :
  timestamp_columns df cols ->
  max_timestamp env df cols = Ok (Some wm) ->
  exists before c after cells mx,
    cols = before ++ c :: after
    /\ columns_named df c = [cells]
    /\ In (PTimestamp mx) cells
    /\ wm = strftime mx
    /\ (forall t, In (PTimestamp t) cells -> ts_leb t mx = true)
    /\ (forall c' cells', In c' before -> In cells' (columns_named df c') ->
          forallb isna cells' = true).
Proof.
  induction cols as [|c rest IH]; intros Hts; [discriminate|].
  assert (Hrest : timestamp_columns df rest).
  { intros c' cells v Hc. apply Hts. now right. }
  assert (Hskip : (forall cells', In cells' (columns_named df c) -> forallb isna cells' = true) ->
                  max_timestamp env df rest = Ok (Some wm) ->
                  exists before c0 after cells mx,
                    c :: rest = before ++ c0 :: after
                    /\ columns_named df c0 = [cells]
                    /\ In (PTimestamp mx) cells
                    /\ wm = strftime mx
                    /\ (forall t, In (PTimestamp t) cells -> ts_leb t mx = true)
                    /\ (forall c' cells', In c' before -> In cells' (columns_named df c') ->
                          forallb isna cells' = true)).
  { intros Hnull Hmx.
    destruct (IH Hrest Hmx) as (before & c0 & after & cells & mx & -> & Hc0 & Hin & Hwm & Hup & Hb).
    exists (c :: before), c0, after, cells, mx.
    split; [reflexivity|]. split; [exact Hc0|]. split; [exact Hin|]. split; [exact Hwm|].
    split; [exact Hup|].
    intros c' cells' [<-|Hc'] Hcells'; [now apply Hnull | now apply (Hb c')]. }
  cbn [max_timestamp].
  destruct (columns_named df c) as [|cells [|more tl]] eqn:Ec; [| |discriminate].
  - apply Hskip. intros cells' [].
  - assert (Hcells : timestamp_cells cells).
    { intros v Hv. apply (Hts c cells v); [now left | | exact Hv].
      apply columns_named_pair. rewrite Ec. now left. }
    destruct (forallb isna cells) eqn:Ena.
    + apply Hskip. intros cells' [<-|[]]. exact Ena.
    + rewrite (to_datetime_timestamp_cells env cells Hcells).
      destruct (series_max (map cell_ts cells)) as [mx|] eqn:Emx.
      * intros [= <-]. exists [], c, rest, cells, mx.
        destruct (series_max_cell cells mx Emx) as [i Hi].
        split; [reflexivity|]. split; [exact Ec|].
        split; [now apply nth_error_In with i|]. split; [reflexivity|].
        split; [|intros c' cells' []].
        intros t Ht. apply (series_max_upper _ mx t Emx).
        apply (in_map cell_ts) in Ht. exact Ht.
      * rewrite (timestamp_cells_all_null cells Hcells Emx) in Ena. discriminate Ena.
Qed.

(** A frame where [updated_at] is all null and [created_at] holds two
    timestamps: the later one is the watermark. *)
Lemma max_timestamp_is_greatest_witness :
  let df := mkDf 2 [("updated_at", [PNone; PNone]);
                    ("created_at", [PTimestamp (mkTs 2024 3 5 8 30 0 0);
                                    PTimestamp (mkTs 2024 3 5 9 15 20 0)])] in
  timestamp_columns df ["updated_at"; "created_at"]
  /\ max_timestamp default_env df ["updated_at"; "created_at"] = Ok (Some "2024-03-05 09:15:20")
  /\ exists before c after cells mx,
       ["updated_at"; "created_at"] = before ++ c :: after
       /\ columns_named df c = [cells]
       /\ In (PTimestamp mx) cells
       /\ "2024-03-05 09:15:20" = strftime mx
       /\ (forall t, In (PTimestamp t) cells -> ts_leb t mx = true)
       /\ (forall c' cells', In c' before -> In cells' (columns_named df c') ->
             forallb isna cells' = true).
Proof.
  cbv zeta.
  assert (Hts : timestamp_columns
                  (mkDf 2 [("updated_at", [PNone; PNone]);
                           ("created_at", [PTimestamp (mkTs 2024 3 5 8 30 0 0);
                                           PTimestamp (mkTs 2024 3 5 9 15 20 0)])])
                  ["updated_at"; "created_at"]).
  { intros c cells v _ [[= _ <-]|[[= _ <-]|[]]] Hv.
    - left. destruct Hv as [<-|[<-|[]]]; reflexivity.
    - right. destruct Hv as [<-|[<-|[]]]; eexists; (split; [reflexivity|]);
        unfold valid_ts; cbn; lia. }
  assert (Hmx : max_timestamp default_env
                  (mkDf 2 [("updated_at", [PNone; PNone]);
                           ("created_at", [PTimestamp (mkTs 2024 3 5 8 30 0 0);
                                           PTimestamp (mkTs 2024 3 5 9 15 20 0)])])
                  ["updated_at"; "created_at"] = Ok (Some "2024-03-05 09:15:20"))
    by (vm_compute; reflexivity).
  split; [exact Hts|]. split; [exact Hmx|].
  exact (max_timestamp_is_greatest default_env _ _ _ Hts Hmx).
Defined.

Lemma ts_ltb_trunc (t : Timestamp) :
  (0 <= ts_nanos t)%Z -> ts_ltb (trunc_seconds t) t = negb (Z.eqb (ts_nanos t) 0).
Proof.
  destruct t as [y m d h i s n]. unfold ts_ltb, ts_compare, ts_key, trunc_seconds.
  cbn. rewrite !Z.compare_refl. intros Hn.
  destruct n; [reflexivity | reflexivity | lia].
Qed.

(** X5 — the row that set the watermark and the next run.  The watermark
    keeps whole seconds and the next run asks for rows strictly later than
    it: the row whose timestamp [mx] gave the watermark passes the
    predicate of the next run exactly when [mx] has a part below one
    second.  Such a row is extracted again; a row stamped on the whole
    second is not. *)
Theorem watermark_row_readmitted (fact column : string) (mx : Timestamp) :
  valid_ts mx ->
  let '(where_clause, params, _) :=
    BuildFacts.build_where_incremental fact column true (PStr (strftime mx)) in
  where_admits where_clause params (Some mx) = negb (Z.eqb (ts_nanos mx) 0).
Proof.
  intros Hv.
  assert (Hne : String.eqb (strftime mx) "" = false) by reflexivity.
  unfold BuildFacts.build_where_incremental. cbn [truthy andb]. rewrite Hne. cbn [negb].
  unfold where_admits.
  rewrite where_clause_not_empty, strict_predicate_where.
  cbn [String.eqb Ascii.eqb Bool.eqb andb].
  rewrite (parse_watermark_strftime mx Hv).
  apply ts_ltb_trunc. destruct Hv as (_ & _ & _ & _ & _ & _ & Hn). lia.
Qed.

(** A row stamped half a microsecond past 09:15:20 comes back. *)
Lemma watermark_row_readmitted_witness :
  valid_ts (mkTs 2024 3 5 9 15 20 500)
  /\ where_admits "WHERE updated_at > %(wm)s" (Some [("wm", PStr "2024-03-05 09:15:20")])
       (Some (mkTs 2024 3 5 9 15 20 500)) = true.
Proof.
  assert (Hv : valid_ts (mkTs 2024 3 5 9 15 20 500)) by (unfold valid_ts; cbn; lia).
  split; [exact Hv|].
  exact (watermark_row_readmitted "fact_pago" "updated_at" _ Hv).
Defined.

(** ** The sanitizer and the exporter *)

(** X6 — what the sanitizer does to a column.  The column keeps its
    length.  When one of its first ten non-null cells is a dict, a list or
    a tuple, every cell is rewritten by [to_json_string] and no composite
    cell is left; otherwise the column is returned untouched, so a
    composite cell that comes after ten non-null scalar cells stays in the
    frame as it is.  Sanitizing twice is sanitizing once. *)
Theorem sanitize_column_sampling (env : Env) (cells : list PyVal) :
  length (sanitize_column env cells) = length cells
  /\ (existsb is_composite (sample cells) = true ->
        sanitize_column env cells = map (to_json_string env) cells
        /\ forallb (fun v => negb (is_composite v)) (sanitize_column env cells) = true)
  /\ (existsb is_composite (sample cells) = false -> sanitize_column env cells = cells)
  /\ (forall first rest,
        length first = 10 ->
        forallb (fun v => negb (isna v) && negb (is_composite v)) first = true ->
        sanitize_column env (first ++ rest) = first ++ rest)
  /\ sanitize_column env (sanitize_column env cells) = sanitize_column env cells.
Proof.
  split; [apply sanitize_column_length|].
  split; [|split; [apply sanitize_column_kept|split; [|apply sanitize_column_idempotent]]].
  - intros H. rewrite (sanitize_column_rewritten env cells H).
    split; [reflexivity | apply to_json_string_all_scalar].
  - intros first rest Hlen Hall. apply sanitize_column_kept.
    assert (Hna : forallb (fun v => negb (isna v)) first = true).
    { apply forallb_forall. intros v Hv. rewrite forallb_forall in Hall.
      specialize (Hall v Hv). now apply andb_true_iff in Hall as [? _]. }
    rewrite (sample_first_ten first rest Hlen Hna).
    destruct (existsb is_composite first) eqn:E; [|reflexivity].
    apply existsb_exists in E as (v & Hv & Hc). rewrite forallb_forall in Hall.
    specialize (Hall v Hv). rewrite Hc, andb_false_r in Hall. discriminate Hall.
Qed.

Lemma columns_named_count (df : DataFrame) (c : string) :
  length (columns_named df c) = count_occ string_dec (column_names df) c.
Proof.
  unfold columns_named, column_names. rewrite length_map.
  induction (df_columns df) as [|[name cells] rest IH]; [reflexivity|].
  cbn [List.filter map fst count_occ].
  destruct (String.eqb_spec name c) as [->|Hne].
  - destruct (string_dec c c); [|contradiction]. cbn [length]. now rewrite IH.
  - destruct (string_dec name c); [contradiction|]. exact IH.
Qed.

Lemma sanitize_ok_iff (env : Env) (df : DataFrame) :
  is_ok (sanitize_dataframe env df) = true <-> List.NoDup (column_names df).
Proof.
  unfold sanitize_dataframe.
  rewrite (NoDup_count_occ' string_dec).
  destruct (forallb _ (column_names df)) eqn:E.
  - split; [|reflexivity]. intros _ c Hc.
    rewrite forallb_forall in E. specialize (E c Hc).
    apply Nat.eqb_eq in E. now rewrite <- columns_named_count.
  - split; [discriminate|]. intros H. exfalso.
    assert (Hall : forallb (fun c => Nat.eqb (length (columns_named df c)) 1)
                     (column_names df) = true).
    { apply forallb_forall. intros c Hc. apply Nat.eqb_eq.
      rewrite columns_named_count. now apply H. }
    rewrite Hall in E. discriminate E.
Qed.

Lemma sanitize_dataframe_names (env : Env) (df df' : DataFrame) :
  sanitize_dataframe env df = Ok df' ->
  column_names df' = column_names df /\ df_nrows df' = df_nrows df.
Proof.
  unfold sanitize_dataframe. destruct (forallb _ _); [|discriminate].
  intros [= <-]. unfold column_names. cbn [df_columns df_nrows]. rewrite map_map.
  split; reflexivity.
Qed.

(** X7 — what the sanitizer does to a frame.  [sanitize_dataframe] returns
    exactly when no column name is repeated (it raises [AttributeError]
    otherwise); the frame it returns has the same number of rows and the
    same column names in the same order, is well formed when the given one
    is, and is left unchanged by a second sanitization. *)
Theorem sanitize_dataframe_shape (env : Env) (df : DataFrame) :
  (is_ok (sanitize_dataframe env df) = true <-> List.NoDup (column_names df))
  /\ (forall df',
        sanitize_dataframe env df = Ok df' ->
        df_nrows df' = df_nrows df
        /\ column_names df' = column_names df
        /\ df_empty df' = df_empty df
        /\ (df_wf df -> df_wf df')
        /\ sanitize_dataframe env df' = Ok df').
Proof.
  split; [apply sanitize_ok_iff|].
  intros df' Hs.
  assert (Hok : is_ok (sanitize_dataframe env df) = true) by now rewrite Hs.
  assert (Hnames : column_names df' = column_names df).
  { revert Hs. unfold sanitize_dataframe. destruct (forallb _ _); [|discriminate].
    intros [= <-]. unfold column_names. cbn [df_columns]. rewrite map_map. reflexivity. }
  assert (Hcols : df_columns df'
                  = map (fun col => (fst col, sanitize_column env (snd col))) (df_columns df)
                  /\ df_nrows df' = df_nrows df).
  { revert Hs. unfold sanitize_dataframe. destruct (forallb _ _); [|discriminate].
    intros [= <-]. split; reflexivity. }
  destruct Hcols as [Hcols Hrows].
  split; [exact Hrows|]. split; [exact Hnames|]. split; [|split].
  - unfold df_empty. rewrite Hrows, Hcols, length_map. reflexivity.
  - unfold df_wf. rewrite Hrows, Hcols, !List.Forall_forall. intros Hwf col Hcol.
    apply in_map_iff in Hcol as (c0 & <- & Hc0). cbn [snd].
    rewrite sanitize_column_length. now apply Hwf.
  - assert (Hok' : is_ok (sanitize_dataframe env df') = true).
    { apply sanitize_ok_iff. rewrite Hnames. now apply (sanitize_ok_iff env df). }
    revert Hok'. unfold sanitize_dataframe. destruct (forallb _ (column_names df'));
      [|discriminate]. intros _. f_equal. destruct df' as [n cols]. cbn [df_nrows df_columns] in *.
    f_equal. rewrite Hcols, map_map. cbn [fst snd]. rewrite <- Hcols at 1.
    rewrite Hcols. apply map_ext. intros col.
    f_equal. apply sanitize_column_idempotent.
Qed.

(** X8 — what an export leaves in the parquet directory.  For a frame
    with rows that the sanitizer accepts, with parquet output on: the
    state directory and the files of the other targets are not touched;
    when the writer succeeds the file of the target holds the sanitized
    frame and nothing of what it held before; when the writer fails the
    exporter raises the writer's error and the file of the target is gone,
    for it is unlinked before the write. *)
Theorem export_table_parquet_outcome (env : Env) (df df' : DataFrame) (name : string)
    (w : World) :
  df_empty df = false ->
  sanitize_dataframe env df = Ok df' ->
  EXPORTAR_PARQUET env = true ->
  let out := BuildFacts.export_table env df name w in
  state_dir (snd out) = state_dir w
  /\ (forall other, other <> name -> parquet_dir (snd out) !! other = parquet_dir w !! other)
  /\ match to_parquet_raises env name df' with
     | None => parquet_dir (snd out) !! name = Some df'
     | Some e =>
         fst out = Raise e
         /\ parquet_dir (snd out) !! name = None
         /\ csv_dir (snd out) = csv_dir w
     end.
Proof.
  intros He Hs Hp. cbv zeta.
  unfold BuildFacts.export_table. rewrite He.
  unfold bind at 1. unfold lift. rewrite Hs.
  unfold write_outputs. rewrite Hp.
  unfold bind, to_parquet, to_csv, logging, emit, ret.
  destruct (to_parquet_raises env name df') as [e|]; cbn.
  - split; [reflexivity|]. split.
    + intros other Hne. now rewrite lookup_delete_ne by congruence.
    + split; [reflexivity|]. split; [apply lookup_delete_eq | reflexivity].
  - destruct (EXPORTAR_CSV env); [destruct (to_csv_raises env name df')|]; cbn;
      (split; [reflexivity|]; split;
       [intros other Hne; now rewrite lookup_insert_ne by congruence
       | apply lookup_insert_eq]).
Qed.

(** One payment row, exported over an older file of the target. *)
Lemma export_table_parquet_outcome_witness :
  let df := mkDf 1 [("id", [PInt 7])] in
  let w := mkWorld ∅ (<["fact_pago" := mkDf 1 [("id", [PInt 1])]]> ∅) ∅ [] in
  df_empty df = false
  /\ sanitize_dataframe default_env df = Ok df
  /\ EXPORTAR_PARQUET default_env = true
  /\ parquet_dir (snd (BuildFacts.export_table default_env df "fact_pago" w)) !! "fact_pago"
     = Some df.
Proof.
  cbv zeta. split; [reflexivity|]. split; [reflexivity|]. split; [reflexivity|].
  exact (proj2 (proj2 (export_table_parquet_outcome default_env
                         (mkDf 1 [("id", [PInt 7])]) (mkDf 1 [("id", [PInt 7])]) "fact_pago"
                         (mkWorld ∅ (<["fact_pago" := mkDf 1 [("id", [PInt 1])]]> ∅) ∅ [])
                         eq_refl eq_refl eq_refl))).
Defined.
(** ** Column names that are distinct *)

(** X9 — names that are already distinct.  [_make_unique_columns] returns
    the list it was given exactly when no name stands twice in it. *)
Theorem make_unique_columns_identity (cols : list string) :
  BuildQuotes._make_unique_columns cols = cols <-> List.NoDup cols.
Proof.
  destruct (make_unique_go_spec cols ∅ [] seen_after_empty) as [Hlen Hnth].
  fold (BuildQuotes._make_unique_columns cols) in Hlen, Hnth. cbn [app] in Hnth.
  split.
  - intros Heq. rewrite Heq in Hnth. apply NoDup_nth_error. intros i j Hi Hij.
    destruct (nth_error cols i) as [c|] eqn:Ei; [|apply nth_error_None in Ei; lia].
    symmetry in Hij.
    assert (Hfirst : forall a b, a < b -> nth_error cols a = Some c ->
                                 nth_error cols b = Some c -> False).
    { intros a b Hab Ha Hb. pose proof (Hnth b c Hb) as Hout. rewrite Hb in Hout.
      pose proof (occurrences_firstn_lt c cols a b Hab Ha) as Hlt.
      destruct (occurrences c (firstn b cols)) as [|n]; [lia|].
      cbn [deduplicated_name] in Hout. injection Hout as Hout.
      symmetry in Hout. now apply generated_name_longer in Hout. }
    destruct (Nat.lt_trichotomy i j) as [Hlt | [-> | Hgt]]; [|reflexivity|].
    + destruct (Hfirst i j Hlt Ei Hij).
    + destruct (Hfirst j i Hgt Hij Ei).
  - intros Hnd. apply nth_error_ext. intros i.
    destruct (nth_error cols i) as [c|] eqn:Ei.
    + rewrite (Hnth i c Ei), (occurrences_firstn_nodup c cols i Hnd Ei). reflexivity.
    + apply nth_error_None. rewrite Hlen. now apply nth_error_None.
Qed.

(** X10 — when the returned names are distinct.  If no given name is
    itself of the form [<name>__k] for a given name and a [k] of 1 or
    more, the names [_make_unique_columns] returns are pairwise distinct. *)
Theorem make_unique_columns_unique_without_clash (cols : list string) :
  (forall c d k, In c cols -> In d cols -> c <> d +:+ "__" +:+ str_nat (S k)) ->
  List.NoDup (BuildQuotes._make_unique_columns cols).
Proof. exact (make_unique_nodup cols). Qed.

(** Two columns [price] and one [qty]. *)
Lemma make_unique_columns_unique_without_clash_witness :
  (forall c d k, In c ["price"; "price"; "qty"] -> In d ["price"; "price"; "qty"] ->
                 c <> d +:+ "__" +:+ str_nat (S k))
  /\ List.NoDup (BuildQuotes._make_unique_columns ["price"; "price"; "qty"]).
Proof.
  assert (H : forall c d k, In c ["price"; "price"; "qty"] -> In d ["price"; "price"; "qty"] ->
                            c <> d +:+ "__" +:+ str_nat (S k)).
  { intros c d k Hc Hd Heq. apply (f_equal Json.chars) in Heq.
    rewrite !chars_app in Heq.
    destruct Hc as [<-|[<-|[<-|[]]]]; destruct Hd as [<-|[<-|[<-|[]]]];
      cbn in Heq; discriminate Heq. }
  split; [exact H|].
  exact (make_unique_columns_unique_without_clash _ H).
Defined.

(** ** The query of the quote lines *)

Lemma pick_one (cols : list string) (c : string) :
  BuildQuotes.pick cols [c] = if BuildQuotes.mem c cols then Some c else None.
Proof. reflexivity. Qed.

Lemma request_part_items (src : Source) (qp_id qp_unit : option string) :
  snd (fst (BuildQuotes.request_part src qp_id qp_unit))
  = map render_item (request_items src qp_unit).
Proof.
  unfold BuildQuotes.request_part, request_items.
  destruct (catalog src "public" "oro_sale_quote_prod_request") as [cols_req|]; [|reflexivity].
  cbv zeta.
  destruct (BuildQuotes.pick cols_req ["quote_product_id"]); [|reflexivity].
  destruct (BuildQuotes.pick cols_req ["id"]); [|reflexivity].
  destruct (BuildQuotes.pick cols_req ["quantity"; "qty"]);
    destruct (BuildQuotes.pick cols_req ["product_unit_code"; "unit_code"; "product_unit"]);
    destruct qp_unit; reflexivity.
Qed.

Lemma offer_part_items (src : Source) (req_id : option (option string))
    (joins sel : list string) :
  BuildQuotes.offer_part src req_id = Ok (joins, sel) ->
  sel = map render_item (offer_items src).
Proof.
  unfold BuildQuotes.offer_part, offer_items.
  destruct (catalog src "public" "oro_sale_quote_prod_offer") as [cols_off|];
    [|now intros [= _ <-]].
  cbv zeta.
  destruct (BuildQuotes.pick cols_off ["quote_product_request_id"]); [|now intros [= _ <-]].
  destruct (BuildQuotes.pick cols_off ["id"]); [|now intros [= _ <-]].
  destruct req_id as [rid|]; [|discriminate].
  destruct (BuildQuotes.pick cols_off ["price"; "value"; "amount"]);
    destruct (BuildQuotes.pick cols_off ["currency"; "price_currency"]);
    now intros [= _ <-].
Qed.

Lemma base_items_render (cols_qp : list string) :
  map render_item (base_items cols_qp)
  = [ match BuildQuotes.pick cols_qp ["quote_id"] with
      | Some c => "qp." +:+ c +:+ " AS quote_id" | None => "NULL::bigint AS quote_id" end;
      match BuildQuotes.pick cols_qp ["id"] with
      | Some c => "qp." +:+ c +:+ " AS quote_product_id"
      | None => "ROW_NUMBER() OVER()::bigint AS quote_product_id" end;
      match BuildQuotes.pick cols_qp ["product_id"] with
      | Some c => "qp." +:+ c +:+ " AS product_id" | None => "NULL::bigint AS product_id" end;
      match BuildQuotes.pick cols_qp ["product_sku"; "sku"] with
      | Some c => "qp." +:+ c +:+ " AS sku" | None => "NULL::text AS sku" end;
      match BuildQuotes.pick cols_qp ["product_unit_code"; "unit_code"; "product_unit"] with
      | Some c => "qp." +:+ c +:+ " AS product_unit" | None => "NULL::text AS product_unit" end ].
Proof.
  unfold base_items. cbv zeta.
  destruct (BuildQuotes.pick cols_qp ["quote_id"]);
    destruct (BuildQuotes.pick cols_qp ["id"]);
    destruct (BuildQuotes.pick cols_qp ["product_id"]);
    destruct (BuildQuotes.pick cols_qp ["product_sku"; "sku"]);
    destruct (BuildQuotes.pick cols_qp ["product_unit_code"; "unit_code"; "product_unit"]);
    reflexivity.
Qed.

(** The query the builder returns selects the items of
    [select_items_linea], rendered and joined. *)
Lemma lines_query_select (src : Source) (q : string) :
  BuildQuotes.build_query_fact_cotizacion_linea src = Ok q ->
  exists cols_qp joins where_clause order_expr,
    catalog src "public" "oro_sale_quote_product" = Some cols_qp
    /\ q = lines [
         "";
         "    SELECT";
         "      " +:+ join ", " (map render_item (select_items_linea src cols_qp));
         "    FROM public.oro_sale_quote_product qp";
         "    " +:+ join " " joins;
         "    " +:+ where_clause;
         "    ORDER BY " +:+ order_expr +:+ " NULLS LAST;";
         "    " ].
Proof.
  unfold BuildQuotes.build_query_fact_cotizacion_linea.
  destruct (catalog src "public" "oro_sale_quote_product") as [cols_qp|]; [|discriminate].
  cbv zeta.
  pose proof (request_part_items src (BuildQuotes.pick cols_qp ["id"])
                (BuildQuotes.pick cols_qp ["product_unit_code"; "unit_code"; "product_unit"]))
    as Hreq.
  destruct (BuildQuotes.request_part src _ _) as [[joins_req sel_req] req_id].
  cbn [fst snd] in Hreq. subst sel_req.
  destruct (BuildQuotes.offer_part src req_id) as [[joins_off sel_off]|e] eqn:Eoff;
    [|discriminate].
  apply offer_part_items in Eoff. subst sel_off.
  destruct (BuildQuotes.timestamp_part src _ _) as [[joins_ts wc] ord].
  intros [= <-].
  exists cols_qp, (joins_req ++ joins_off ++ joins_ts), wc, ord.
  split; [reflexivity|].
  unfold select_items_linea. rewrite !map_app, base_items_render. reflexivity.
Qed.

(** X11 — when the builder of the lines query raises.  Without the table
    [oro_sale_quote_product] it raises [RuntimeError]; with it, it raises
    exactly when the request table is missing while the offer table has
    both [id] and [quote_product_request_id]: the offer join then names
    [req_id], which was never assigned, and Python raises
    [UnboundLocalError].  In every other case it returns a query. *)
Theorem lines_query_outcome (src : Source) :
  match catalog src "public" "oro_sale_quote_product" with
  | None =>
      BuildQuotes.build_query_fact_cotizacion_linea src
      = Raise (Exc "RuntimeError" "No existe public.oro_sale_quote_product")
  | Some _ =>
      match catalog src "public" "oro_sale_quote_prod_request",
            catalog src "public" "oro_sale_quote_prod_offer" with
      | None, Some cols_off =>
          if BuildQuotes.mem "id" cols_off
             && BuildQuotes.mem "quote_product_request_id" cols_off
          then exists msg,
                 BuildQuotes.build_query_fact_cotizacion_linea src
                 = Raise (Exc "UnboundLocalError" msg)
          else is_ok (BuildQuotes.build_query_fact_cotizacion_linea src) = true
      | _, _ => is_ok (BuildQuotes.build_query_fact_cotizacion_linea src) = true
      end
  end.
Proof.
  unfold BuildQuotes.build_query_fact_cotizacion_linea.
  destruct (catalog src "public" "oro_sale_quote_product") as [cols_qp|]; [|reflexivity].
  cbv zeta. unfold BuildQuotes.request_part, BuildQuotes.offer_part.
  destruct (catalog src "public" "oro_sale_quote_prod_request") as [cols_req|];
    destruct (catalog src "public" "oro_sale_quote_prod_offer") as [cols_off|];
    cbv zeta; rewrite ?pick_one.
  - destruct (BuildQuotes.mem "quote_product_id" cols_req), (BuildQuotes.mem "id" cols_req),
      (BuildQuotes.mem "quote_product_request_id" cols_off), (BuildQuotes.mem "id" cols_off);
      destruct (BuildQuotes.timestamp_part src _ _) as [[? ?] ?]; reflexivity.
  - destruct (BuildQuotes.mem "quote_product_id" cols_req), (BuildQuotes.mem "id" cols_req);
      destruct (BuildQuotes.timestamp_part src _ _) as [[? ?] ?]; reflexivity.
  - destruct (BuildQuotes.mem "id" cols_off),
      (BuildQuotes.mem "quote_product_request_id" cols_off); cbn [andb];
      try (eexists; reflexivity);
      destruct (BuildQuotes.timestamp_part src _ _) as [[? ?] ?]; reflexivity.
  - destruct (BuildQuotes.timestamp_part src _ _) as [[? ?] ?]; reflexivity.
Qed.

(** ** The aliases of the lines and the cycles of [build_quotes.py] *)

(** X12 — the unit of the request as a fallback.  When the product table
    has no unit column and the request table, joined by its [id] and
    [quote_product_id], has one, the select list holds the alias
    [product_unit] twice: the fifth item is the NULL placeholder and the
    eighth is the unit of the request.  [_make_unique_columns] then leaves
    the placeholder under [product_unit] and puts the unit of the request
    under [product_unit__1]. *)
Theorem lines_product_unit_twice (src : Source) (cols_qp cols_req : list string) (u : string) :
  BuildQuotes.pick cols_qp ["product_unit_code"; "unit_code"; "product_unit"] = None ->
  catalog src "public" "oro_sale_quote_prod_request" = Some cols_req ->
  BuildQuotes.mem "id" cols_req = true ->
  BuildQuotes.mem "quote_product_id" cols_req = true ->
  BuildQuotes.pick cols_req ["product_unit_code"; "unit_code"; "product_unit"] = Some u ->
  let items := select_items_linea src cols_qp in
  let names := BuildQuotes._make_unique_columns (map snd items) in
  nth_error items 4 = Some ("NULL::text", "product_unit")
  /\ nth_error items 7 = Some ("req." +:+ u, "product_unit")
  /\ length items = 11
  /\ nth_error names 4 = Some "product_unit"
  /\ nth_error names 7 = Some "product_unit__1".
Proof.
  intros Hqp Hreq Hid Hrqp Hu. cbv zeta.
  assert (Hitems : nth_error (select_items_linea src cols_qp) 4
                   = Some ("NULL::text", "product_unit")
                   /\ nth_error (select_items_linea src cols_qp) 7
                      = Some ("req." +:+ u, "product_unit")
                   /\ map snd (select_items_linea src cols_qp)
                      = ["quote_id"; "quote_product_id"; "product_id"; "sku"; "product_unit";
                         "request_id"; "quantity"; "product_unit";
                         "offer_id"; "price"; "currency_code"]).
  { unfold select_items_linea, base_items, request_items. cbv zeta.
    rewrite Hqp, Hreq, !pick_one, Hid, Hrqp, Hu.
    destruct (lines_alias_list src cols_qp) as (fb & _ & _).
    unfold offer_items. cbv zeta.
    destruct (catalog src "public" "oro_sale_quote_prod_offer") as [cols_off|];
      [|repeat split; reflexivity].
    destruct (BuildQuotes.pick cols_off ["quote_product_request_id"]);
      [|repeat split; reflexivity].
    destruct (BuildQuotes.pick cols_off ["id"]); repeat split; reflexivity. }
  destruct Hitems as (H4 & H7 & Hnames).
  split; [exact H4|]. split; [exact H7|]. split.
  - rewrite <- (length_map snd), Hnames. reflexivity.
  - rewrite Hnames. split; vm_compute; reflexivity.
Qed.

(** A product table without a unit and a request table with [unit_code]. *)
Lemma lines_product_unit_twice_witness :
  let src := mkSource
               (fun _ t =>
                  if String.eqb t "oro_sale_quote_product" then Some ["id"; "quote_id"]
                  else if String.eqb t "oro_sale_quote_prod_request"
                       then Some ["id"; "quote_product_id"; "unit_code"]
                       else None)
               (fun _ _ => Ok (mkDf 0 [])) in
  nth_error (BuildQuotes._make_unique_columns
               (map snd (select_items_linea src ["id"; "quote_id"]))) 7
  = Some "product_unit__1".
Proof.
  cbv zeta.
  refine (proj2 (proj2 (proj2 (proj2
    (lines_product_unit_twice _ ["id"; "quote_id"] ["id"; "quote_product_id"; "unit_code"]
       "unit_code" _ _ _ _ _))))); reflexivity.
Defined.

Lemma columns_named_absent (df : DataFrame) (c : string) :
  ~ In c (column_names df) -> columns_named df c = [].
Proof.
  unfold column_names, columns_named. intros H.
  rewrite (filter_none (fun col : string * list PyVal => String.eqb (fst col) c)); [reflexivity|].
  intros col Hcol. destruct (String.eqb_spec (fst col) c) as [Heq|]; [|reflexivity].
  exfalso. apply H. rewrite <- Heq. now apply in_map.
Qed.

Lemma max_timestamp_absent (env : Env) (df : DataFrame) (cols : list string) :
  (forall c, In c cols -> ~ In c (column_names df)) ->
  max_timestamp env df cols = Ok None.
Proof.
  induction cols as [|c rest IH]; intros H; [reflexivity|].
  cbn [max_timestamp]. rewrite (columns_named_absent df c) by (apply H; now left).
  apply IH. intros c' Hc'. apply H. now right.
Qed.

(** The cycle of the lines, step by step. *)
Lemma cycle_cotizacion_linea_steps (env : Env) (src : Source) (w : World) :
  BuildQuotes.cycle_cotizacion_linea env src w
  = match BuildQuotes.build_query_fact_cotizacion_linea src with
    | Raise e => (Raise e, w)
    | Ok q_lines =>
        let last_wm := stored_watermark "fact_cotizacion_linea" w in
        let '(q, params) :=
          if BuildQuotes.str_contains "{where_clause_ts}" q_lines then
            let '(where_clause, params, _) :=
              BuildQuotes.build_where_incremental "COALESCE(sq.updated_at, sq.created_at)"
                (BuildQuotes.INCR_QUOTES env) last_wm in
            (str_replace q_lines "{where_clause_ts}" where_clause, params)
          else (q_lines, None) in
        guarded_block env src (BuildQuotes.export_table env) "fact_cotizacion_linea" q params
          (BuildQuotes.INCR_QUOTES env)
          ["sq.updated_at"; "sq.created_at"; "updated_at"; "created_at"]
          (add_events w [Log INFO ("[FACT] " +:+ "fact_cotizacion_linea" +:+ " | incr="
                                     +:+ py_str env (PBool (BuildQuotes.INCR_QUOTES env))
                                     +:+ " | last_wm=" +:+ py_str env last_wm)])
    end.
Proof.
  unfold BuildQuotes.cycle_cotizacion_linea, bind, lift.
  rewrite read_watermark_stored.
  destruct (BuildQuotes.build_query_fact_cotizacion_linea src) as [q|e]; [|reflexivity].
  cbv zeta.
  destruct (BuildQuotes.str_contains "{where_clause_ts}" q); [|reflexivity].
  destruct (BuildQuotes.build_where_incremental _ _ _) as [[wc params] used]. reflexivity.
Qed.

Lemma events_since_same (w : World) : events_since w w = [].
Proof. apply events_since_app. now rewrite app_nil_r. Qed.

(** X13 — the lines never commit a watermark.  The select list of the
    lines holds none of the timestamp columns [max_timestamp] is asked
    for; so when the frame the database returns for the query this cycle
    executes is named by the aliases of the select list, a cycle of
    [fact_cotizacion_linea] writes no watermark and leaves the state
    directory as it was, whatever rows came back and whether incremental
    mode is on or off.  Nothing is asked of the frames of other queries. *)
Theorem lines_watermark_never_written (env : Env) (src : Source) (w : World) :
  let out := BuildQuotes.cycle_cotizacion_linea env src w in
  (forall q params,
     In (Executed q params) (events_since w (snd out)) -> frame_named_by_select src q params) ->
  watermarks_written "fact_cotizacion_linea" (events_since w (snd out)) = []
  /\ state_dir (snd out) = state_dir w.
Proof.
  cbv zeta. rewrite cycle_cotizacion_linea_steps.
  destruct (BuildQuotes.build_query_fact_cotizacion_linea src) as [q_lines|e] eqn:Eq;
    [|intros _; cbn [snd]; now rewrite events_since_same].
  destruct (lines_query_select src q_lines Eq) as (cols_qp & _ & _ & _ & Hcat & _).
  cbv zeta.
  match goal with
  | |- context [let '(q, params) := ?sel in _] => destruct sel as [q params]
  end.
  match goal with
  | |- context [guarded_block env src ?ex ?f q params ?i ?c (add_events w ?pre)] =>
      set (w' := add_events w pre);
      destruct (guarded_block_outcome env src ex f q params i c w'
                  (quotes_export_contract env)) as ((_ & Hh & _) & _ & Hwm & Hkeep & Hrun);
      set (out := guarded_block env src ex f q params i c w') in *;
      assert (Hev : events_since w (snd out) = pre ++ events_since w' (snd out))
  end.
  { apply events_since_app. rewrite Hh. unfold w', add_events. cbn [history].
    now rewrite <- app_assoc. }
  intros Hnamed.
  assert (Hq : frame_named_by_select src q params).
  { apply Hnamed. rewrite Hev. apply in_or_app. right. exact Hrun. }
  assert (Hnone : watermarks_written "fact_cotizacion_linea" (events_since w' (snd out)) = []).
  { destruct (watermarks_written _ (events_since w' (snd out))) as [|wm l] eqn:E;
      [reflexivity|].
    exfalso. destruct (Hwm wm (or_introl eq_refl))
      as (_ & _ & _ & df & df' & w1 & Hex & Hexp & Hmx).
    apply quotes_export_returns in Hexp. subst df'.
    rewrite max_timestamp_absent in Hmx; [discriminate Hmx|].
    intros c Hc. rewrite (Hq df cols_qp Hex Hcat).
    destruct (lines_alias_list src cols_qp) as (fb & -> & Hfb).
    intros Hin. destruct Hfb as [-> | ->]; cbn in Hc, Hin;
      repeat (destruct Hc as [<- | Hc]; [repeat (destruct Hin as [Hin | Hin];
                                                   [discriminate Hin|]); exact Hin|]);
      exact Hc. }
  split.
  - rewrite Hev, watermarks_written_app, Hnone. reflexivity.
  - rewrite (Hkeep Hnone). reflexivity.
Qed.

(** A database with the product table only, which answers the query of the
    lines with one line and every other query with a stamped row. *)
Lemma lines_watermark_never_written_witness :
  let src := lines_at (mkTs 2024 1 1 10 0 0 0) in
  let w := mkWorld ∅ ∅ ∅ [] in
  let out := BuildQuotes.cycle_cotizacion_linea default_env src w in
  (forall q params,
     In (Executed q params) (events_since w (snd out)) -> frame_named_by_select src q params)
  /\ column_names (one_row (mkTs 2024 1 1 10 0 0 0)) = ["updated_at"]
  /\ watermarks_written "fact_cotizacion_linea" (events_since w (snd out)) = [].
Proof.
  cbv zeta.
  set (src := lines_at (mkTs 2024 1 1 10 0 0 0)).
  set (w := mkWorld ∅ ∅ ∅ []).
  assert (Hn : forall q params,
             In (Executed q params)
                (events_since w (snd (BuildQuotes.cycle_cotizacion_linea default_env src w))) ->
             frame_named_by_select src q params).
  { intros q params Hin. vm_compute in Hin.
    destruct Hin as [Hin|[Hin|[Hin|[Hin|[Hin|[Hin|Hin]]]]]];
      try discriminate Hin; try contradiction.
    injection Hin as <- <-.
    intros df cols_qp Hex Hcat. vm_compute in Hex, Hcat.
    injection Hex as <-. injection Hcat as <-. vm_compute. reflexivity. }
  split; [exact Hn|]. split; [reflexivity|].
  exact (proj1 (lines_watermark_never_written default_env src w Hn)).
Defined.

(** The cycle of the header, step by step. *)
Lemma cycle_cotizacion_steps (env : Env) (src : Source) (w : World) :
  BuildQuotes.cycle_cotizacion env src w
  = match BuildQuotes.build_query_fact_cotizacion src with
    | Raise e => (Raise e, w)
    | Ok q_head =>
        let last_wm := stored_watermark "fact_cotizacion" w in
        let '(where_clause, params, _) :=
          BuildQuotes.build_where_incremental "COALESCE(updated_at, created_at)"
            (BuildQuotes.INCR_QUOTES env) last_wm in
        guarded_block env src (BuildQuotes.export_table env) "fact_cotizacion"
          (str_replace q_head "{where_clause}" where_clause) params
          (BuildQuotes.INCR_QUOTES env) ["updated_at"; "created_at"]
          (add_events w [Log INFO ("[FACT] " +:+ "fact_cotizacion" +:+ " | incr="
                                     +:+ py_str env (PBool (BuildQuotes.INCR_QUOTES env))
                                     +:+ " | last_wm=" +:+ py_str env last_wm)])
    end.
Proof.
  unfold BuildQuotes.cycle_cotizacion, bind, lift.
  rewrite read_watermark_stored.
  destruct (BuildQuotes.build_query_fact_cotizacion src) as [q|e]; [|reflexivity].
  cbv zeta.
  destruct (BuildQuotes.build_where_incremental _ _ _) as [[wc params] used]. reflexivity.
Qed.

(** The start of [main], step by step. *)
Lemma startup_steps (env : Env) (src : Source) (ses : BuildQuotes.Session) (w : World) :
  BuildQuotes.startup env src ses w
  = let logs :=
      [Log INFO ("Destino: " +:+ BuildQuotes.DB_USER ses +:+ "@" +:+ BuildQuotes.DB_HOST ses
                   +:+ ":" +:+ str_int (BuildQuotes.DB_PORT ses) +:+ "/"
                   +:+ BuildQuotes.DB_NAME ses);
       Log INFO ("Schema destino: " +:+ BuildQuotes.SCHEMA_DESTINO ses +:+ " | Sources: "
                   +:+ join ", " (BuildQuotes.SOURCE_SCHEMAS ses));
       Log INFO ("Exportar parquet=" +:+ py_str env (PBool (EXPORTAR_PARQUET env))
                   +:+ " csv=" +:+ py_str env (PBool (EXPORTAR_CSV env)));
       Log INFO ("Incremental quotes=" +:+ py_str env (PBool (BuildQuotes.INCR_QUOTES env)))] in
    let stmt := "SET search_path = "
                  +:+ join ", " (BuildQuotes.SCHEMA_DESTINO ses :: BuildQuotes.SOURCE_SCHEMAS ses)
                  +:+ ";" in
    match BuildQuotes.connect_raises ses with
    | Some e => (Raise e, add_events w logs)
    | None =>
        match execute src stmt None with
        | Ok _ => (Ok tt, add_events w (logs ++ [Executed stmt None]))
        | Raise e => (Raise e, add_events w (logs ++ [Executed stmt None]))
        end
    end.
Proof.
  unfold BuildQuotes.startup, BuildQuotes.open_connection, BuildQuotes.set_search_path.
  unfold bind, logging, emit, lift, raise, ret, add_events. cbn [state_dir parquet_dir csv_dir history].
  rewrite <- !app_assoc. cbn [app].
  destruct (BuildQuotes.connect_raises ses) as [e|]; [reflexivity|].
  cbn [state_dir parquet_dir csv_dir history]. rewrite <- !app_assoc. cbn [app].
  destruct (execute src _ None) as [df|e]; reflexivity.
Qed.

(** X14 — what [main] of [build_quotes.py] does not catch.  [main] starts
    with four log lines, the connection and the [SET search_path]
    statement; none of them touches the state directory or the outputs,
    and what the connection or the statement raises leaves [main].  After
    a start that returned, the history holds exactly the four lines and
    the statement.  The two queries are built outside the [try] blocks.
    Without the header table [main] then raises [RuntimeError] in the world
    the start left: no query of a target is executed, nothing is exported
    and no watermark is written.  With the header table but with a lines
    builder that raises, [main] raises that error after the cycle of the
    header has run: what the header exported and the watermark it wrote
    stay.  When both queries are built, [main] returns. *)
Theorem quotes_main_propagation (env : Env) (src : Source) (ses : BuildQuotes.Session)
    (w : World) :
  let start := BuildQuotes.startup env src ses w in
  let w0 := snd start in
  let stmt := "SET search_path = "
                +:+ join ", " (BuildQuotes.SCHEMA_DESTINO ses :: BuildQuotes.SOURCE_SCHEMAS ses)
                +:+ ";" in
  state_dir w0 = state_dir w
  /\ parquet_dir w0 = parquet_dir w
  /\ csv_dir w0 = csv_dir w
  /\ (forall e, fst start = Raise e ->
        BuildQuotes.main_from_start env src ses w = (Raise e, w0))
  /\ (forall e, BuildQuotes.connect_raises ses = Some e -> fst start = Raise e)
  /\ (forall e, BuildQuotes.connect_raises ses = None ->
        execute src stmt None = Raise e -> fst start = Raise e)
  /\ (fst start = Ok tt ->
      events_since w w0
      = [Log INFO ("Destino: " +:+ BuildQuotes.DB_USER ses +:+ "@" +:+ BuildQuotes.DB_HOST ses
                     +:+ ":" +:+ str_int (BuildQuotes.DB_PORT ses) +:+ "/"
                     +:+ BuildQuotes.DB_NAME ses);
         Log INFO ("Schema destino: " +:+ BuildQuotes.SCHEMA_DESTINO ses +:+ " | Sources: "
                     +:+ join ", " (BuildQuotes.SOURCE_SCHEMAS ses));
         Log INFO ("Exportar parquet=" +:+ py_str env (PBool (EXPORTAR_PARQUET env))
                     +:+ " csv=" +:+ py_str env (PBool (EXPORTAR_CSV env)));
         Log INFO ("Incremental quotes="
                     +:+ py_str env (PBool (BuildQuotes.INCR_QUOTES env)));
         Executed stmt None]
      /\ (catalog src "public" "oro_sale_quote" = None ->
            BuildQuotes.main_from_start env src ses w
            = (Raise (Exc "RuntimeError" "No existe public.oro_sale_quote"), w0))
      /\ (forall e,
            is_ok (BuildQuotes.build_query_fact_cotizacion src) = true ->
            BuildQuotes.build_query_fact_cotizacion_linea src = Raise e ->
            BuildQuotes.main_from_start env src ses w
            = (Raise e, snd (BuildQuotes.cycle_cotizacion env src w0)))
      /\ (is_ok (BuildQuotes.build_query_fact_cotizacion src) = true ->
          is_ok (BuildQuotes.build_query_fact_cotizacion_linea src) = true ->
          fst (BuildQuotes.main_from_start env src ses w) = Ok tt)).
Proof.
  cbv zeta.
  assert (Hhead : forall w1,
             is_ok (BuildQuotes.build_query_fact_cotizacion src) = true ->
             fst (BuildQuotes.cycle_cotizacion env src w1) = Ok tt).
  { intros w1 Hhead. rewrite cycle_cotizacion_steps.
    destruct (BuildQuotes.build_query_fact_cotizacion src) as [q|e']; [|discriminate Hhead].
    cbv zeta. destruct (BuildQuotes.build_where_incremental _ _ _) as [[wc params] used].
    apply guarded_block_outcome, quotes_export_contract. }
  assert (Hlines : forall w1,
             is_ok (BuildQuotes.build_query_fact_cotizacion_linea src) = true ->
             fst (BuildQuotes.cycle_cotizacion_linea env src w1) = Ok tt).
  { intros w1 Hlines. rewrite cycle_cotizacion_linea_steps.
    destruct (BuildQuotes.build_query_fact_cotizacion_linea src) as [q|e'];
      [|discriminate Hlines].
    cbv zeta.
    match goal with
    | |- context [let '(q, params) := ?sel in _] => destruct sel as [q' params]
    end.
    apply guarded_block_outcome, quotes_export_contract. }
  unfold BuildQuotes.main_from_start.
  unfold bind at 1 2 3 4.
  rewrite startup_steps. cbv zeta.
  destruct (BuildQuotes.connect_raises ses) as [ec|].
  { cbn [fst snd add_events state_dir parquet_dir csv_dir].
    repeat (split; [reflexivity|]).
    split; [now intros e [= <-]|]. split; [now intros e [= <-]|].
    split; [intros e H; discriminate H | intros H; discriminate H]. }
  destruct (execute src _ None) as [df|ex].
  2:{ cbn [fst snd add_events state_dir parquet_dir csv_dir].
      repeat (split; [reflexivity|]).
      split; [now intros e [= <-]|]. split; [intros e H; discriminate H|].
      split; [now intros e _ [= <-] | intros H; discriminate H]. }
  cbn [fst snd]. cbn [add_events state_dir parquet_dir csv_dir].
  repeat (split; [reflexivity|]).
  split; [intros e H; discriminate H|]. split; [intros e H; discriminate H|].
  split; [intros e _ H; discriminate H|]. intros _.
  split; [apply events_since_app; reflexivity|].
  match goal with
  | |- context [BuildQuotes.main env src ?w1] => set (w0 := w1)
  end.
  split; [|split].
  - intros Hcat. unfold BuildQuotes.main, bind. rewrite cycle_cotizacion_steps.
    unfold BuildQuotes.build_query_fact_cotizacion. now rewrite Hcat.
  - intros e Hh Hl.
    unfold BuildQuotes.main. rewrite run_then by (now apply Hhead).
    unfold bind. rewrite cycle_cotizacion_linea_steps, Hl. reflexivity.
  - intros Hh Hl.
    unfold BuildQuotes.main. rewrite run_then by (now apply Hhead).
    rewrite run_then by (now apply Hlines). reflexivity.
Qed.

(** ** Two consecutive runs of the quote header *)

(** What a cycle of the header that wrote a watermark did. *)
Lemma cycle_cotizacion_commit (env : Env) (src : Source) (w : World) (wm : string) :
  let out := BuildQuotes.cycle_cotizacion env src w in
  In wm (watermarks_written "fact_cotizacion" (events_since w (snd out))) ->
  BuildQuotes.INCR_QUOTES env = true /\ wm <> EmptyString
  /\ state_dir (snd out) !! "fact_cotizacion" = Some (TextFile (watermark_file wm))
  /\ exists q_head df,
       BuildQuotes.build_query_fact_cotizacion src = Ok q_head
       /\ execute src
            (str_replace q_head "{where_clause}"
               (fst (fst (BuildQuotes.build_where_incremental
                            "COALESCE(updated_at, created_at)" (BuildQuotes.INCR_QUOTES env)
                            (stored_watermark "fact_cotizacion" w)))))
            (snd (fst (BuildQuotes.build_where_incremental
                         "COALESCE(updated_at, created_at)" (BuildQuotes.INCR_QUOTES env)
                         (stored_watermark "fact_cotizacion" w)))) = Ok df
       /\ max_timestamp env df ["updated_at"; "created_at"] = Ok (Some wm).
Proof.
  cbv zeta. rewrite cycle_cotizacion_steps.
  destruct (BuildQuotes.build_query_fact_cotizacion src) as [q_head|e];
    [|cbn [snd]; rewrite events_since_same; intros []].
  cbv zeta.
  destruct (BuildQuotes.build_where_incremental _ _ _) as [[wc params] used]. cbn [fst snd].
  match goal with
  | |- context [guarded_block env src ?ex ?f ?q params ?i ?c (add_events w ?pre)] =>
      set (w' := add_events w pre);
      destruct (guarded_block_outcome env src ex f q params i c w'
                  (quotes_export_contract env)) as ((_ & Hh & _) & _ & Hwm & _);
      set (out := guarded_block env src ex f q params i c w') in *;
      assert (Hev : events_since w (snd out) = pre ++ events_since w' (snd out))
  end.
  { apply events_since_app. rewrite Hh. unfold w', add_events. cbn [history].
    now rewrite <- app_assoc. }
  rewrite Hev, watermarks_written_app. cbn [watermarks_written omap app].
  intros Hin. destruct (Hwm wm Hin) as (Hi & Hne & Hs & df & df' & w1 & Hex & Hexp & Hmx).
  apply quotes_export_returns in Hexp. subst df'.
  split; [exact Hi|]. split; [exact Hne|]. split.
  - rewrite Hs. apply lookup_insert_eq.
  - exists q_head, df. split; [reflexivity|]. split; assumption.
Qed.

(** X15 — watermark monotonicity for the quote header.  Two consecutive
    cycles of [fact_cotizacion], the second starting in the world the
    first left: when the first wrote [wm1], the second wrote [wm2], and the
    database answered the query of the second cycle, filtered by
    [COALESCE(updated_at, created_at) > wm1], with rows that pass that
    filter, then incremental mode is on and [wm1 <= wm2]. *)
Theorem quotes_watermark_monotone (env : Env) (src1 src2 : Source) (w0 : World)
    (wm1 wm2 q2 : string) :
  let w1 := snd (BuildQuotes.cycle_cotizacion env src1 w0) in
  let w2 := snd (BuildQuotes.cycle_cotizacion env src2 w1) in
  let where_clause := "WHERE COALESCE(updated_at, created_at) > %(wm)s" in
  let params := Some [("wm", PStr wm1)] in
  BuildQuotes.build_query_fact_cotizacion src2 = Ok q2 ->
  answers_where src2 (str_replace q2 "{where_clause}" where_clause) where_clause params
    ["updated_at"; "created_at"] ->
  In wm1 (watermarks_written "fact_cotizacion" (events_since w0 w1)) ->
  In wm2 (watermarks_written "fact_cotizacion" (events_since w1 w2)) ->
  BuildQuotes.INCR_QUOTES env = true /\ wm_le wm1 wm2 = true.
Proof.
  intros w1 w2 wc params Hq Hsrc H1 H2.
  destruct (cycle_cotizacion_commit env src1 w0 wm1 H1) as (Hincr & Hne & Hstate & _).
  fold w1 in Hstate.
  destruct (cycle_cotizacion_commit env src2 w1 wm2 H2)
    as (_ & _ & _ & q & df & Hq' & Hex & Hmx).
  split; [exact Hincr|].
  rewrite Hq in Hq'. injection Hq' as <-.
  rewrite (stored_watermark_written _ wm1 w1 Hstate), Hincr in Hex.
  assert (Hwc : BuildQuotes.build_where_incremental "COALESCE(updated_at, created_at)" true
                  (PStr wm1) = (wc, params, true)).
  { unfold BuildQuotes.build_where_incremental. cbn [truthy andb].
    destruct (String.eqb wm1 "") eqn:E; [|reflexivity].
    apply String.eqb_eq in E. contradiction. }
  rewrite Hwc in Hex. cbn [fst snd] in Hex.
  destruct (Hsrc df Hex) as (Hwf & Hts & Hrows).
  destruct (max_timestamp_row env df _ wm2 Hwf Hts Hmx) as (i & mx & Hi & Hrow & Hv & ->).
  specialize (Hrows i Hi). rewrite Hrow in Hrows.
  unfold where_admits, wc, params in Hrows.
  change (String.eqb "WHERE COALESCE(updated_at, created_at) > %(wm)s" "") with false in Hrows.
  change (strict_predicate "WHERE COALESCE(updated_at, created_at) > %(wm)s") with true in Hrows.
  cbn [String.eqb Ascii.eqb Bool.eqb andb] in Hrows.
  unfold wm_le. rewrite (parse_watermark_strftime mx Hv).
  destruct (parse_watermark wm1) as [a|] eqn:Ea; [|discriminate Hrows].
  apply ts_leb_trunc; [now apply (parse_watermark_whole wm1) | | exact Hrows].
  destruct Hv as (_ & _ & _ & _ & _ & _ & Hn). lia.
Qed.

(** A header stamped 10:00:00 on 1 January 2024, then one stamped half a
    microsecond past midnight of 2 January. *)
Lemma quotes_watermark_monotone_witness :
  let src1 := quotes_at (mkTs 2024 1 1 10 0 0 0) in
  let src2 := quotes_at (mkTs 2024 1 2 0 0 0 500) in
  let w0 := mkWorld ∅ ∅ ∅ [] in
  let w1 := snd (BuildQuotes.cycle_cotizacion default_env src1 w0) in
  let w2 := snd (BuildQuotes.cycle_cotizacion default_env src2 w1) in
  In "2024-01-01 10:00:00" (watermarks_written "fact_cotizacion" (events_since w0 w1))
  /\ In "2024-01-02 00:00:00" (watermarks_written "fact_cotizacion" (events_since w1 w2))
  /\ wm_le "2024-01-01 10:00:00" "2024-01-02 00:00:00" = true.
Proof.
  cbv zeta.
  set (src1 := quotes_at (mkTs 2024 1 1 10 0 0 0)).
  set (src2 := quotes_at (mkTs 2024 1 2 0 0 0 500)).
  set (w0 := mkWorld ∅ ∅ ∅ []).
  assert (H1 : In "2024-01-01 10:00:00"
                 (watermarks_written "fact_cotizacion"
                    (events_since w0 (snd (BuildQuotes.cycle_cotizacion default_env src1 w0)))))
    by (vm_compute; left; reflexivity).
  assert (H2 : In "2024-01-02 00:00:00"
                 (watermarks_written "fact_cotizacion"
                    (events_since (snd (BuildQuotes.cycle_cotizacion default_env src1 w0))
                       (snd (BuildQuotes.cycle_cotizacion default_env src2
                               (snd (BuildQuotes.cycle_cotizacion default_env src1 w0)))))))
    by (vm_compute; left; reflexivity).
  destruct (BuildQuotes.build_query_fact_cotizacion src2) as [q2|e] eqn:Hq;
    [|discriminate Hq].
  assert (Hsrc : answers_where src2
                   (str_replace q2 "{where_clause}"
                      "WHERE COALESCE(updated_at, created_at) > %(wm)s")
                   "WHERE COALESCE(updated_at, created_at) > %(wm)s"
                   (Some [("wm", PStr "2024-01-01 10:00:00")])
                   ["updated_at"; "created_at"]).
  { intros df [= <-]. split; [repeat constructor|]. split.
    - intros c cells v _ [[= _ <-]|[]] [<-|[]]. right. eexists. split; [reflexivity|].
      unfold valid_ts; cbn; lia.
    - intros i Hi. cbn in Hi. assert (i = 0) as -> by lia. vm_compute. reflexivity. }
  split; [exact H1|]. split; [exact H2|].
  exact (proj2 (quotes_watermark_monotone default_env src1 src2 w0 _ _ q2 Hq Hsrc H1 H2)).
Defined.

(** ** The inventory snapshot *)

(** The frame [build_snapshot] returns: the seven declared columns, then
    the other source columns as they are. *)
Lemma build_snapshot_parts (cols : list string) (fecha : PyVal)
    (out : BuildInventorySnapshot.Out) :
  BuildInventorySnapshot.build_snapshot cols fecha = Ok out ->
  exists seven,
    out = seven ++ map (fun c => (c, BuildInventorySnapshot.SrcCol c)) (snapshot_extras cols)
    /\ map fst seven = BuildInventorySnapshot.ordered.
Proof.
  unfold BuildInventorySnapshot.build_snapshot.
  fold (snapshot_extras cols).
  destruct (BuildInventorySnapshot.pick cols ["product_id"; "product"; "productid"; "producto_id"])
    as [pc|]; [|discriminate].
  generalize (snapshot_extras cols).
  generalize (BuildInventorySnapshot.pick cols
                ["warehouse_id"; "warehouse"; "warehouseid"; "almacen_id"; "source_warehouse_id"]).
  generalize (BuildInventorySnapshot.pick cols ["product_unit"; "unit"; "unidad"; "product_unit_code"]).
  generalize (BuildInventorySnapshot.pick cols
                ["stock_disponible"; "available_qty"; "available_quantity"; "on_hand";
                 "onhand"; "quantity"; "qty"; "inventory_qty"]).
  generalize (BuildInventorySnapshot.pick cols
                ["stock_total"; "total_qty"; "total_quantity"; "cantidad_total"]).
  generalize (BuildInventorySnapshot.pick cols
                ["stock_reservado"; "reserved_qty"; "reserved_quantity"; "allocated_qty"; "asignado"]).
  intros r t d u w extras.
  destruct d, t, r; cbn; intros H; injection H as <-;
    match goal with
    | |- exists s, ?a :: ?b :: ?c :: ?d :: ?e :: ?f :: ?g :: _ = s ++ _ /\ _ =>
        exists [a; b; c; d; e; f; g]; split; reflexivity
    end.
Qed.

Lemma snapshot_extras_spec (cols : list string) (c : string) :
  In c (snapshot_extras cols) <-> In c cols /\ ~ In c BuildInventorySnapshot.ordered.
Proof.
  unfold snapshot_extras. rewrite filter_In. split; intros [Hc Hn]; (split; [exact Hc|]).
  - intros Hin. apply negb_true_iff in Hn.
    assert (Ht : existsb (String.eqb c) BuildInventorySnapshot.ordered = true).
    { apply existsb_exists. exists c. split; [exact Hin | apply String.eqb_refl]. }
    rewrite Ht in Hn. discriminate Hn.
  - apply negb_true_iff. destruct (existsb _ _) eqn:E; [|reflexivity].
    apply existsb_exists in E as (x & Hx & Heq). apply String.eqb_eq in Heq. subst x.
    contradiction.
Qed.

(** X16 — the columns of the snapshot.  A snapshot that is built holds
    every source column whose name is none of the seven declared names,
    under its own name and as it is; a column of the snapshot is a
    declared one or such a source column; there are seven columns plus
    those; and when the source names are distinct so are the names of the
    snapshot. *)
Theorem snapshot_traceability (cols : list string) (fecha : PyVal)
    (out : BuildInventorySnapshot.Out) :
  BuildInventorySnapshot.build_snapshot cols fecha = Ok out ->
  (forall c, In c cols -> ~ In c BuildInventorySnapshot.ordered ->
             In (c, BuildInventorySnapshot.SrcCol c) out)
  /\ (forall name e, In (name, e) out ->
        In name BuildInventorySnapshot.ordered
        \/ (e = BuildInventorySnapshot.SrcCol name /\ In name cols))
  /\ length out = 7 + length (snapshot_extras cols)
  /\ (List.NoDup cols -> List.NoDup (map fst out)).
Proof.
  intros Hb. destruct (build_snapshot_parts cols fecha out Hb) as (seven & -> & Hseven).
  split; [|split; [|split]].
  - intros c Hc Hn. apply in_or_app. right. apply in_map_iff. exists c.
    split; [reflexivity|]. now apply snapshot_extras_spec.
  - intros name e Hin. apply in_app_or in Hin as [Hin|Hin].
    + left. rewrite <- Hseven. apply in_map_iff. now exists (name, e).
    + right. apply in_map_iff in Hin as (c & [= <- <-] & Hc).
      apply snapshot_extras_spec in Hc as [Hc _]. now split.
  - rewrite length_app, length_map.
    rewrite <- (length_map fst seven), Hseven. reflexivity.
  - intros Hnd. rewrite map_app, map_map, Hseven. cbn [fst]. rewrite map_id.
    apply List.NoDup_app.
    + repeat (apply List.NoDup_cons; [cbn; intros H;
                repeat (destruct H as [H|H]; [discriminate H|]); exact H|]).
      apply List.NoDup_nil.
    + unfold snapshot_extras. now apply List.NoDup_filter.
    + intros c Hc Hx. apply snapshot_extras_spec in Hx as [_ Hn]. contradiction.
Qed.

(** A view with a product, a quantity and a lot number. *)
Lemma snapshot_traceability_witness :
  exists out,
    BuildInventorySnapshot.build_snapshot ["product_id"; "qty"; "lot"] (PStr "2024-03-05") = Ok out
    /\ In ("lot", BuildInventorySnapshot.SrcCol "lot") out
    /\ length out = 9.
Proof.
  eexists. split; [vm_compute; reflexivity|].
  match goal with
  | |- In _ ?o /\ _ =>
      pose proof (snapshot_traceability ["product_id"; "qty"; "lot"] (PStr "2024-03-05") o
                    ltac:(vm_compute; reflexivity)) as (Htr & _ & Hlen & _)
  end.
  split; [|exact Hlen].
  apply Htr; [in_list|].
  cbn. intros H. repeat (destruct H as [H|H]; [discriminate H|]). exact H.
Defined.

(** X17 — how the stock columns are derived.  In a snapshot that is
    built, a quantity whose source column resolves is that column made
    numeric.  A missing [stock_disponible] is total minus reserved when
    both resolve and null otherwise; a missing [stock_reservado] is total
    minus the [stock_disponible] of the snapshot when the total resolves
    and null otherwise; a missing [stock_total] is always the sum of the
    [stock_disponible] and the [stock_reservado] of the snapshot, null or
    not. *)
Theorem snapshot_stock_balance (cols : list string) (fecha : PyVal)
    (out : BuildInventorySnapshot.Out) :
  BuildInventorySnapshot.build_snapshot cols fecha = Ok out ->
  let disp := BuildInventorySnapshot.pick cols
                ["stock_disponible"; "available_qty"; "available_quantity"; "on_hand";
                 "onhand"; "quantity"; "qty"; "inventory_qty"] in
  let total := BuildInventorySnapshot.pick cols
                 ["stock_total"; "total_qty"; "total_quantity"; "cantidad_total"] in
  let resv := BuildInventorySnapshot.pick cols
                ["stock_reservado"; "reserved_qty"; "reserved_quantity"; "allocated_qty";
                 "asignado"] in
  let numeric c := BuildInventorySnapshot.ToNumeric (BuildInventorySnapshot.SrcCol c) in
  exists D R T,
    nth_error out 3 = Some ("stock_disponible", D)
    /\ nth_error out 4 = Some ("stock_reservado", R)
    /\ nth_error out 5 = Some ("stock_total", T)
    /\ D = match disp, total, resv with
           | Some d, _, _ => numeric d
           | None, Some t, Some r => BuildInventorySnapshot.Sub (numeric t) (numeric r)
           | None, _, _ => BuildInventorySnapshot.Scalar PNone
           end
    /\ R = match resv, total with
           | Some r, _ => numeric r
           | None, Some t => BuildInventorySnapshot.Sub (numeric t) D
           | None, None => BuildInventorySnapshot.Scalar PNone
           end
    /\ T = match total with
           | Some t => numeric t
           | None => BuildInventorySnapshot.Add (BuildInventorySnapshot.ToNumeric D)
                       (BuildInventorySnapshot.ToNumeric R)
           end.
Proof.
  unfold BuildInventorySnapshot.build_snapshot.
  fold (snapshot_extras cols).
  destruct (BuildInventorySnapshot.pick cols ["product_id"; "product"; "productid"; "producto_id"])
    as [pc|]; [|discriminate].
  generalize (snapshot_extras cols).
  generalize (BuildInventorySnapshot.pick cols
                ["warehouse_id"; "warehouse"; "warehouseid"; "almacen_id"; "source_warehouse_id"]).
  generalize (BuildInventorySnapshot.pick cols ["product_unit"; "unit"; "unidad"; "product_unit_code"]).
  generalize (BuildInventorySnapshot.pick cols
                ["stock_disponible"; "available_qty"; "available_quantity"; "on_hand";
                 "onhand"; "quantity"; "qty"; "inventory_qty"]).
  generalize (BuildInventorySnapshot.pick cols
                ["stock_total"; "total_qty"; "total_quantity"; "cantidad_total"]).
  generalize (BuildInventorySnapshot.pick cols
                ["stock_reservado"; "reserved_qty"; "reserved_quantity"; "allocated_qty"; "asignado"]).
  intros r t d u w extras.
  destruct d, t, r; cbn; intros H; injection H as <-;
    eexists _, _, _; repeat split; reflexivity.
Qed.

(** A view with the available and the reserved quantity and no total. *)
Lemma snapshot_stock_balance_witness :
  exists out,
    BuildInventorySnapshot.build_snapshot ["product_id"; "available_qty"; "reserved_qty"]
      PNone = Ok out
    /\ nth_error out 5
       = Some ("stock_total",
               BuildInventorySnapshot.Add
                 (BuildInventorySnapshot.ToNumeric
                    (BuildInventorySnapshot.ToNumeric
                       (BuildInventorySnapshot.SrcCol "available_qty")))
                 (BuildInventorySnapshot.ToNumeric
                    (BuildInventorySnapshot.ToNumeric
                       (BuildInventorySnapshot.SrcCol "reserved_qty")))).
Proof.
  eexists. split; [vm_compute; reflexivity|].
  match goal with
  | |- nth_error ?o 5 = _ =>
      destruct (snapshot_stock_balance ["product_id"; "available_qty"; "reserved_qty"] PNone o
                  ltac:(vm_compute; reflexivity)) as (D & R & T & _ & _ & HT & HD & HR & HTe)
  end.
  rewrite HT. f_equal. f_equal. rewrite HTe, HR, HD. reflexivity.
Defined.

(** ** Candidate columns and the query of the quote header *)

Lemma pick_none_unresolved (cols cands : list string) :
  BuildQuotes.pick cols cands = None -> unresolved cols cands.
Proof.
  unfold BuildQuotes.pick. intros H c Hc Hin.
  pose proof (find_none _ _ H c Hc) as Hm. cbn in Hm.
  apply mem_In in Hin. rewrite Hin in Hm. discriminate Hm.
Qed.

(** X18 — [pick] takes the first candidate the table has.  The two
    scripts' [pick] agree.  [pick] returns [None] exactly when no candidate
    is a column; it returns [c] exactly when [c] is a candidate and a
    column and no candidate before [c] is a column; and its result depends
    on which columns the table has, not on their order or repetition. *)
Theorem pick_first_present (cols cands : list string) :
  BuildInventorySnapshot.pick cols cands = BuildQuotes.pick cols cands
  /\ (BuildQuotes.pick cols cands = None <-> unresolved cols cands)
  /\ (forall c,
        BuildQuotes.pick cols cands = Some c <->
        exists before after,
          cands = before ++ c :: after /\ In c cols /\ unresolved cols before)
  /\ (forall cols',
        (forall c, In c cols <-> In c cols') ->
        BuildQuotes.pick cols' cands = BuildQuotes.pick cols cands).
Proof.
  split; [reflexivity|]. split; [|split].
  - split; [apply pick_none_unresolved | apply pick_unresolved].
  - intros c. split.
    + unfold BuildQuotes.pick. induction cands as [|a cands IH]; [discriminate|].
      cbn [find]. destruct (BuildQuotes.mem a cols) eqn:Ea.
      * intros [= <-]. exists [], cands. split; [reflexivity|].
        split; [now apply mem_In | intros x []].
      * intros H. destruct (IH H) as (before & after & -> & Hc & Hun).
        exists (a :: before), after. split; [reflexivity|]. split; [exact Hc|].
        intros x [<-|Hx]; [|now apply Hun].
        intros Hin. apply mem_In in Hin. rewrite Hin in Ea. discriminate Ea.
    + intros (before & after & -> & Hc & Hun). unfold BuildQuotes.pick.
      induction before as [|b before IH]; cbn [app find].
      * apply mem_In in Hc. now rewrite Hc.
      * destruct (BuildQuotes.mem b cols) eqn:Eb.
        -- apply mem_In in Eb. destruct (Hun b (or_introl eq_refl) Eb).
        -- apply IH. intros x Hx. apply Hun. now right.
  - intros cols' Hsame. unfold BuildQuotes.pick.
    assert (Hmem : forall c, BuildQuotes.mem c cols' = BuildQuotes.mem c cols).
    { intros c.
      destruct (BuildQuotes.mem c cols) eqn:E1, (BuildQuotes.mem c cols') eqn:E2;
        try reflexivity.
      - apply mem_In, Hsame, mem_In in E1. congruence.
      - apply mem_In, Hsame, mem_In in E2. congruence. }
    induction cands as [|a cands IH]; [reflexivity|].
    cbn [find]. rewrite Hmem, IH. reflexivity.
Qed.

Lemma starts_with_refl (n : string) : starts_with n n = true.
Proof.
  induction n as [|c n IH]; [reflexivity|]. cbn [starts_with].
  now rewrite Ascii.eqb_refl.
Qed.

Lemma starts_with_app_l (n a b : string) :
  starts_with n a = true -> starts_with n (a +:+ b) = true.
Proof.
  revert a. induction n as [|c n IH]; intros a H.
  - now destruct (a +:+ b).
  - destruct a as [|x a]; [discriminate H|].
    change (starts_with (String c n) (String x (a +:+ b)) = true).
    cbn [starts_with] in H |- *. apply andb_true_iff in H as [Hc Hn].
    rewrite Hc. now apply IH.
Qed.

Lemma str_contains_refl (n : string) : BuildQuotes.str_contains n n = true.
Proof. destruct n; cbn [BuildQuotes.str_contains]; now rewrite starts_with_refl. Qed.

Lemma str_contains_app_r (n a b : string) :
  BuildQuotes.str_contains n b = true -> BuildQuotes.str_contains n (a +:+ b) = true.
Proof.
  intros H. induction a as [|c a IH]; [exact H|].
  change (BuildQuotes.str_contains n (String c (a +:+ b)) = true).
  cbn [BuildQuotes.str_contains]. rewrite IH. apply orb_true_r.
Qed.

Lemma str_contains_app_l (n a b : string) :
  BuildQuotes.str_contains n a = true -> BuildQuotes.str_contains n (a +:+ b) = true.
Proof.
  induction a as [|c a IH]; intros H.
  - cbn in H. rewrite orb_false_r in H.
    destruct n; [|discriminate H]. now destruct b.
  - change (BuildQuotes.str_contains n (String c (a +:+ b)) = true).
    cbn [BuildQuotes.str_contains] in H |- *.
    apply orb_true_iff in H as [H|H].
    + change (String c (a +:+ b)) with (String c a +:+ b).
      now rewrite (starts_with_app_l n (String c a) b H).
    + rewrite (IH H). apply orb_true_r.
Qed.

Lemma str_contains_join (n sep l : string) (ls : list string) :
  In l ls -> BuildQuotes.str_contains n l = true ->
  BuildQuotes.str_contains n (join sep ls) = true.
Proof.
  intros Hin Hl. induction ls as [|p rest IH]; [destruct Hin|].
  destruct rest as [|p' rest].
  - destruct Hin as [->|[]]. exact Hl.
  - change (join sep (p :: p' :: rest)) with (p +:+ sep +:+ join sep (p' :: rest)).
    destruct Hin as [->|Hin].
    + now apply str_contains_app_l.
    + do 2 apply str_contains_app_r. now apply IH.
Qed.

Lemma order_fact_cotizacion_none (cols : list string) :
  BuildQuotes.order_fact_cotizacion cols = "None"
  <-> unresolved cols ["updated_at"; "updatedat"; "created_at"; "createdat"; "id"].
Proof.
  unfold BuildQuotes.order_fact_cotizacion. split.
  - intros H.
    destruct (BuildQuotes.pick cols ["updated_at"; "updatedat"]) as [c|] eqn:Eu.
    { apply pick_resolved in Eu as [Hc _]. cbn in H. subst c.
      cbn in Hc. repeat (destruct Hc as [Hc|Hc]; [discriminate Hc|]). destruct Hc. }
    destruct (BuildQuotes.pick cols ["created_at"; "createdat"]) as [c|] eqn:Ec.
    { apply pick_resolved in Ec as [Hc _]. cbn in H. subst c.
      cbn in Hc. repeat (destruct Hc as [Hc|Hc]; [discriminate Hc|]). destruct Hc. }
    destruct (BuildQuotes.pick cols ["id"]) as [c|] eqn:Ei.
    { apply pick_resolved in Ei as [Hc _]. cbn in H. subst c.
      cbn in Hc. repeat (destruct Hc as [Hc|Hc]; [discriminate Hc|]). destruct Hc. }
    apply pick_none_unresolved in Eu, Ec, Ei.
    intros c [<-|[<-|[<-|[<-|[<-|[]]]]]].
    + apply Eu. in_list.
    + apply Eu. in_list.
    + apply Ec. in_list.
    + apply Ec. in_list.
    + apply Ei. in_list.
  - intros Hun.
    rewrite !pick_unresolved; [reflexivity | | |];
      intros c Hc; apply Hun; cbn in Hc |- *; tauto.
Qed.

(** X19 — the query of the quote header.  When the table exists the
    builder returns a query that holds the slot [{where_clause}] and ends
    with [ORDER BY <expr> NULLS LAST;].  The expression is the first of
    [updated_at], [updatedat], [created_at], [createdat], [id] the table
    has; when it has none of them the query orders by the word [None],
    which names no column. *)
Theorem header_query_order (src : Source) (cols : list string) :
  catalog src "public" "oro_sale_quote" = Some cols ->
  exists q,
    BuildQuotes.build_query_fact_cotizacion src = Ok q
    /\ BuildQuotes.str_contains "{where_clause}" q = true
    /\ BuildQuotes.str_contains
         ("ORDER BY " +:+ BuildQuotes.order_fact_cotizacion cols +:+ " NULLS LAST;") q = true
    /\ (forall c,
          BuildQuotes.pick cols ["updated_at"; "updatedat"; "created_at"; "createdat"; "id"]
          = Some c ->
          BuildQuotes.order_fact_cotizacion cols = c)
    /\ (BuildQuotes.order_fact_cotizacion cols = "None"
        <-> unresolved cols ["updated_at"; "updatedat"; "created_at"; "createdat"; "id"]).
Proof.
  intros Hcat. unfold BuildQuotes.build_query_fact_cotizacion. rewrite Hcat.
  eexists. split; [reflexivity|].
  unfold lines.
  generalize ("      " +:+ join ", " (BuildQuotes.select_fact_cotizacion cols)). intros sel.
  split; [|split; [|split]].
  - apply (str_contains_join _ _ "    {where_clause}"); [in_list | reflexivity].
  - generalize (BuildQuotes.order_fact_cotizacion cols). intros ord.
    apply (str_contains_join _ _ ("    ORDER BY " +:+ ord +:+ " NULLS LAST;")); [in_list|].
    change ("    ORDER BY " +:+ ord +:+ " NULLS LAST;")
      with ("    " +:+ ("ORDER BY " +:+ ord +:+ " NULLS LAST;")).
    apply str_contains_app_r, str_contains_refl.
  - intros c. unfold BuildQuotes.order_fact_cotizacion, BuildQuotes.pick. cbn [find].
    destruct (BuildQuotes.mem "updated_at" cols); [now intros [= <-]|].
    destruct (BuildQuotes.mem "updatedat" cols); [now intros [= <-]|].
    destruct (BuildQuotes.mem "created_at" cols); [now intros [= <-]|].
    destruct (BuildQuotes.mem "createdat" cols); [now intros [= <-]|].
    destruct (BuildQuotes.mem "id" cols); [now intros [= <-] | discriminate].
  - apply order_fact_cotizacion_none.
Qed.

(** A header table with the single column [total]: the query orders by
    [None]. *)
Lemma header_query_order_witness :
  let src := mkSource (fun _ _ => Some ["total"]) (fun _ _ => Ok (mkDf 0 [])) in
  catalog src "public" "oro_sale_quote" = Some ["total"]
  /\ exists q,
       BuildQuotes.build_query_fact_cotizacion src = Ok q
       /\ BuildQuotes.str_contains "ORDER BY None NULLS LAST;" q = true.
Proof.
  cbv zeta. split; [reflexivity|].
  destruct (header_query_order (mkSource (fun _ _ => Some ["total"]) (fun _ _ => Ok (mkDf 0 [])))
              ["total"] eq_refl) as (q & Hq & _ & Hord & _).
  exists q. split; [exact Hq | exact Hord].
Defined.

(** ** Runs that commit, and the settings *)

Lemma max_timestamp_rendered (env : Env) (df : DataFrame) (cols : list string) (wm : string) :
  max_timestamp env df cols = Ok (Some wm) -> exists mx, wm = strftime mx.
Proof.
  induction cols as [|c rest IH]; [discriminate|]. cbn [max_timestamp].
  destruct (columns_named df c) as [|cells [|more tl]]; [exact IH | | discriminate].
  destruct (forallb isna cells); [exact IH|].
  destruct (to_datetime env cells) as [ts|]; [|exact IH].
  destruct (series_max ts) as [mx|]; [|exact IH].
  intros [= <-]. now exists mx.
Qed.

Lemma watermarks_written_commit (fact wm msg : string) :
  watermarks_written fact [WatermarkWritten fact wm; Log INFO msg] = [wm].
Proof.
  unfold watermarks_written. cbn [omap list_omap]. rewrite String.eqb_refl. reflexivity.
Qed.

Lemma watermarks_written_log (fact msg : string) (lvl : Level) :
  watermarks_written fact [Log lvl msg] = [].
Proof. reflexivity. Qed.

Lemma watermarks_written_query (fact q msg : string) (params : Params) (lvl : Level) :
  watermarks_written fact [Executed q params; Log lvl msg] = [].
Proof. reflexivity. Qed.

(** The exporter of [build_facts.py] when nothing fails. *)
Lemma facts_export_succeeds (env : Env) (df df' : DataFrame) (name : string) (w : World) :
  df_empty df = false ->
  sanitize_dataframe env df = Ok df' ->
  to_parquet_raises env name df' = None ->
  to_csv_raises env name df' = None ->
  exists evs,
    BuildFacts.export_table env df name w
    = (Ok df',
       mkWorld (state_dir w)
         (if EXPORTAR_PARQUET env then <[name := df']> (parquet_dir w) else parquet_dir w)
         (if EXPORTAR_CSV env then <[name := df']> (csv_dir w) else csv_dir w)
         (history w ++ evs))
    /\ forallb quiet_event evs = true.
Proof.
  intros He Hs Hp Hc. unfold BuildFacts.export_table. rewrite He.
  unfold bind at 1. unfold lift. rewrite Hs. unfold write_outputs.
  unfold bind, to_parquet, to_csv, logging, emit, ret. rewrite Hp, Hc.
  destruct (EXPORTAR_PARQUET env), (EXPORTAR_CSV env); cbn;
    rewrite <- ?app_assoc; cbn [app]; eexists; (split; [reflexivity | reflexivity]).
Qed.



Lemma fact_cycle_disabled (env : Env) (src : Source) (fact column base : string)
    (cols : list string) (w : World) :
  fst (BuildFacts.fact_cycle env src fact column false base cols w) = Ok tt
  /\ state_dir (snd (BuildFacts.fact_cycle env src fact column false base cols w))
     = state_dir w.
Proof.
  split; [apply fact_cycle_guarded|].
  rewrite fact_cycle_steps. cbv zeta.
  change (BuildFacts.build_where_incremental fact column false (stored_watermark fact w))
    with (EmptyString, @None (list (string * PyVal)), false).
  cbv iota beta.
  match goal with
  | |- state_dir (snd (guarded_block env src ?ex fact ?q ?p false cols ?w')) = _ =>
      destruct (guarded_block_outcome env src ex fact q p false cols w'
                  (facts_export_contract env)) as (_ & _ & Hwm & Hkeep & _);
      rewrite Hkeep; [reflexivity|];
      destruct (watermarks_written fact _) as [|wm l] eqn:E; [reflexivity|];
      destruct (Hwm wm (or_introl eq_refl)) as [Hincr _]; discriminate Hincr
  end.
Qed.

(** With incremental mode off a cycle runs the query of the target without
    a where-clause and without parameters. *)
Lemma fact_cycle_full_load (env : Env) (src : Source) (fact column base : string)
    (cols : list string) (w : World) :
  In (Executed (str_replace base "{where_clause}" "") None)
     (events_since w (snd (BuildFacts.fact_cycle env src fact column false base cols w))).
Proof.
  pose proof (fact_cycle_executes env src fact column false base cols w) as Hex.
  change (BuildFacts.build_where_incremental fact column false (stored_watermark fact w))
    with (EmptyString, @None (list (string * PyVal)), false) in Hex.
  exact Hex.
Qed.


Lemma set_columns_names (df : DataFrame) (names : list string) :
  length names = length (df_columns df) ->
  column_names (BuildQuotes.set_columns df names) = names.
Proof.
  unfold column_names, BuildQuotes.set_columns. cbn [df_columns].
  generalize (df_columns df). induction names as [|n names IH]; intros [|col cols] Hlen;
    try discriminate Hlen; [reflexivity|].
  cbn. f_equal. apply IH. now injection Hlen.
Qed.

(** X22 — what the exporter of [build_quotes.py] writes.  It works on a
    copy: when it returns, the frame of the caller is the one it was
    given.  The copy is renamed by [_make_unique_columns] and then
    sanitized; when the renamed names still hold a repetition the exporter
    raises [AttributeError] and changes nothing; otherwise, with parquet
    output on and a writer that does not fail, the file of the target
    holds the sanitized copy, whose column names are the de-duplicated
    ones. *)
Theorem quotes_export_outcome (env : Env) (df : DataFrame) (name : string) (w : World) :
  let renamed := BuildQuotes.set_columns df (BuildQuotes._make_unique_columns (column_names df)) in
  let out := BuildQuotes.export_table env df name w in
  (forall df', fst out = Ok df' -> df' = df)
  /\ (df_empty df = false ->
      ~ List.NoDup (BuildQuotes._make_unique_columns (column_names df)) ->
      out = (Raise (Exc "AttributeError" "'DataFrame' object has no attribute 'dtype'"), w))
  /\ (forall df2,
        df_empty df = false ->
        sanitize_dataframe env renamed = Ok df2 ->
        EXPORTAR_PARQUET env = true ->
        to_parquet_raises env name df2 = None ->
        parquet_dir (snd out) !! name = Some df2
        /\ column_names df2 = BuildQuotes._make_unique_columns (column_names df)).
Proof.
  cbv zeta.
  assert (Hnames : column_names
                     (BuildQuotes.set_columns df
                        (BuildQuotes._make_unique_columns (column_names df)))
                   = BuildQuotes._make_unique_columns (column_names df)).
  { apply set_columns_names.
    destruct (make_unique_go_spec (column_names df) ∅ [] seen_after_empty) as [Hlen _].
    fold (BuildQuotes._make_unique_columns (column_names df)) in Hlen.
    rewrite Hlen. unfold column_names. apply length_map. }
  split; [|split].
  - intros df'. apply quotes_export_returns.
  - intros He Hdup. unfold BuildQuotes.export_table. rewrite He. cbv zeta.
    unfold bind at 1. unfold lift.
    destruct (sanitize_dataframe env _) as [d|e] eqn:Es.
    + exfalso. apply Hdup. rewrite <- Hnames. apply (sanitize_ok_iff env). now rewrite Es.
    + revert Es. unfold sanitize_dataframe. destruct (forallb _ _); [discriminate|].
      now intros [= <-].
  - intros df2 He Hs Hp Hw. unfold BuildQuotes.export_table. rewrite He. cbv zeta.
    unfold bind at 1. unfold lift. rewrite Hs.
    split.
    + unfold write_outputs. rewrite Hp.
      unfold bind, to_parquet, to_csv, logging, emit, ret. rewrite Hw.
      destruct (EXPORTAR_CSV env); [destruct (to_csv_raises env name df2)|]; cbn;
        apply lookup_insert_eq.
    + destruct (sanitize_dataframe_names env _ df2 Hs). now rewrite Hnames in *.
Qed.

(** ** The two targets of [build_facts.py] *)

Lemma stored_watermark_same (fact : string) (w w' : World) :
  state_dir w' !! fact = state_dir w !! fact ->
  stored_watermark fact w' = stored_watermark fact w.
Proof. intros H. rewrite !stored_watermark_cases. now rewrite H. Qed.

(** X23 — the targets do not depend on each other.  In [main] of
    [build_facts.py] the cycle of [fact_pago] runs after the cycle of
    [fact_ventas_linea], whatever that one met, and it runs the query its
    own stored watermark gives: the where-clause and the parameters are
    those built from the watermark of [fact_pago] as it was stored before
    [main] started. *)
Theorem facts_targets_independent (env : Env) (src : Source) (w : World) :
  let clause :=
    BuildFacts.build_where_incremental "fact_pago" "COALESCE(t.updated_at, t.created_at)"
      (incr_setting env "payments" false) (stored_watermark "fact_pago" w) in
  In (Executed (str_replace BuildFacts.Q_FACT_PAGO_BASE "{where_clause}" (fst (fst clause)))
               (snd (fst clause)))
     (events_since w (snd (BuildFacts.main env src w)))
  /\ stored_watermark "fact_ventas_linea" (snd (BuildFacts.main env src w))
     = stored_watermark "fact_ventas_linea"
         (snd (BuildFacts.cycle_ventas_linea env src w)).
Proof.
  cbv zeta.
  set (w1 := snd (BuildFacts.cycle_ventas_linea env src w)).
  set (w2 := snd (BuildFacts.cycle_pago env src w1)).
  assert (Hmain : snd (BuildFacts.main env src w)
                  = add_events w2 [Log INFO "Hechos exportados."]).
  { unfold BuildFacts.main.
    rewrite run_then by (unfold BuildFacts.cycle_ventas_linea; apply fact_cycle_guarded).
    rewrite run_then by (unfold BuildFacts.cycle_pago; apply fact_cycle_guarded).
    reflexivity. }
  pose proof (fact_cycle_guarded env src "fact_ventas_linea" "o.updated_at"
                (incr_setting env "order_lines" false) BuildFacts.Q_FACT_VENTAS_LINEA_BASE
                ["fecha_actualizacion_pedido"; "fecha_creacion_pedido"] w)
    as (_ & Hh1 & _ & _ & _ & Hother1).
  pose proof (fact_cycle_guarded env src "fact_pago" "COALESCE(t.updated_at, t.created_at)"
                (incr_setting env "payments" false) BuildFacts.Q_FACT_PAGO_BASE
                ["updated_at"; "created_at"] w1)
    as (_ & Hh2 & _ & _ & _ & Hother2).
  fold (BuildFacts.cycle_ventas_linea env src w) in Hh1, Hother1. fold w1 in Hh1, Hother1.
  fold (BuildFacts.cycle_pago env src w1) in Hh2, Hother2. fold w2 in Hh2, Hother2.
  split.
  - pose proof (fact_cycle_executes env src "fact_pago" "COALESCE(t.updated_at, t.created_at)"
                  (incr_setting env "payments" false) BuildFacts.Q_FACT_PAGO_BASE
                  ["updated_at"; "created_at"] w1) as Hex.
    fold (BuildFacts.cycle_pago env src w1) in Hex. fold w2 in Hex.
    rewrite (stored_watermark_same "fact_pago" w w1) in Hex
      by (apply Hother1; discriminate).
    destruct (BuildFacts.build_where_incremental _ _ _ _) as [[wc params] used].
    cbn [fst snd].
    rewrite Hmain.
    rewrite (events_since_app w (add_events w2 _)
               (events_since w w1 ++ events_since w1 w2 ++ [Log INFO "Hechos exportados."])).
    + apply in_or_app. right. apply in_or_app. now left.
    + unfold add_events. cbn [history]. rewrite Hh2. rewrite Hh1 at 1.
      rewrite <- !app_assoc. reflexivity.
  - rewrite Hmain. apply stored_watermark_same.
    unfold add_events. cbn [state_dir]. apply Hother2. discriminate.
Qed.
